(** * cegid-import: SFTP download with optional S3 upload

    A shallow embedding of [cegid-import.py]: the two manager classes
    ([SFTPManager], [S3Manager]), the CSV filename reader
    ([read_csv_filenames]), the transfer orchestrator ([process_files]),
    the reporter ([print_summary]) and the entry point ([main]).

    The network, the object store and the local file system are not part of
    the program: they are a [Backend], a record of low-level operations
    (paramiko, boto3, os, tempfile, shutil, pathlib, the csv reader) on an
    abstract world [W], each of which may return or raise.  The program is
    written in a small state / exception / event-trace monad [M] on top of
    it: the state holds the world, the [SFTPManager] object and the results
    dict; every call into the backend is recorded in the trace.

    Left out, as they carry no control flow: the calls to the logger, the
    progress output of the downloads, and the text [print_summary] renders
    (the report is one event of the trace).  Writing to the log and to
    standard output is taken to succeed: a fault of [print] (a closed or
    full standard output) is not modelled, and the faults the theorems
    speak of are those of the collaborators, the operations of the
    [Backend].
    Exceptions are the subclasses of [Exception]; interrupts are not
    modelled, so a bare [except:] and [except Exception:] catch the same
    faults here. *)

From Stdlib Require Import String Ascii List ZArith Bool Lia Permutation.
Import ListNotations.
Open Scope string_scope.
Open Scope Z_scope.

Set Implicit Arguments.

(* ------------------------------------------------------------------ *)
(** ** Python values used by the program *)

(** The exception classes the program's [except] clauses tell apart.  All of
    them are subclasses of [Exception]. *)
Inductive exn : Type :=
| FileNotFoundError
| ClientError (code : string)
| NoCredentialsError
| AttributeError
| KeyError
| TypeError
| CsvError
| UnicodeDecodeError
| OtherException (what : string).

Inductive res (A : Type) : Type :=
| Ok (a : A)
| Raise (e : exn).
Arguments Ok {A} a.
Arguments Raise {A} e.

(** Truthiness of a [str] and of an [Optional[str]]. *)
Definition truthy (s : string) : bool :=
  match s with EmptyString => false | String _ _ => true end.

Definition truthy_opt (o : option string) : bool :=
  match o with None => false | Some s => truthy s end.

Definition is_some {A : Type} (o : option A) : bool :=
  match o with None => false | Some _ => true end.

(** [len(l) > 0] / truthiness of a list. *)
Definition nonempty {A : Type} (l : list A) : bool :=
  match l with [] => false | _ :: _ => true end.

(** *** String helpers: [str.strip], [str.rstrip('/')], ['.' in s],
    [os.path.join]

    A [string] is the UTF-8 encoding of a Python [str]: the CSV file is
    opened with [encoding='utf-8'], and a file that is not valid UTF-8
    makes the reader fail ([FaultDecode] below).  The helpers that look
    for ASCII characters only (['/'], ['.']) work byte by byte, which is
    sound on UTF-8 since no byte of a longer character is an ASCII byte. *)

Fixpoint drop_while (p : ascii -> bool) (l : list ascii) : list ascii :=
  match l with
  | [] => []
  | c :: l' => if p c then drop_while p l' else l
  end.

(** The characters for which [str.isspace] holds, which [str.strip()]
    removes, by the length of their UTF-8 encoding.

    One byte: TAB..CR (9-13), FS..US (28-31), SPACE (32). *)
Definition is_py_space (c : ascii) : bool :=
  let n := nat_of_ascii c in
  ((9 <=? n) && (n <=? 13) || (28 <=? n) && (n <=? 32))%nat.

(** Two bytes: U+0085 (C2 85) and U+00A0 (C2 A0). *)
Definition is_py_space2 (c1 c2 : ascii) : bool :=
  let a := nat_of_ascii c1 in
  let b := nat_of_ascii c2 in
  ((a =? 194) && ((b =? 133) || (b =? 160)))%nat.

(** Three bytes: U+1680 (E1 9A 80); U+2000..U+200A (E2 80 80..8A), U+2028,
    U+2029 (E2 80 A8, A9), U+202F (E2 80 AF); U+205F (E2 81 9F); U+3000
    (E3 80 80). *)
Definition is_py_space3 (c1 c2 c3 : ascii) : bool :=
  let a := nat_of_ascii c1 in
  let b := nat_of_ascii c2 in
  let c := nat_of_ascii c3 in
  ((a =? 225) && (b =? 154) && (c =? 128)
   || (a =? 226) && (b =? 128)
      && ((128 <=? c) && (c <=? 138) || (c =? 168) || (c =? 169)
          || (c =? 175))
   || (a =? 226) && (b =? 129) && (c =? 159)
   || (a =? 227) && (b =? 128) && (c =? 128))%nat.

(** Drop the characters at the front of a list of bytes that [p1], [p2] or
    [p3] recognises by their one, two or three bytes. *)
Fixpoint drop_chars (p1 : ascii -> bool) (p2 : ascii -> ascii -> bool)
         (p3 : ascii -> ascii -> ascii -> bool) (l : list ascii)
  : list ascii :=
  match l with
  | [] => []
  | c1 :: l1 =>
      if p1 c1 then drop_chars p1 p2 p3 l1
      else
        match l1 with
        | [] => l
        | c2 :: l2 =>
            if p2 c1 c2 then drop_chars p1 p2 p3 l2
            else
              match l2 with
              | [] => l
              | c3 :: l3 =>
                  if p3 c1 c2 c3 then drop_chars p1 p2 p3 l3 else l
              end
        end
  end.

(** [s.lstrip()] *)
Definition lstrip (s : string) : string :=
  string_of_list_ascii
    (drop_chars is_py_space is_py_space2 is_py_space3
                (list_ascii_of_string s)).

(** [s.rstrip()]: the same on the reversed bytes, where the bytes of a
    character come last byte first. *)
Definition rstrip (s : string) : string :=
  string_of_list_ascii
    (rev (drop_chars is_py_space
                     (fun c1 c2 => is_py_space2 c2 c1)
                     (fun c1 c2 c3 => is_py_space3 c3 c2 c1)
                     (rev (list_ascii_of_string s)))).

(** [s.strip()] *)
Definition strip (s : string) : string := rstrip (lstrip s).

Definition rstrip_by (p : ascii -> bool) (s : string) : string :=
  string_of_list_ascii (rev (drop_while p (rev (list_ascii_of_string s)))).

Definition is_slash (c : ascii) : bool := Ascii.eqb c "/"%char.

Definition rstrip_slash (s : string) : string := rstrip_by is_slash s.

Definition contains_dot (s : string) : bool :=
  existsb (fun c => Ascii.eqb c "."%char) (list_ascii_of_string s).

Definition ends_with_slash (s : string) : bool :=
  match rev (list_ascii_of_string s) with
  | c :: _ => is_slash c
  | [] => false
  end.

(** [os.path.join(a, b)] of [posixpath], for two components. *)
Definition os_path_join (a b : string) : string :=
  match b with
  | String c _ =>
      if is_slash c then b
      else if negb (truthy a) || ends_with_slash a then a ++ b
      else a ++ "/" ++ b
  | EmptyString =>
      if negb (truthy a) || ends_with_slash a then a else a ++ "/"
  end.

(** [stat.S_ISDIR(mode)]: [(mode & 0o170000) == 0o040000]. *)
Definition S_ISDIR (mode : Z) : bool := Z.land mode 61440 =? 16384.

Record stat_result : Type := { st_mode : Z; st_size : Z }.

(* ------------------------------------------------------------------ *)
(** ** The results dictionary of [process_files]

    A dict with six fixed keys, each holding a list of filenames in the
    order they were appended. *)

Inductive Bucket : Type :=
| success
| sftp_not_found
| sftp_download_failed
| s3_upload_failed
| sftp_delete_failed
| s3_already_exists.

Record Results : Type := {
  r_success : list string;
  r_sftp_not_found : list string;
  r_sftp_download_failed : list string;
  r_s3_upload_failed : list string;
  r_sftp_delete_failed : list string;
  r_s3_already_exists : list string
}.

Definition empty_results : Results :=
  {| r_success := []; r_sftp_not_found := []; r_sftp_download_failed := [];
     r_s3_upload_failed := []; r_sftp_delete_failed := [];
     r_s3_already_exists := [] |}.

(** [results[b]] *)
Definition bucket (b : Bucket) (r : Results) : list string :=
  match b with
  | success => r_success r
  | sftp_not_found => r_sftp_not_found r
  | sftp_download_failed => r_sftp_download_failed r
  | s3_upload_failed => r_s3_upload_failed r
  | sftp_delete_failed => r_sftp_delete_failed r
  | s3_already_exists => r_s3_already_exists r
  end.

(** [results[b].append(f)] *)
Definition append_to (b : Bucket) (f : string) (r : Results) : Results :=
  match b with
  | success =>
      {| r_success := r_success r ++ [f];
         r_sftp_not_found := r_sftp_not_found r;
         r_sftp_download_failed := r_sftp_download_failed r;
         r_s3_upload_failed := r_s3_upload_failed r;
         r_sftp_delete_failed := r_sftp_delete_failed r;
         r_s3_already_exists := r_s3_already_exists r |}
  | sftp_not_found =>
      {| r_success := r_success r;
         r_sftp_not_found := r_sftp_not_found r ++ [f];
         r_sftp_download_failed := r_sftp_download_failed r;
         r_s3_upload_failed := r_s3_upload_failed r;
         r_sftp_delete_failed := r_sftp_delete_failed r;
         r_s3_already_exists := r_s3_already_exists r |}
  | sftp_download_failed =>
      {| r_success := r_success r;
         r_sftp_not_found := r_sftp_not_found r;
         r_sftp_download_failed := r_sftp_download_failed r ++ [f];
         r_s3_upload_failed := r_s3_upload_failed r;
         r_sftp_delete_failed := r_sftp_delete_failed r;
         r_s3_already_exists := r_s3_already_exists r |}
  | s3_upload_failed =>
      {| r_success := r_success r;
         r_sftp_not_found := r_sftp_not_found r;
         r_sftp_download_failed := r_sftp_download_failed r;
         r_s3_upload_failed := r_s3_upload_failed r ++ [f];
         r_sftp_delete_failed := r_sftp_delete_failed r;
         r_s3_already_exists := r_s3_already_exists r |}
  | sftp_delete_failed =>
      {| r_success := r_success r;
         r_sftp_not_found := r_sftp_not_found r;
         r_sftp_download_failed := r_sftp_download_failed r;
         r_s3_upload_failed := r_s3_upload_failed r;
         r_sftp_delete_failed := r_sftp_delete_failed r ++ [f];
         r_s3_already_exists := r_s3_already_exists r |}
  | s3_already_exists =>
      {| r_success := r_success r;
         r_sftp_not_found := r_sftp_not_found r;
         r_sftp_download_failed := r_sftp_download_failed r;
         r_s3_upload_failed := r_s3_upload_failed r;
         r_sftp_delete_failed := r_sftp_delete_failed r;
         r_s3_already_exists := r_s3_already_exists r ++ [f] |}
  end.

(** The five primary outcome buckets, concatenated; [sftp_delete_failed] is
    the advisory side channel and is not among them. *)
Definition primary (r : Results) : list string :=
  r_success r ++ r_sftp_not_found r ++ r_sftp_download_failed r
  ++ r_s3_upload_failed r ++ r_s3_already_exists r.

(* ------------------------------------------------------------------ *)
(** ** The CSV file as [csv.DictReader] presents it *)

(** A row is a dict from field name to value; a short row holds [None]
    (the reader's [restval]) under the missing fields. *)
Definition csv_row : Type := list (string * option string).

Fixpoint row_get (row : csv_row) (key : string) : option (option string) :=
  match row with
  | [] => None
  | (k, v) :: row' => if String.eqb k key then Some v else row_get row' key
  end.

(** What reading can raise once the file is open. *)
Inductive read_fault : Type := FaultCsv | FaultDecode.

Definition fault_exn (f : read_fault) : exn :=
  match f with FaultCsv => CsvError | FaultDecode => UnicodeDecodeError end.

(** [fieldnames] is [None] for an empty file; reading the header or a row may
    fail. *)
Record csv_reader : Type := {
  fieldnames : read_fault + option (list string);
  rows : list (read_fault + csv_row)
}.

(* ------------------------------------------------------------------ *)
(** ** Observable calls *)

Inductive Event : Type :=
| EvSshConnect (host : string) (port : Z)
| EvOpenSftp
| EvSftpClose
| EvSshClose
| EvChdir (path : string)
| EvStat (name : string)
| EvGet (remote local_ : string)
| EvRemove (name : string)
| EvListdir
| EvBotoClient (region : option string)
| EvHeadBucket (bucket_name : string)
| EvHeadObject (bucket_name key : string)
| EvUpload (local_ bucket_name key : string)
| EvOpenCsv (path : string)
| EvOsRemove (path : string)
| EvMkdtemp (prefix : string)
| EvRmtree (path : string)
| EvMkdir (path : string)
| EvPrintSummary (r : Results) (use_s3 : bool).

(* ------------------------------------------------------------------ *)
(** ** The outside world *)

Record Backend (W : Type) : Type := {
  (* paramiko *)
  ssh_connect : string -> Z -> string -> string -> W -> W * res unit;
  ssh_open_sftp : W -> W * res unit;
  sftp_close : W -> W * res unit;
  ssh_close : W -> W * res unit;
  sftp_chdir : string -> W -> W * res unit;
  sftp_stat : string -> W -> W * res stat_result;
  sftp_get : string -> string -> W -> W * res unit;
  sftp_remove : string -> W -> W * res unit;
  sftp_listdir : W -> W * res (list string);
  (* boto3 *)
  boto3_client : option string -> W -> W * res unit;
  s3_head_bucket : string -> W -> W * res unit;
  s3_head_object : string -> string -> W -> W * res unit;
  s3_upload_file : string -> string -> string -> W -> W * res unit;
  (* local file system *)
  open_csv : string -> W -> W * res csv_reader;
  os_remove : string -> W -> W * res unit;
  tempfile_mkdtemp : string -> W -> W * res string;
  shutil_rmtree : string -> W -> W * res unit;
  path_mkdir : string -> W -> W * res unit;
  (* pathlib: [str(Path(a) / b)] and [str((Path(a) / b).parent)] *)
  pathlib_join : string -> string -> string;
  pathlib_parent : string -> string
}.

(** The [SFTPManager] instance of the run.  [m_ssh] and [m_sftp] say whether
    [self.ssh] and [self.sftp] hold a client (as opposed to [None]). *)
Record SFTPManager : Type := {
  m_host : string;
  m_username : string;
  m_password : string;
  m_port : Z;
  m_ssh : bool;
  m_sftp : bool
}.

Record S3Manager : Type := {
  bucket_name : string;
  aws_region : option string
}.

(** Program state: the world, the [SFTPManager] object, and the [results]
    dict that [process_files] allocates and mutates. *)
Record State (W : Type) : Type := {
  world : W;
  manager : SFTPManager;
  results : Results
}.

Definition with_world {W : Type} (w : W) (st : State W) : State W :=
  {| world := w; manager := manager st; results := results st |}.

Definition with_manager {W : Type} (m : SFTPManager) (st : State W)
  : State W :=
  {| world := world st; manager := m; results := results st |}.

Definition with_results {W : Type} (r : Results) (st : State W) : State W :=
  {| world := world st; manager := manager st; results := r |}.

Record Out (W A : Type) : Type := {
  final : State W;
  events : list Event;
  result : res A
}.

Definition M (W A : Type) : Type := State W -> Out W A.

(* ------------------------------------------------------------------ *)
(** ** The monad: state, exceptions, and the trace of calls *)

Section Monad.
Context {W : Type}.

Definition ret {A} (a : A) : M W A :=
  fun st => {| final := st; events := []; result := Ok a |}.

Definition raise {A} (e : exn) : M W A :=
  fun st => {| final := st; events := []; result := Raise e |}.

Definition bind {A B} (m : M W A) (k : A -> M W B) : M W B :=
  fun st =>
    let o := m st in
    match result o with
    | Ok a =>
        let o' := k a (final o) in
        {| final := final o'; events := events o ++ events o';
           result := result o' |}
    | Raise e =>
        {| final := final o; events := events o; result := Raise e |}
    end.

(** [try: m  except <classes matched by h>: handler].  [h e = None] means
    that no clause matches [e], which then propagates. *)
Definition try_except {A} (m : M W A) (h : exn -> option (M W A)) : M W A :=
  fun st =>
    let o := m st in
    match result o with
    | Ok _ => o
    | Raise e =>
        match h e with
        | Some k =>
            let o' := k (final o) in
            {| final := final o'; events := events o ++ events o';
               result := result o' |}
        | None => o
        end
    end.

(** [try: m  finally: fin].  The outcome of [m] stands unless [fin] itself
    raises. *)
Definition try_finally {A} (m : M W A) (fin : M W unit) : M W A :=
  fun st =>
    let o := m st in
    let o' := fin (final o) in
    {| final := final o'; events := events o ++ events o';
       result := match result o' with
                 | Ok _ => result o
                 | Raise e => Raise e
                 end |}.

(** A call into the backend, recorded in the trace. *)
Definition call {A} (ev : Event) (op : W -> W * res A) : M W A :=
  fun st =>
    let (w, r) := op (world st) in
    {| final := with_world w st; events := [ev]; result := r |}.

Definition get_manager : M W SFTPManager :=
  fun st => {| final := st; events := []; result := Ok (manager st) |}.

Definition set_manager (m : SFTPManager) : M W unit :=
  fun st => {| final := with_manager m st; events := [];
               result := Ok tt |}.

Definition get_results : M W Results :=
  fun st => {| final := st; events := []; result := Ok (results st) |}.

Definition set_results (r : Results) : M W unit :=
  fun st => {| final := with_results r st; events := [];
               result := Ok tt |}.

(** [results[b].append(f)] on the dict held in the state. *)
Definition append_result (b : Bucket) (f : string) : M W unit :=
  fun st => {| final := with_results (append_to b f (results st)) st;
               events := []; result := Ok tt |}.

(** [for x in l: body(x)], where [continue] is the end of [body]. *)
Fixpoint for_each {A} (l : list A) (body : A -> M W unit) : M W unit :=
  match l with
  | [] => ret tt
  | x :: l' => bind (body x) (fun _ => for_each l' body)
  end.
End Monad.

Declare Scope monad_scope.
Delimit Scope monad_scope with monad.
Notation "x <- c1 ;; c2" := (bind c1 (fun x => c2))
  (at level 61, c1 at next level, right associativity) : monad_scope.
Notation "c1 ;; c2" := (bind c1 (fun _ => c2))
  (at level 61, right associativity) : monad_scope.
Open Scope monad_scope.

(** The [except] clauses of the program. *)
Definition except_Exception {W A} (k : exn -> M W A) : exn -> option (M W A) :=
  fun e => Some (k e).

(** Bare [except:] *)
Definition except_all {W A} (k : M W A) : exn -> option (M W A) :=
  fun _ => Some k.

(* ------------------------------------------------------------------ *)
(** ** The program *)

Section Program.
Context {W : Type} (B : Backend W).

(** [self.sftp.<op>]: an [AttributeError] when [self.sftp] is [None]. *)
Definition with_sftp {A} (op : M W A) : M W A :=
  m <- get_manager ;;
  if m_sftp m then op else raise AttributeError.

(** *** class SFTPManager *)

Definition SFTPManager_new (host username password : string) (port : Z)
  : M W unit :=
  set_manager {| m_host := host; m_username := username;
                 m_password := password; m_port := port;
                 m_ssh := false; m_sftp := false |}.

Definition set_ssh : M W unit :=
  m <- get_manager ;;
  set_manager {| m_host := m_host m; m_username := m_username m;
                 m_password := m_password m; m_port := m_port m;
                 m_ssh := true; m_sftp := m_sftp m |}.

Definition set_sftp : M W unit :=
  m <- get_manager ;;
  set_manager {| m_host := m_host m; m_username := m_username m;
                 m_password := m_password m; m_port := m_port m;
                 m_ssh := m_ssh m; m_sftp := true |}.

Definition connect : M W bool :=
  try_except
    (m <- get_manager ;;
     set_ssh ;;
     call (EvSshConnect (m_host m) (m_port m))
          (ssh_connect B (m_host m) (m_port m) (m_username m)
                       (m_password m)) ;;
     call EvOpenSftp (ssh_open_sftp B) ;;
     set_sftp ;;
     ret true)
    (except_Exception (fun _ => ret false)).

Definition disconnect : M W unit :=
  m <- get_manager ;;
  (if m_sftp m
   then try_except (call EvSftpClose (sftp_close B)) (except_all (ret tt))
   else ret tt) ;;
  (if m_ssh m
   then try_except (call EvSshClose (ssh_close B)) (except_all (ret tt))
   else ret tt).

Definition change_directory (remote_path : string) : M W bool :=
  try_except
    (with_sftp (call (EvChdir remote_path) (sftp_chdir B remote_path)) ;;
     ret true)
    (except_Exception (fun _ => ret false)).

Definition SFTP_file_exists (filename : string) : M W bool :=
  try_except
    (with_sftp (call (EvStat filename) (sftp_stat B filename)) ;;
     ret true)
    (fun e =>
       match e with
       | FileNotFoundError => Some (ret false)
       | _ => Some (ret false)
       end).

(** The size lookup both download methods make before the transfer; its
    result only feeds the progress display. *)
Definition stat_file_size (remote_filename : string) : M W Z :=
  try_except
    (s <- with_sftp (call (EvStat remote_filename)
                          (sftp_stat B remote_filename)) ;;
     ret (st_size s))
    (except_all (ret 0)).

(** Lines 92-123.  The two [print()] calls (after the transfer and in the
    handler) are taken to succeed and are left out. *)
Definition download_file_to_local (remote_filename local_path : string)
  : M W (option string) :=
  try_except
    (let local_filepath := pathlib_join B local_path remote_filename in
     call (EvMkdir (pathlib_parent B local_filepath))
          (path_mkdir B (pathlib_parent B local_filepath)) ;;
     stat_file_size remote_filename ;;
     with_sftp (call (EvGet remote_filename local_filepath)
                     (sftp_get B remote_filename local_filepath)) ;;
     ret (Some local_filepath))
    (except_Exception (fun _ => ret None)).

(** Lines 125-153, with the same reading of its [print()] calls. *)
Definition download_file_to_temp (remote_filename temp_dir : string)
  : M W (option string) :=
  try_except
    (let temp_filepath := os_path_join temp_dir remote_filename in
     stat_file_size remote_filename ;;
     with_sftp (call (EvGet remote_filename temp_filepath)
                     (sftp_get B remote_filename temp_filepath)) ;;
     ret (Some temp_filepath))
    (except_Exception (fun _ => ret None)).

Definition delete_file (filename : string) : M W bool :=
  try_except
    (with_sftp (call (EvRemove filename) (sftp_remove B filename)) ;;
     ret true)
    (except_Exception (fun _ => ret false)).

(** The loop of [list_files]: keep the entries that are not directories;
    when an entry cannot be examined, keep it if its name has a dot. *)
Fixpoint list_files_loop (file_list files : list string)
  : M W (list string) :=
  match file_list with
  | [] => ret files
  | item :: rest =>
      keep <- try_except
                (s <- with_sftp (call (EvStat item) (sftp_stat B item)) ;;
                 ret (negb (S_ISDIR (st_mode s))))
                (except_all (ret (contains_dot item))) ;;
      list_files_loop rest (if keep then files ++ [item] else files)
  end.

Definition list_files : M W (list string) :=
  try_except
    (file_list <- with_sftp (call EvListdir (sftp_listdir B)) ;;
     list_files_loop file_list [])
    (except_Exception (fun _ => ret [])).

(** *** class S3Manager *)

(** Every exception of the constructor is re-raised. *)
Definition S3Manager_new (bucket : string) (region : option string)
  : M W S3Manager :=
  call (EvBotoClient (if truthy_opt region then region else None))
       (boto3_client B (if truthy_opt region then region else None)) ;;
  call (EvHeadBucket bucket) (s3_head_bucket B bucket) ;;
  ret {| bucket_name := bucket; aws_region := region |}.

Definition upload_file (self : S3Manager) (local_file_path s3_key : string)
  : M W bool :=
  try_except
    (call (EvUpload local_file_path (bucket_name self) s3_key)
          (s3_upload_file B local_file_path (bucket_name self) s3_key) ;;
     ret true)
    (except_Exception (fun _ => ret false)).

(** Only [ClientError] is handled here. *)
Definition S3_file_exists (self : S3Manager) (s3_key : string) : M W bool :=
  try_except
    (call (EvHeadObject (bucket_name self) s3_key)
          (s3_head_object B (bucket_name self) s3_key) ;;
     ret true)
    (fun e =>
       match e with
       | ClientError code =>
           Some (if String.eqb code "404" then ret false else ret false)
       | _ => None
       end).
End Program.

Section Orchestrator.
Context {W : Type} (B : Backend W).

Definition emit (ev : Event) : M W unit :=
  fun st => {| final := st; events := [ev]; result := Ok tt |}.

(** *** read_csv_filenames *)

(** The [for row in reader] loop: [row[filename_column].strip()], kept when
    non-empty. *)
Fixpoint read_rows (rs : list (read_fault + csv_row))
         (filename_column : string) (filenames : list string)
  : M W (list string) :=
  match rs with
  | [] => ret filenames
  | inl f :: _ => raise (fault_exn f)
  | inr row :: rest =>
      match row_get row filename_column with
      | None => raise KeyError
      | Some None => raise AttributeError
      | Some (Some v) =>
          let filename := strip v in
          read_rows rest filename_column
                    (if truthy filename then filenames ++ [filename]
                     else filenames)
      end
  end.

Definition read_csv_filenames (csv_path filename_column : string)
  : M W (option (list string)) :=
  try_except
    (reader <- call (EvOpenCsv csv_path) (open_csv B csv_path) ;;
     match fieldnames reader with
     | inl f => raise (fault_exn f)
     | inr None => raise TypeError
     | inr (Some names) =>
         if negb (existsb (String.eqb filename_column) names)
         then ret (Some [])
         else filenames <- read_rows (rows reader) filename_column [] ;;
              ret (Some filenames)
     end)
    (fun e =>
       match e with
       | FileNotFoundError => Some (ret None)
       | _ => Some (ret (Some []))
       end).

(** *** process_files *)

Definition s3_key_of (s3_prefix filename : string) : string :=
  if truthy s3_prefix then rstrip_slash s3_prefix ++ "/" ++ filename
  else filename.

(** Lines 361-369: optional deletion at the source, then [success]. *)
Definition delete_and_mark (delete_from_sftp : bool) (filename : string)
  : M W unit :=
  (if delete_from_sftp
   then sftp_delete_success <- delete_file B filename ;;
        if negb sftp_delete_success
        then append_result sftp_delete_failed filename
        else ret tt
   else ret tt) ;;
  append_result success filename.

(** Lines 339-356: the upload, the removal of the staged file, and the
    handler around both; the value is [upload_success]. *)
Definition upload_step (s3 : S3Manager) (file_path s3_key filename : string)
  : M W bool :=
  try_except
    (uploaded <- upload_file B s3 file_path s3_key ;;
     (if uploaded then ret tt
      else append_result s3_upload_failed filename) ;;
     try_except (call (EvOsRemove file_path) (os_remove B file_path))
                (except_all (ret tt)) ;;
     ret uploaded)
    (except_Exception
       (fun _ => append_result s3_upload_failed filename ;; ret false)).

(** Lines 317-325: the S3 pre-check; its value says whether the file is
    skipped.  [overwrite_s3] short-circuits the existence check. *)
Definition s3_precheck (s3_manager : option S3Manager) (overwrite_s3 : bool)
           (s3_key : string) : M W bool :=
  match s3_manager with
  | Some s3 =>
      if negb overwrite_s3 then S3_file_exists B s3 s3_key else ret false
  | None => ret false
  end.

(** Lines 327-331: the download into the staging or the local directory. *)
Definition fetch (s3_manager : option S3Manager)
           (filename download_dir : string) : M W (option string) :=
  match s3_manager with
  | Some _ => download_file_to_temp B filename download_dir
  | None => download_file_to_local B filename download_dir
  end.

(** One iteration of the [for filename in filenames] loop. *)
Definition process_one (s3_manager : option S3Manager)
           (download_dir s3_prefix : string)
           (delete_from_sftp overwrite_s3 : bool) (filename : string)
  : M W unit :=
  found <- SFTP_file_exists B filename ;;
  if negb found then append_result sftp_not_found filename
  else
    let s3_key := s3_key_of s3_prefix filename in
    already <- s3_precheck s3_manager overwrite_s3 s3_key ;;
    if already then append_result s3_already_exists filename
    else
      file_path <- fetch s3_manager filename download_dir ;;
      if negb (truthy_opt file_path)
      then append_result sftp_download_failed filename
      else
        let path := match file_path with Some p => p | None => EmptyString end in
        match s3_manager with
        | Some s3 =>
            upload_success <- upload_step s3 path s3_key filename ;;
            if negb upload_success then ret tt
            else delete_and_mark delete_from_sftp filename
        | None => delete_and_mark delete_from_sftp filename
        end.

(** The [finally] block: remove the temporary directory if one was made. *)
Definition cleanup (use_s3 : bool) (download_dir : string) : M W unit :=
  if use_s3
  then try_except (call (EvRmtree download_dir)
                        (shutil_rmtree B download_dir))
                  (except_all (ret tt))
  else ret tt.

Definition process_files (s3_manager : option S3Manager)
           (filenames : list string)
           (remote_sftp_path local_download_path s3_prefix : string)
           (delete_from_sftp overwrite_s3 : bool) : M W Results :=
  set_results empty_results ;;
  selected <- change_directory B remote_sftp_path ;;
  if negb selected then get_results
  else
    let use_s3 := is_some s3_manager in
    download_dir <- (if use_s3
                     then call (EvMkdtemp "ftp_download_")
                               (tempfile_mkdtemp B "ftp_download_")
                     else ret local_download_path) ;;
    (if negb use_s3
     then call (EvMkdir local_download_path)
               (path_mkdir B local_download_path)
     else ret tt) ;;
    try_finally
      (for_each filenames
                (process_one s3_manager download_dir s3_prefix
                             delete_from_sftp overwrite_s3))
      (cleanup use_s3 download_dir) ;;
    get_results.

(** *** print_summary and the exit code *)

(** The report is one event, and printing it is taken to succeed. *)
Definition print_summary (r : Results) (use_s3 : bool) : M W unit :=
  emit (EvPrintSummary r use_s3).

Definition len (l : list string) : Z := Z.of_nat (length l).

(** Lines 520-524 *)
Definition total_failures (use_s3 : bool) (r : Results) : Z :=
  if use_s3
  then len (r_sftp_download_failed r) + len (r_s3_upload_failed r)
  else len (r_sftp_download_failed r).

(** Lines 526-531 *)
Definition exit_status (use_s3 : bool) (r : Results) : Z :=
  if total_failures use_s3 r >? 0 then 1 else 0.

(** *** main *)

Record Args : Type := {
  a_csv_file : string;
  a_sftp_host : string;
  a_sftp_user : string;
  a_sftp_password : string;
  a_s3_bucket : option string;
  a_s3_prefix : string;
  a_aws_region : option string;
  a_overwrite_s3 : bool;
  a_sftp_port : Z;
  a_remote_path : string;
  a_local_path : string;
  a_filename_column : string;
  a_no_delete : bool
}.

(** Lines 491-502: with no CSV file, every file of the remote directory is
    taken.  [inl code] is an early [return code]. *)
Definition resolve_filenames (args : Args) (get_all_files : bool)
           (filenames : list string) : M W (Z + list string) :=
  if get_all_files
  then selected <- change_directory B (a_remote_path args) ;;
       if negb selected then ret (inl 1)
       else listed <- list_files B ;;
            if negb (nonempty listed) then ret (inl 0)
            else ret (inr listed)
  else ret (inr filenames).

(** Lines 486-531, the body of the [try] of [main]. *)
Definition run (args : Args) (use_s3 get_all_files : bool)
           (s3_manager : option S3Manager) (filenames : list string)
  : M W Z :=
  connected <- connect B ;;
  if negb connected then ret 1
  else
    resolved <- resolve_filenames args get_all_files filenames ;;
    match resolved with
    | inl code => ret code
    | inr filenames =>
        r <- process_files s3_manager filenames (a_remote_path args)
                           (a_local_path args) (a_s3_prefix args)
                           (negb (a_no_delete args))
                           (a_overwrite_s3 args) ;;
        print_summary r use_s3 ;;
        ret (exit_status use_s3 r)
    end.

(** Lines 477-484: the S3 manager, when a bucket is given.  [inl 1] is the
    [return 1] of the handler. *)
Definition init_s3 (args : Args) (use_s3 : bool)
  : M W (Z + option S3Manager) :=
  if use_s3
  then try_except
         (s3 <- S3Manager_new B
                  (match a_s3_bucket args with
                   | Some b => b | None => EmptyString end)
                  (a_aws_region args) ;;
          ret (inr (Some s3)))
         (except_Exception (fun _ => ret (inl 1)))
  else ret (inr None).

Definition main (args : Args) : M W Z :=
  let use_s3 := truthy_opt (a_s3_bucket args) in
  filenames <- read_csv_filenames (a_csv_file args)
                                  (a_filename_column args) ;;
  match filenames with
  | Some [] => ret 1
  | _ =>
      let get_all_files := negb (is_some filenames) in
      let filenames := match filenames with Some l => l | None => [] end in
      SFTPManager_new (a_sftp_host args) (a_sftp_user args)
                      (a_sftp_password args) (a_sftp_port args) ;;
      init <- init_s3 args use_s3 ;;
      match init with
      | inl code => ret code
      | inr s3_manager =>
          try_finally (run args use_s3 get_all_files s3_manager filenames)
                      (disconnect B)
      end
  end.
End Orchestrator.

(* ------------------------------------------------------------------ *)
(** ** A scripted backend

    A stateless world whose every operation answers from a fixed table; used
    to run the program on concrete inputs. *)

Module Script.
Record Scenario : Type := {
  sc_connect : res unit;
  sc_chdir : string -> res unit;
  sc_stat : string -> res stat_result;
  sc_get : string -> res unit;
  sc_remove : string -> res unit;
  sc_listdir : res (list string);
  sc_head_bucket : string -> res unit;
  sc_head_object : string -> res unit;
  sc_upload : string -> res unit;
  sc_open_csv : string -> res csv_reader;
  sc_mkdtemp : res string;
  sc_mkdir : string -> res unit
}.

(** The part of a path before its last slash. *)
Definition dirname (p : string) : string :=
  rstrip_slash (rstrip_by (fun c => negb (is_slash c)) p).

Definition answer {A} (r : res A) : unit -> unit * res A :=
  fun w => (w, r).

Definition backend (sc : Scenario) : Backend unit :=
  {| ssh_connect := fun _ _ _ _ => answer (sc_connect sc);
     ssh_open_sftp := answer (Ok tt);
     sftp_close := answer (Ok tt);
     ssh_close := answer (Ok tt);
     sftp_chdir := fun p => answer (sc_chdir sc p);
     sftp_stat := fun f => answer (sc_stat sc f);
     sftp_get := fun f _ => answer (sc_get sc f);
     sftp_remove := fun f => answer (sc_remove sc f);
     sftp_listdir := answer (sc_listdir sc);
     boto3_client := fun _ => answer (Ok tt);
     s3_head_bucket := fun b => answer (sc_head_bucket sc b);
     s3_head_object := fun _ k => answer (sc_head_object sc k);
     s3_upload_file := fun _ _ k => answer (sc_upload sc k);
     open_csv := fun p => answer (sc_open_csv sc p);
     os_remove := fun _ => answer (Ok tt);
     tempfile_mkdtemp := fun _ => answer (sc_mkdtemp sc);
     shutil_rmtree := fun _ => answer (Ok tt);
     path_mkdir := fun p => answer (sc_mkdir sc p);
     pathlib_join := os_path_join;
     pathlib_parent := dirname |}.

Definition regular_file : stat_result :=
  {| st_mode := 33188; st_size := 10 |}.

(** Everything succeeds: every name is a regular file at the source,
    nothing exists at the destination, the CSV lists [a.csv] and [b.csv]. *)
Definition all_fine : Scenario :=
  {| sc_connect := Ok tt;
     sc_chdir := fun _ => Ok tt;
     sc_stat := fun _ => Ok regular_file;
     sc_get := fun _ => Ok tt;
     sc_remove := fun _ => Ok tt;
     sc_listdir := Ok ["a.csv"; "b.csv"];
     sc_head_bucket := fun _ => Ok tt;
     sc_head_object := fun _ => Raise (ClientError "404");
     sc_upload := fun _ => Ok tt;
     sc_open_csv := fun _ =>
       Ok {| fieldnames := inr (Some ["filename"]);
             rows := [inr [("filename", Some "a.csv")];
                      inr [("filename", Some "b.csv")]] |};
     sc_mkdtemp := Ok "/tmp/ftp_download_x";
     sc_mkdir := fun _ => Ok tt |}.

(** A connected manager. *)
Definition connected : SFTPManager :=
  {| m_host := "host"; m_username := "user"; m_password := "secret";
     m_port := 22; m_ssh := true; m_sftp := true |}.

Definition start : State unit :=
  {| world := tt; manager := connected; results := empty_results |}.

Definition the_bucket : S3Manager :=
  {| bucket_name := "bucket"; aws_region := None |}.

Definition args_local : Args :=
  {| a_csv_file := "files.csv"; a_sftp_host := "host";
     a_sftp_user := "user"; a_sftp_password := "secret";
     a_s3_bucket := None; a_s3_prefix := EmptyString; a_aws_region := None;
     a_overwrite_s3 := false; a_sftp_port := 22; a_remote_path := "/out";
     a_local_path := "./downloads"; a_filename_column := "filename";
     a_no_delete := false |}.

Definition args_s3 : Args :=
  {| a_csv_file := "files.csv"; a_sftp_host := "host";
     a_sftp_user := "user"; a_sftp_password := "secret";
     a_s3_bucket := Some "bucket"; a_s3_prefix := "in/";
     a_aws_region := None;
     a_overwrite_s3 := false; a_sftp_port := 22; a_remote_path := "/out";
     a_local_path := "./downloads"; a_filename_column := "filename";
     a_no_delete := false |}.

(** One file for each outcome: [a.csv] goes through; [missing.csv] is not
    at the source; [dup.csv] is already at the destination; the download
    of [bad.csv] fails; the upload of [up.csv] fails; [keep.csv] cannot be
    deleted at the source. *)
Definition six_files : list string :=
  ["a.csv"; "missing.csv"; "dup.csv"; "bad.csv"; "up.csv"; "keep.csv"].

Definition mixed : Scenario :=
  {| sc_connect := Ok tt;
     sc_chdir := fun _ => Ok tt;
     sc_stat := fun f =>
       if String.eqb f "missing.csv" then Raise FileNotFoundError
       else Ok regular_file;
     sc_get := fun f =>
       if String.eqb f "bad.csv" then Raise (OtherException "IOError")
       else Ok tt;
     sc_remove := fun f =>
       if String.eqb f "keep.csv"
       then Raise (OtherException "PermissionError") else Ok tt;
     sc_listdir := Ok six_files;
     sc_head_bucket := fun _ => Ok tt;
     sc_head_object := fun k =>
       if String.eqb k "in/dup.csv" then Ok tt
       else Raise (ClientError "404");
     sc_upload := fun k =>
       if String.eqb k "in/up.csv"
       then Raise (OtherException "S3UploadFailedError") else Ok tt;
     sc_open_csv := fun _ =>
       Ok {| fieldnames := inr (Some ["filename"]);
             rows := map (fun f => inr [("filename", Some f)]) six_files |};
     sc_mkdtemp := Ok "/tmp/ftp_download_x";
     sc_mkdir := fun _ => Ok tt |}.

(** The destination cannot be reached when [b.csv] is looked up:
    [head_object] raises an error that is not a [ClientError]. *)
Definition unreachable : Scenario :=
  {| sc_connect := Ok tt;
     sc_chdir := fun _ => Ok tt;
     sc_stat := fun _ => Ok regular_file;
     sc_get := fun _ => Ok tt;
     sc_remove := fun _ => Ok tt;
     sc_listdir := Ok ["a.csv"; "b.csv"; "c.csv"];
     sc_head_bucket := fun _ => Ok tt;
     sc_head_object := fun k =>
       if String.eqb k "in/b.csv"
       then Raise (OtherException "EndpointConnectionError")
       else Raise (ClientError "404");
     sc_upload := fun _ => Ok tt;
     sc_open_csv := fun _ =>
       Ok {| fieldnames := inr (Some ["filename"]);
             rows := [inr [("filename", Some "a.csv")];
                      inr [("filename", Some "b.csv")];
                      inr [("filename", Some "c.csv")]] |};
     sc_mkdtemp := Ok "/tmp/ftp_download_x";
     sc_mkdir := fun _ => Ok tt |}.

(** The remote directory cannot be entered; the CSV file is present or
    not according to [csv_present]. *)
Definition no_directory (csv_present : bool) : Scenario :=
  {| sc_connect := Ok tt;
     sc_chdir := fun _ => Raise (OtherException "IOError");
     sc_stat := fun _ => Ok regular_file;
     sc_get := fun _ => Ok tt;
     sc_remove := fun _ => Ok tt;
     sc_listdir := Ok ["a.csv"];
     sc_head_bucket := fun _ => Ok tt;
     sc_head_object := fun _ => Raise (ClientError "404");
     sc_upload := fun _ => Ok tt;
     sc_open_csv := fun _ =>
       if csv_present
       then Ok {| fieldnames := inr (Some ["filename"]);
                  rows := [inr [("filename", Some "a.csv")]] |}
       else Raise FileNotFoundError;
     sc_mkdtemp := Ok "/tmp/ftp_download_x";
     sc_mkdir := fun _ => Ok tt |}.

(** Text given by the bytes of its UTF-8 encoding. *)
Definition utf8 (bytes : list nat) : string :=
  string_of_list_ascii (map ascii_of_nat bytes).

Definition no_break_space : string := utf8 [194; 160]%nat.
Definition next_line : string := utf8 [194; 133]%nat.
Definition em_space : string := utf8 [226; 128; 131]%nat.
Definition ideographic_space : string := utf8 [227; 128; 128]%nat.
(** [a] with a grave accent, U+00E0: its second byte is the second byte of
    the no-break space. *)
Definition a_grave : string := utf8 [195; 160]%nat.

(** A CSV file whose names are padded with white space of one, two and
    three bytes; two of its rows hold white space only; one name ends with
    a letter that is not white space, though its last byte is that of the
    no-break space. *)
Definition spaced : Scenario :=
  {| sc_connect := Ok tt;
     sc_chdir := fun _ => Ok tt;
     sc_stat := fun _ => Ok regular_file;
     sc_get := fun _ => Ok tt;
     sc_remove := fun _ => Ok tt;
     sc_listdir := Ok ["a.csv"];
     sc_head_bucket := fun _ => Ok tt;
     sc_head_object := fun _ => Raise (ClientError "404");
     sc_upload := fun _ => Ok tt;
     sc_open_csv := fun _ =>
       Ok {| fieldnames := inr (Some ["filename"]);
             rows :=
               [inr [("filename",
                      Some (no_break_space ++ " a.csv" ++ em_space))];
                inr [("filename", Some no_break_space)];
                inr [("filename", Some ("b.csv " ++ next_line))];
                inr [("filename", Some (" " ++ ideographic_space))];
                inr [("filename",
                      Some (ideographic_space ++ "menu_" ++ a_grave))]] |};
     sc_mkdtemp := Ok "/tmp/ftp_download_x";
     sc_mkdir := fun _ => Ok tt |}.

(** What the mixed scenario should leave in the results dict. *)
Definition mixed_results : Results :=
  {| r_success := ["a.csv"; "keep.csv"];
     r_sftp_not_found := ["missing.csv"];
     r_sftp_download_failed := ["bad.csv"];
     r_s3_upload_failed := ["up.csv"];
     r_sftp_delete_failed := ["keep.csv"];
     r_s3_already_exists := ["dup.csv"] |}.
End Script.

(* ------------------------------------------------------------------ *)
(** ** Vocabulary of the properties *)

Section Vocabulary.
Context {W : Type}.

(** [o] preceded by the events [ev]. *)
Definition prefix {A} (ev : list Event) (o : Out W A) : Out W A :=
  {| final := final o; events := ev ++ events o; result := result o |}.

(** A computation that touches the world only: the manager object and the
    results dict come out as they went in. *)
Definition world_only {A} (m : M W A) : Prop :=
  forall st, manager (final (m st)) = manager st
             /\ results (final (m st)) = results st.

(** A computation that always returns: no exception leaves it. *)
Definition total {A} (m : M W A) : Prop :=
  forall st, exists a, result (m st) = Ok a.

(** A computation all of whose recorded calls satisfy [P]. *)
Definition emits {A} (P : Event -> Prop) (m : M W A) : Prop :=
  forall st, Forall P (events (m st)).
End Vocabulary.

(** Kinds of calls. *)
Definition is_fetch (e : Event) : bool :=
  match e with EvGet _ _ => true | _ => false end.

Definition is_upload (e : Event) : bool :=
  match e with EvUpload _ _ _ => true | _ => false end.

Definition is_delete (e : Event) : bool :=
  match e with EvRemove _ => true | _ => false end.

Definition is_transfer (e : Event) : bool :=
  is_fetch e || is_upload e || is_delete e.

Definition is_upload_or_delete (e : Event) : bool :=
  is_upload e || is_delete e.

Definition is_mkdtemp (e : Event) : bool :=
  match e with EvMkdtemp _ => true | _ => false end.

Definition is_rmtree (e : Event) : bool :=
  match e with EvRmtree _ => true | _ => false end.

Definition is_summary (e : Event) : bool :=
  match e with EvPrintSummary _ _ => true | _ => false end.

(** The calls one iteration of the loop can make. *)
Definition is_loop_call (e : Event) : bool :=
  match e with
  | EvStat _ | EvHeadObject _ _ | EvMkdir _ | EvGet _ _ | EvUpload _ _ _
  | EvOsRemove _ | EvRemove _ => true
  | _ => false
  end.

Definition count (p : Event -> bool) (l : list Event) : nat :=
  length (filter p l).

Definition no (p : Event -> bool) : Event -> Prop := fun e => p e = false.

(** What one iteration of the loop may do to the results dict for the file
    [f]: one append to a primary bucket, with [sftp_delete_failed] possibly
    written alongside [success]; the two S3 buckets only when a destination
    store is configured. *)
Definition recorded (use_s3 : bool) (f : string) (r r' : Results) : Prop :=
  r' = append_to success f r
  \/ r' = append_to success f (append_to sftp_delete_failed f r)
  \/ r' = append_to sftp_not_found f r
  \/ r' = append_to sftp_download_failed f r
  \/ (use_s3 = true
      /\ (r' = append_to s3_upload_failed f r
          \/ r' = append_to s3_already_exists f r)).

(** The values a readable CSV holds under [column], row by row; [None] when
    the header or a row cannot be read, when the column is not in the
    header, or when a row has no value under it. *)
Fixpoint column_values (rs : list (read_fault + csv_row)) (column : string)
  : option (list string) :=
  match rs with
  | [] => Some []
  | inl _ :: _ => None
  | inr row :: rest =>
      match row_get row column, column_values rest column with
      | Some (Some v), Some vs => Some (v :: vs)
      | _, _ => None
      end
  end.

Definition names_under (reader : csv_reader) (column : string)
  : option (list string) :=
  match fieldnames reader with
  | inr (Some names) =>
      if existsb (String.eqb column) names
      then column_values (rows reader) column
      else None
  | _ => None
  end.

Section Conditions.
Context {W : Type} (B : Backend W).

(** Whether [process_files] gets its remote directory: the outcome of the
    [change_directory] call it starts with. *)
Definition selected (remote_sftp_path : string) (st : State W) : bool :=
  match result (change_directory B remote_sftp_path
                                 (with_results empty_results st)) with
  | Ok true => true
  | _ => false
  end.

(** The temporary directory [tempfile.mkdtemp] hands out after the
    directory change, if it returns one. *)
Definition staging_dir (remote_sftp_path : string) (st : State W)
  : option string :=
  let st1 := final (change_directory B remote_sftp_path
                                     (with_results empty_results st)) in
  match snd (tempfile_mkdtemp B "ftp_download_" (world st1)) with
  | Ok d => Some d
  | Raise _ => None
  end.

(** Lines 337-359 as one step: the upload when a destination store is
    configured; nothing, with [upload_success] taken as true, otherwise. *)
Definition deliver (s3_manager : option S3Manager)
           (path s3_key filename : string) : M W bool :=
  match s3_manager with
  | Some s3 => upload_step B s3 path s3_key filename
  | None => ret true
  end.
End Conditions.

(* ------------------------------------------------------------------ *)
(** ** Vocabulary of the further properties *)

(** [list_files] keeps an entry that [stat] shows not to be a directory, or,
    when [stat] fails, whose name contains a dot. *)
Definition keeps_entry (stat_of : string -> res stat_result) (item : string)
  : bool :=
  match stat_of item with
  | Ok s => negb (S_ISDIR (st_mode s))
  | Raise _ => contains_dot item
  end.

(** A list of bytes that begins with a character [p1], [p2] or [p3]
    recognises. *)
Definition starts_with_char (p1 : ascii -> bool)
           (p2 : ascii -> ascii -> bool)
           (p3 : ascii -> ascii -> ascii -> bool) (l : list ascii) : bool :=
  match l with
  | [] => false
  | c1 :: l1 =>
      p1 c1
      || match l1 with
         | [] => false
         | c2 :: l2 =>
             p2 c1 c2
             || match l2 with
                | [] => false
                | c3 :: _ => p3 c1 c2 c3
                end
         end
  end.

Definition is_ok {A : Type} (r : res A) : bool :=
  match r with Ok _ => true | Raise _ => false end.

(** The terminal outcome of one filename.  [SuccessDeleteFailed] is
    [Success] together with the advisory record of a failed deletion. *)
Inductive Outcome : Type :=
| Success
| SuccessDeleteFailed
| NotFoundAtSource
| AlreadyAtDestination
| SourceFetchFailed
| DestinationWriteFailed.

(** What an outcome writes into the results dict. *)
Definition record (oc : Outcome) (f : string) (r : Results) : Results :=
  match oc with
  | Success => append_to success f r
  | SuccessDeleteFailed =>
      append_to success f (append_to sftp_delete_failed f r)
  | NotFoundAtSource => append_to sftp_not_found f r
  | AlreadyAtDestination => append_to s3_already_exists f r
  | SourceFetchFailed => append_to sftp_download_failed f r
  | DestinationWriteFailed => append_to s3_upload_failed f r
  end.

(** The outcomes a configuration allows. *)
Definition possible (use_s3 delete_from_sftp overwrite_s3 : bool)
           (oc : Outcome) : bool :=
  match oc with
  | SuccessDeleteFailed => delete_from_sftp
  | AlreadyAtDestination => use_s3 && negb overwrite_s3
  | DestinationWriteFailed => use_s3
  | _ => true
  end.

(** The calls an iteration with a given outcome can have made. *)
Definition may_call (oc : Outcome) (e : Event) : bool :=
  match oc with
  | NotFoundAtSource | AlreadyAtDestination => negb (is_transfer e)
  | SourceFetchFailed => negb (is_upload_or_delete e)
  | DestinationWriteFailed => negb (is_delete e)
  | Success | SuccessDeleteFailed => true
  end.

Definition is_head (e : Event) : bool :=
  match e with EvHeadObject _ _ => true | _ => false end.

(** Calls to the destination store and on the staging area. *)
Definition is_store_call (e : Event) : bool :=
  match e with
  | EvBotoClient _ | EvHeadBucket _ | EvHeadObject _ _ | EvUpload _ _ _
  | EvOsRemove _ | EvMkdtemp _ | EvRmtree _ => true
  | _ => false
  end.

(** [l1] is [l2] with some elements left out. *)
Inductive Subseq {A : Type} : list A -> list A -> Prop :=
| Subseq_nil : Subseq [] []
| Subseq_skip x l1 l2 : Subseq l1 l2 -> Subseq l1 (x :: l2)
| Subseq_take x l1 l2 : Subseq l1 l2 -> Subseq (x :: l1) (x :: l2).

(** The calls [process_files] makes around its loop. *)
Definition is_setup_call (e : Event) : bool :=
  match e with
  | EvChdir _ | EvMkdtemp _ | EvMkdir _ | EvRmtree _ => true
  | _ => false
  end.

(** A computation that leaves the manager object as it is. *)
Definition keeps_manager {W A : Type} (m : M W A) : Prop :=
  forall st, manager (final (m st)) = manager st.

(** Calls made through the SFTP channel [self.sftp]. *)
Definition is_sftp_op (e : Event) : bool :=
  match e with
  | EvChdir _ | EvStat _ | EvGet _ _ | EvRemove _ | EvListdir => true
  | _ => false
  end.

(** Calls to the SSH / SFTP server of any kind. *)
Definition is_sftp_call (e : Event) : bool :=
  match e with
  | EvSshConnect _ _ | EvOpenSftp | EvSftpClose | EvSshClose => true
  | _ => is_sftp_op e
  end.


(** Further scripted scenarios. *)
Module Cases.
Import Script.

Definition directory : stat_result :=
  {| st_mode := 16877; st_size := 4096 |}.

(** A manager that has not been connected. *)
Definition unconnected : State unit :=
  {| world := tt;
     manager := {| m_host := "host"; m_username := "user";
                   m_password := "secret"; m_port := 22;
                   m_ssh := false; m_sftp := false |};
     results := empty_results |}.

(** A remote directory with a file, a sub-directory, and two entries that
    cannot be examined, one with a dot in its name and one without. *)
Definition listing : Scenario :=
  {| sc_connect := Ok tt;
     sc_chdir := fun _ => Ok tt;
     sc_stat := fun f =>
       if String.eqb f "sub" then Ok directory
       else if String.eqb f "odd.bin" || String.eqb f "noext"
            then Raise (OtherException "PermissionError")
            else Ok regular_file;
     sc_get := fun _ => Ok tt;
     sc_remove := fun _ => Ok tt;
     sc_listdir := Ok ["a.csv"; "sub"; "odd.bin"; "noext"];
     sc_head_bucket := fun _ => Ok tt;
     sc_head_object := fun _ => Raise (ClientError "404");
     sc_upload := fun _ => Ok tt;
     sc_open_csv := fun _ => Raise FileNotFoundError;
     sc_mkdtemp := Ok "/tmp/ftp_download_x";
     sc_mkdir := fun _ => Ok tt |}.

(** [locked.csv] cannot be examined at the source; the destination answers
    every existence check with a 403. *)
Definition forbidden : Scenario :=
  {| sc_connect := Ok tt;
     sc_chdir := fun _ => Ok tt;
     sc_stat := fun f =>
       if String.eqb f "locked.csv"
       then Raise (OtherException "PermissionError")
       else Ok regular_file;
     sc_get := fun _ => Ok tt;
     sc_remove := fun _ => Ok tt;
     sc_listdir := Ok ["a.csv"; "locked.csv"];
     sc_head_bucket := fun _ => Ok tt;
     sc_head_object := fun _ => Raise (ClientError "403");
     sc_upload := fun _ => Ok tt;
     sc_open_csv := fun _ =>
       Ok {| fieldnames := inr (Some ["filename"]);
             rows := [inr [("filename", Some "a.csv")];
                      inr [("filename", Some "locked.csv")]] |};
     sc_mkdtemp := Ok "/tmp/ftp_download_x";
     sc_mkdir := fun _ => Ok tt |}.

(** The bucket does not exist. *)
Definition no_bucket : Scenario :=
  {| sc_connect := Ok tt;
     sc_chdir := fun _ => Ok tt;
     sc_stat := fun _ => Ok regular_file;
     sc_get := fun _ => Ok tt;
     sc_remove := fun _ => Ok tt;
     sc_listdir := Ok ["a.csv"];
     sc_head_bucket := fun _ => Raise (ClientError "404");
     sc_head_object := fun _ => Raise (ClientError "404");
     sc_upload := fun _ => Ok tt;
     sc_open_csv := fun _ =>
       Ok {| fieldnames := inr (Some ["filename"]);
             rows := [inr [("filename", Some "a.csv")]] |};
     sc_mkdtemp := Ok "/tmp/ftp_download_x";
     sc_mkdir := fun _ => Ok tt |}.

(** The SFTP server does not answer. *)
Definition offline : Scenario :=
  {| sc_connect := Raise (OtherException "timeout");
     sc_chdir := fun _ => Ok tt;
     sc_stat := fun _ => Ok regular_file;
     sc_get := fun _ => Ok tt;
     sc_remove := fun _ => Ok tt;
     sc_listdir := Ok ["a.csv"];
     sc_head_bucket := fun _ => Ok tt;
     sc_head_object := fun _ => Raise (ClientError "404");
     sc_upload := fun _ => Ok tt;
     sc_open_csv := fun _ =>
       Ok {| fieldnames := inr (Some ["filename"]);
             rows := [inr [("filename", Some "a.csv")]] |};
     sc_mkdtemp := Ok "/tmp/ftp_download_x";
     sc_mkdir := fun _ => Ok tt |}.

(** A CSV file whose names are padded with white space, one of them
    blank. *)
Definition padded : Scenario :=
  {| sc_connect := Ok tt;
     sc_chdir := fun _ => Ok tt;
     sc_stat := fun _ => Ok regular_file;
     sc_get := fun _ => Ok tt;
     sc_remove := fun _ => Ok tt;
     sc_listdir := Ok ["a.csv"];
     sc_head_bucket := fun _ => Ok tt;
     sc_head_object := fun _ => Raise (ClientError "404");
     sc_upload := fun _ => Ok tt;
     sc_open_csv := fun _ =>
       Ok {| fieldnames := inr (Some ["filename"; "size"]);
             rows := [inr [("filename", Some "  a.csv "); ("size", Some "1")];
                      inr [("filename", Some "   "); ("size", Some "2")];
                      inr [("filename", Some "b.csv"); ("size", Some "3")]]
          |};
     sc_mkdtemp := Ok "/tmp/ftp_download_x";
     sc_mkdir := fun _ => Ok tt |}.
End Cases.
(* ------------------------------------------------------------------ *)
(** ** Laws of the monad *)

Section Laws.
Context {W : Type}.

Lemma out_eta A (o : Out W A) :
  o = {| final := final o; events := events o; result := result o |}.
Proof. destruct o; reflexivity. Qed.

Lemma state_eta (st : State W) :
  st = {| world := world st; manager := manager st;
          results := results st |}.
Proof. destruct st; reflexivity. Qed.

Lemma bind_Ok A C (m : M W A) (k : A -> M W C) st st1 ev a :
  m st = {| final := st1; events := ev; result := Ok a |} ->
  bind m k st = prefix ev (k a st1).
Proof. intros H. unfold bind, prefix. rewrite H. reflexivity. Qed.

Lemma bind_Raise A C (m : M W A) (k : A -> M W C) st st1 ev e :
  m st = {| final := st1; events := ev; result := Raise e |} ->
  bind m k st = {| final := st1; events := ev; result := Raise e |}.
Proof. intros H. unfold bind. rewrite H. reflexivity. Qed.

Lemma bind_assoc A C D (m : M W A) (k : A -> M W C) (k' : C -> M W D) st :
  bind (bind m k) k' st = bind m (fun a => bind (k a) k') st.
Proof.
  unfold bind. destruct (result (m st)) as [a|e]; simpl; [|reflexivity].
  destruct (result (k a (final (m st)))) as [c|e]; simpl.
  - rewrite app_assoc. reflexivity.
  - reflexivity.
Qed.

Lemma bind_ret_l A C (a : A) (k : A -> M W C) st : bind (ret a) k st = k a st.
Proof. unfold bind, ret. simpl. destruct (k a st). reflexivity. Qed.

Lemma bind_ext A C (m : M W A) (k k' : A -> M W C) st :
  (forall a st', k a st' = k' a st') -> bind m k st = bind m k' st.
Proof.
  intros H. unfold bind. destruct (result (m st)); [rewrite H|]; reflexivity.
Qed.

(** The loop over [l1 ++ l2] is the loop over [l1] followed by the loop over
    [l2]: in particular every element gets its iteration, in the state the
    elements before it left, unless one of them raised. *)
Lemma for_each_app A (l1 l2 : list A) (body : A -> M W unit) : forall st,
  for_each (l1 ++ l2) body st
  = bind (for_each l1 body) (fun _ => for_each l2 body) st.
Proof.
  induction l1 as [|x l1 IH]; intros st; simpl.
  - rewrite bind_ret_l. reflexivity.
  - rewrite bind_assoc. apply bind_ext. intros _ st'. apply IH.
Qed.

Lemma try_except_Ok A (m : M W A) h st st1 ev a :
  m st = {| final := st1; events := ev; result := Ok a |} ->
  try_except m h st = {| final := st1; events := ev; result := Ok a |}.
Proof. intros H. unfold try_except. rewrite H. reflexivity. Qed.

Lemma try_except_caught A (m : M W A) h st st1 ev e k :
  m st = {| final := st1; events := ev; result := Raise e |} ->
  h e = Some k ->
  try_except m h st = prefix ev (k st1).
Proof.
  intros H Hk. unfold try_except, prefix. rewrite H. simpl. rewrite Hk.
  reflexivity.
Qed.

Lemma try_except_uncaught A (m : M W A) h st st1 ev e :
  m st = {| final := st1; events := ev; result := Raise e |} ->
  h e = None ->
  try_except m h st = {| final := st1; events := ev; result := Raise e |}.
Proof.
  intros H Hk. unfold try_except. rewrite H. simpl. rewrite Hk.
  reflexivity.
Qed.

Lemma try_finally_run A (m : M W A) fin st st1 ev r st2 ev2 :
  m st = {| final := st1; events := ev; result := r |} ->
  fin st1 = {| final := st2; events := ev2; result := Ok tt |} ->
  try_finally m fin st
  = {| final := st2; events := (ev ++ ev2)%list; result := r |}.
Proof.
  intros H Hf. unfold try_finally. rewrite H. simpl. rewrite Hf.
  reflexivity.
Qed.

Lemma call_run A ev (op : W -> W * res A) st :
  call ev op st
  = {| final := with_world (fst (op (world st))) st; events := [ev];
       result := snd (op (world st)) |}.
Proof. unfold call. destruct (op (world st)). reflexivity. Qed.

Lemma bind_final A C (m : M W A) (k : A -> M W C) st a :
  result (m st) = Ok a ->
  final (bind m k st) = final (k a (final (m st)))
  /\ events (bind m k st)
     = (events (m st) ++ events (k a (final (m st))))%list
  /\ result (bind m k st) = result (k a (final (m st))).
Proof. intros H. unfold bind. rewrite H. simpl. auto. Qed.

(** *** [world_only] *)

Lemma world_only_ret A (a : A) : world_only (ret (W:=W) a).
Proof. intros st. simpl. auto. Qed.

Lemma world_only_raise A e : world_only (raise (W:=W) (A:=A) e).
Proof. intros st. simpl. auto. Qed.

Lemma world_only_get_manager : world_only (get_manager (W:=W)).
Proof. intros st. simpl. auto. Qed.

Lemma world_only_call A ev (op : W -> W * res A) : world_only (call ev op).
Proof. intros st. unfold call. destruct (op (world st)). simpl. auto. Qed.

Lemma world_only_bind A C (m : M W A) (k : A -> M W C) :
  world_only m -> (forall a, world_only (k a)) -> world_only (bind m k).
Proof.
  intros Hm Hk st. unfold bind. destruct (Hm st) as [H1 H2].
  destruct (result (m st)) as [a|e]; simpl; auto.
  destruct (Hk a (final (m st))) as [H3 H4]. split; congruence.
Qed.

Lemma world_only_try_except A (m : M W A) h :
  world_only m ->
  (forall e, match h e with Some k => world_only k | None => True end) ->
  world_only (try_except m h).
Proof.
  intros Hm Hh st. unfold try_except. destruct (Hm st) as [H1 H2].
  destruct (result (m st)) as [a|e]; auto.
  specialize (Hh e). destruct (h e) as [k|]; auto.
  destruct (Hh (final (m st))) as [H3 H4]. simpl. split; congruence.
Qed.

Lemma world_only_try_finally A (m : M W A) fin :
  world_only m -> world_only fin -> world_only (try_finally m fin).
Proof.
  intros Hm Hf st. unfold try_finally. simpl.
  destruct (Hm st), (Hf (final (m st))). split; congruence.
Qed.

Lemma world_only_for_each A (l : list A) body :
  (forall x, world_only (body x)) -> world_only (for_each (W:=W) l body).
Proof.
  intros Hb. induction l as [|x l IH]; simpl.
  - apply world_only_ret.
  - apply world_only_bind; auto.
Qed.

(** *** [total] *)

Lemma total_ret A (a : A) : total (ret (W:=W) a).
Proof. intros st. exists a. reflexivity. Qed.

Lemma total_get_manager : total (get_manager (W:=W)).
Proof. intros st. eexists. reflexivity. Qed.

Lemma total_get_results : total (get_results (W:=W)).
Proof. intros st. eexists. reflexivity. Qed.

Lemma total_set_results r : total (set_results (W:=W) r).
Proof. intros st. eexists. reflexivity. Qed.

Lemma total_append_result b f : total (append_result (W:=W) b f).
Proof. intros st. eexists. reflexivity. Qed.

Lemma total_bind A C (m : M W A) (k : A -> M W C) :
  total m -> (forall a, total (k a)) -> total (bind m k).
Proof.
  intros Hm Hk st. unfold bind. destruct (Hm st) as [a Ha]. rewrite Ha.
  simpl. apply Hk.
Qed.

(** A [try] all of whose exceptions are handled by total handlers. *)
Lemma total_try_except A (m : M W A) h :
  (forall e, match h e with Some k => total k | None => False end) ->
  total (try_except m h).
Proof.
  intros Hh st. unfold try_except.
  destruct (result (m st)) as [a|e] eqn:E.
  - exists a. exact E.
  - specialize (Hh e). destruct (h e) as [k|]; [|contradiction].
    simpl. apply Hh.
Qed.

Lemma total_try_finally A (m : M W A) fin :
  total m -> total fin -> total (try_finally m fin).
Proof.
  intros Hm Hf st. unfold try_finally. simpl.
  destruct (Hf (final (m st))) as [u Hu]. rewrite Hu. apply Hm.
Qed.

Lemma total_for_each A (l : list A) body :
  (forall x, total (body x)) -> total (for_each (W:=W) l body).
Proof.
  intros Hb. induction l as [|x l IH]; simpl.
  - apply total_ret.
  - apply total_bind; auto.
Qed.

(** *** [emits] *)

Lemma emits_ret A P (a : A) : emits P (ret (W:=W) a).
Proof. intros st. constructor. Qed.

Lemma emits_raise A P e : emits P (raise (W:=W) (A:=A) e).
Proof. intros st. constructor. Qed.

Lemma emits_get_manager P : emits P (get_manager (W:=W)).
Proof. intros st. constructor. Qed.

Lemma emits_set_manager P m : emits P (set_manager (W:=W) m).
Proof. intros st. constructor. Qed.

Lemma emits_get_results P : emits P (get_results (W:=W)).
Proof. intros st. constructor. Qed.

Lemma emits_set_results P r : emits P (set_results (W:=W) r).
Proof. intros st. constructor. Qed.

Lemma emits_append_result P b f : emits P (append_result (W:=W) b f).
Proof. intros st. constructor. Qed.

Lemma emits_call A (P : Event -> Prop) ev (op : W -> W * res A) :
  P ev -> emits P (call ev op).
Proof.
  intros H st. unfold call. destruct (op (world st)). simpl.
  constructor; [exact H | constructor].
Qed.

Lemma emits_bind A C P (m : M W A) (k : A -> M W C) :
  emits P m -> (forall a, emits P (k a)) -> emits P (bind m k).
Proof.
  intros Hm Hk st. unfold bind. specialize (Hm st).
  destruct (result (m st)) as [a|e]; simpl; auto.
  apply Forall_app. split; [exact Hm | apply Hk].
Qed.

Lemma emits_try_except A P (m : M W A) h :
  emits P m ->
  (forall e, match h e with Some k => emits P k | None => True end) ->
  emits P (try_except m h).
Proof.
  intros Hm Hh st. unfold try_except. specialize (Hm st).
  destruct (result (m st)) as [a|e]; auto.
  specialize (Hh e). destruct (h e) as [k|]; auto.
  simpl. apply Forall_app. split; [exact Hm | apply Hh].
Qed.

Lemma emits_try_finally A P (m : M W A) fin :
  emits P m -> emits P fin -> emits P (try_finally m fin).
Proof.
  intros Hm Hf st. unfold try_finally. simpl.
  apply Forall_app. split; [apply Hm | apply Hf].
Qed.

Lemma emits_for_each A P (l : list A) body :
  (forall x, emits P (body x)) -> emits P (for_each (W:=W) l body).
Proof.
  intros Hb. induction l as [|x l IH]; simpl.
  - apply emits_ret.
  - apply emits_bind; auto.
Qed.

(** A computation that only touches the world and always returns runs to
    a state that differs from the start in the world alone. *)
Lemma method_run A (m : M W A) :
  world_only m -> total m ->
  forall st, exists w ev a,
    m st = {| final := with_world w st; events := ev; result := Ok a |}.
Proof.
  intros Hw Ht st. destruct (Hw st) as [H1 H2]. destruct (Ht st) as [a Ha].
  exists (world (final (m st))), (events (m st)), a.
  rewrite (out_eta (m st)) at 1. rewrite Ha. f_equal.
  rewrite (state_eta (final (m st))). unfold with_world.
  rewrite H1, H2. reflexivity.
Qed.

Lemma count_app p l1 l2 :
  count p (l1 ++ l2)%list = (count p l1 + count p l2)%nat.
Proof. unfold count. rewrite filter_app, length_app. reflexivity. Qed.

Lemma count_none p l : Forall (no p) l -> count p l = 0%nat.
Proof.
  unfold count, no. induction 1 as [|e l He _ IH]; simpl.
  - reflexivity.
  - rewrite He. exact IH.
Qed.
End Laws.

Arguments bind_Ok {W A C m} k {st st1 ev a} _.
Arguments try_except_Ok {W A m} h {st st1 ev a} _.
Arguments try_except_caught {W A m} h {st st1 ev e k} _ _.
Arguments try_except_uncaught {W A m} h {st st1 ev e} _ _.
Arguments bind_Raise {W A C m} k {st st1 ev e} _.
Arguments bind_final {W A C m} k {st a} _.

(* ------------------------------------------------------------------ *)
(** ** Effects of the manager methods *)

Ltac effects_step :=
  match goal with
  | |- True => exact I
  | |- no _ _ => reflexivity
  | |- forall _, _ => intro
  | |- world_only (ret _) => apply world_only_ret
  | |- world_only (raise _) => apply world_only_raise
  | |- world_only get_manager => apply world_only_get_manager
  | |- world_only (call _ _) => apply world_only_call
  | |- world_only (bind _ _) => apply world_only_bind
  | |- world_only (try_except _ _) => apply world_only_try_except
  | |- world_only (try_finally _ _) => apply world_only_try_finally
  | |- world_only (for_each _ _) => apply world_only_for_each
  | |- total (ret _) => apply total_ret
  | |- total get_manager => apply total_get_manager
  | |- total get_results => apply total_get_results
  | |- total (set_results _) => apply total_set_results
  | |- total (append_result _ _) => apply total_append_result
  | |- total (bind _ _) => apply total_bind
  | |- total (try_except _ _) => apply total_try_except
  | |- total (try_finally _ _) => apply total_try_finally
  | |- total (for_each _ _) => apply total_for_each
  | |- emits _ (ret _) => apply emits_ret
  | |- emits _ (raise _) => apply emits_raise
  | |- emits _ get_manager => apply emits_get_manager
  | |- emits _ (set_manager _) => apply emits_set_manager
  | |- emits _ get_results => apply emits_get_results
  | |- emits _ (set_results _) => apply emits_set_results
  | |- emits _ (append_result _ _) => apply emits_append_result
  | |- emits _ (call _ _) => apply emits_call
  | |- emits _ (bind _ _) => apply emits_bind
  | |- emits _ (try_except _ _) => apply emits_try_except
  | |- emits _ (try_finally _ _) => apply emits_try_finally
  | |- emits _ (for_each _ _) => apply emits_for_each
  | |- match except_Exception _ _ with _ => _ end =>
      unfold except_Exception
  | |- match except_all _ _ with _ => _ end => unfold except_all
  | |- match match ?e with _ => _ end with _ => _ end => destruct e
  | |- _ (if ?b then _ else _) => destruct b
  | |- _ (match ?x with _ => _ end) => destruct x
  end.

Ltac effects := repeat effects_step.

Section ManagerEffects.
Context {W : Type} (B : Backend W).

Lemma world_only_run A (m : M W A) :
  world_only m ->
  forall st, exists w ev r,
    m st = {| final := with_world w st; events := ev; result := r |}.
Proof.
  intros Hw st. destruct (Hw st) as [H1 H2].
  exists (world (final (m st))), (events (m st)), (result (m st)).
  rewrite (out_eta (m st)) at 1. f_equal.
  rewrite (state_eta (final (m st))). unfold with_world.
  rewrite H1, H2. reflexivity.
Qed.

Lemma world_only_change_directory p : world_only (change_directory B p).
Proof. unfold change_directory, with_sftp. effects. Qed.

Lemma total_change_directory p : total (change_directory B p).
Proof. unfold change_directory, with_sftp. effects. Qed.

Lemma world_only_SFTP_file_exists f : world_only (SFTP_file_exists B f).
Proof. unfold SFTP_file_exists, with_sftp. effects. Qed.

Lemma total_SFTP_file_exists f : total (SFTP_file_exists B f).
Proof. unfold SFTP_file_exists, with_sftp. effects. Qed.

Lemma world_only_stat_file_size f : world_only (stat_file_size B f).
Proof. unfold stat_file_size, with_sftp. effects. Qed.

Lemma world_only_download_file_to_local f d :
  world_only (download_file_to_local B f d).
Proof. unfold download_file_to_local, stat_file_size, with_sftp. effects. Qed.

Lemma total_download_file_to_local f d :
  total (download_file_to_local B f d).
Proof. unfold download_file_to_local. effects. Qed.

Lemma world_only_download_file_to_temp f d :
  world_only (download_file_to_temp B f d).
Proof. unfold download_file_to_temp, stat_file_size, with_sftp. effects. Qed.

Lemma total_download_file_to_temp f d :
  total (download_file_to_temp B f d).
Proof. unfold download_file_to_temp. effects. Qed.

Lemma world_only_delete_file f : world_only (delete_file B f).
Proof. unfold delete_file, with_sftp. effects. Qed.

Lemma total_delete_file f : total (delete_file B f).
Proof. unfold delete_file. effects. Qed.

Lemma world_only_upload_file s3 p k : world_only (upload_file B s3 p k).
Proof. unfold upload_file. effects. Qed.

Lemma total_upload_file s3 p k : total (upload_file B s3 p k).
Proof. unfold upload_file. effects. Qed.

Lemma world_only_S3_file_exists s3 k : world_only (S3_file_exists B s3 k).
Proof. unfold S3_file_exists. effects. Qed.

Lemma world_only_s3_precheck s3 ow k : world_only (s3_precheck B s3 ow k).
Proof.
  unfold s3_precheck. destruct s3 as [s3|]; [destruct ow; simpl|].
  - apply world_only_ret.
  - apply world_only_S3_file_exists.
  - apply world_only_ret.
Qed.

Lemma world_only_fetch s3 f d : world_only (fetch B s3 f d).
Proof.
  unfold fetch. destruct s3.
  - apply world_only_download_file_to_temp.
  - apply world_only_download_file_to_local.
Qed.

Lemma total_fetch s3 f d : total (fetch B s3 f d).
Proof.
  unfold fetch. destruct s3.
  - apply total_download_file_to_temp.
  - apply total_download_file_to_local.
Qed.

Lemma world_only_cleanup u d : world_only (cleanup B u d).
Proof. unfold cleanup. effects. Qed.

Lemma total_cleanup u d : total (cleanup B u d).
Proof. unfold cleanup. effects. Qed.
End ManagerEffects.

(* ------------------------------------------------------------------ *)
(** ** One iteration of the loop *)

(** Symbolic execution: a [bind] whose first computation has a known run. *)
Ltac run_bind :=
  first [ rewrite bind_assoc
        | erewrite bind_Ok by (first [eassumption | reflexivity])
        | erewrite bind_Raise by (first [eassumption | reflexivity]) ].

Ltac tidy := cbn beta iota zeta delta [negb].

Ltac run := tidy; repeat (run_bind; tidy).

Ltac run_done := unfold prefix, with_world, with_results; simpl; reflexivity.

Section Iteration.
Context {W : Type} (B : Backend W).

Lemma primary_recorded u f r r' :
  recorded u f r r' -> Permutation (primary r') (primary r ++ [f])%list.
Proof.
  intros H. apply (Permutation_count_occ string_dec). intros x.
  unfold recorded in H.
  destruct H as [H|[H|[H|[H|[_ [H|H]]]]]]; subst r'; unfold primary; simpl;
    repeat rewrite count_occ_app; simpl; destruct (string_dec f x); lia.
Qed.

Lemma local_recorded f r r' :
  recorded false f r r' ->
  r_s3_upload_failed r' = r_s3_upload_failed r
  /\ r_s3_already_exists r' = r_s3_already_exists r.
Proof.
  unfold recorded.
  intros [H|[H|[H|[H|[H _]]]]]; try discriminate; subst r'; simpl; auto.
Qed.

(** Removing the staged file never fails the step. *)
Lemma remove_staged_run p st :
  exists w ev,
    try_except (call (EvOsRemove p) (os_remove B p)) (except_all (ret tt)) st
    = {| final := with_world w st; events := ev; result := Ok tt |}.
Proof.
  pose proof (call_run (EvOsRemove p) (os_remove B p) st) as Hc.
  destruct (snd (os_remove B p (world st))) as [[]|e].
  - eexists. eexists. apply (try_except_Ok _ Hc).
  - eexists. eexists.
    rewrite (try_except_caught (except_all (ret tt)) Hc (k := ret tt) eq_refl).
    run_done.
Qed.

(** The upload step returns, having touched the world and, when the upload
    failed, the [s3_upload_failed] bucket. *)
Lemma upload_step_run s3 p k f st :
  exists w ev,
    upload_step B s3 p k f st
    = {| final := with_world w st; events := ev; result := Ok true |}
    \/ upload_step B s3 p k f st
       = {| final := with_results
                       (append_to s3_upload_failed f (results st))
                       (with_world w st);
            events := ev; result := Ok false |}.
Proof.
  unfold upload_step.
  destruct (method_run (world_only_upload_file B s3 p k)
                       (total_upload_file B s3 p k) st)
    as (w1 & ev1 & up & H1).
  destruct up.
  - destruct (remove_staged_run p (with_world w1 st)) as (w2 & ev2 & H2).
    exists w2. eexists. left.
    erewrite try_except_Ok; [reflexivity|].
    run. run_done.
  - destruct (remove_staged_run p
                (with_results (append_to s3_upload_failed f (results st))
                              (with_world w1 st))) as (w2 & ev2 & H2).
    exists w2. eexists. right.
    erewrite try_except_Ok; [reflexivity|].
    run. run_done.
Qed.

(** The closing step returns: [success] is written, after
    [sftp_delete_failed] when a requested deletion failed. *)
Lemma delete_and_mark_run del f st :
  exists w ev,
    delete_and_mark B del f st
    = {| final := with_results (append_to success f (results st))
                               (with_world w st);
         events := ev; result := Ok tt |}
    \/ (del = true
        /\ delete_and_mark B del f st
           = {| final := with_results
                           (append_to success f
                              (append_to sftp_delete_failed f (results st)))
                           (with_world w st);
                events := ev; result := Ok tt |}).
Proof.
  unfold delete_and_mark. destruct del.
  - destruct (method_run (world_only_delete_file B f)
                         (total_delete_file B f) st)
      as (w1 & ev1 & ok & H1).
    destruct ok.
    + exists w1. eexists. left. run. run_done.
    + exists w1. eexists. right. split; [reflexivity|].
      run. run_done.
  - exists (world st), []. left. run. run_done.
Qed.

(** What an iteration does to the manager object and to the results dict.
    A fault can only come out of the S3 existence check, before anything
    is recorded. *)
Lemma process_one_run s3 dir pre del ow f st :
  let o := process_one B s3 dir pre del ow f st in
  manager (final o) = manager st
  /\ match result o with
     | Ok _ => recorded (is_some s3) f (results st) (results (final o))
     | Raise e =>
         results (final o) = results st
         /\ exists s st1,
             s3 = Some s /\ ow = false
             /\ result (S3_file_exists B s (s3_key_of pre f) st1) = Raise e
     end.
Proof.
  unfold process_one.
  destruct (method_run (world_only_SFTP_file_exists B f)
                       (total_SFTP_file_exists B f) st)
    as (w1 & ev1 & found & H1).
  destruct found; cycle 1.
  { run. simpl. split; [reflexivity|].
    right. right. left. reflexivity. }
  destruct (world_only_run
              (world_only_s3_precheck B s3 ow (s3_key_of pre f))
              (with_world w1 st)) as (w2 & ev2 & r2 & H2).
  destruct r2 as [already|e]; cycle 1.
  { run. simpl. split; [reflexivity|]. split; [reflexivity|].
    unfold s3_precheck in H2. destruct s3 as [s|]; [|discriminate].
    destruct ow; [discriminate|]. simpl in H2.
    exists s, (with_world w1 st). rewrite H2. auto. }
  destruct already.
  { run. simpl. split; [reflexivity|].
    unfold s3_precheck in H2. destruct s3 as [s|]; [|discriminate].
    do 4 right. split; [reflexivity|]. right. reflexivity. }
  destruct (method_run (world_only_fetch B s3 f dir) (total_fetch B s3 f dir)
                       (with_world w2 (with_world w1 st)))
    as (w3 & ev3 & file_path & H3).
  destruct (truthy_opt file_path) eqn:Hp; cycle 1.
  { run. rewrite Hp. run. simpl. split; [reflexivity|].
    do 3 right. left. reflexivity. }
  destruct s3 as [s|].
  - destruct (upload_step_run s
                (match file_path with Some p => p | None => EmptyString end)
                (s3_key_of pre f) f
                (with_world w3 (with_world w2 (with_world w1 st))))
      as (w4 & ev4 & [H4|H4]).
    + destruct (delete_and_mark_run del f
                  (with_world w4
                     (with_world w3 (with_world w2 (with_world w1 st)))))
        as (w5 & ev5 & [H5|[_ H5]]);
        run; rewrite Hp; run; rewrite H5; simpl;
        (split; [reflexivity|]).
      * left. reflexivity.
      * right. left. reflexivity.
    + run. rewrite Hp. run. simpl.
      split; [reflexivity|]. do 4 right. split; [reflexivity|].
      left. reflexivity.
  - destruct (delete_and_mark_run del f
                  (with_world w3 (with_world w2 (with_world w1 st))))
        as (w5 & ev5 & [H5|[_ H5]]);
        run; rewrite Hp; tidy; rewrite H5; simpl;
        (split; [reflexivity|]).
    + left. reflexivity.
    + right. left. reflexivity.
Qed.
End Iteration.

(* ------------------------------------------------------------------ *)
(** ** The loop and [process_files] as a whole *)

Section WholeRun.
Context {W : Type} (B : Backend W).

Lemma bind_Raise_proj A C (m : M W A) (k : A -> M W C) st e :
  result (m st) = Raise e ->
  bind m k st
  = {| final := final (m st); events := events (m st); result := Raise e |}.
Proof. intros H. unfold bind. rewrite H. reflexivity. Qed.

(** The loop writes each filename it gets through into one primary bucket;
    without a destination store the two S3 buckets stay as they were. *)
Lemma loop_run s3 dir pre del ow fs : forall st,
  let o := for_each fs (process_one B s3 dir pre del ow) st in
  manager (final o) = manager st
  /\ (result o = Ok tt ->
      Permutation (primary (results (final o)))
                  (primary (results st) ++ fs)%list
      /\ (s3 = None ->
          r_s3_upload_failed (results (final o))
          = r_s3_upload_failed (results st)
          /\ r_s3_already_exists (results (final o))
             = r_s3_already_exists (results st))).
Proof.
  induction fs as [|f fs IH]; intros st; simpl.
  - split; [reflexivity|]. intros _. rewrite app_nil_r. auto.
  - pose proof (process_one_run B s3 dir pre del ow f st) as [Hm Hr].
    destruct (result (process_one B s3 dir pre del ow f st)) as [[]|e] eqn:E.
    + destruct (bind_final (fun _ => for_each fs (process_one B s3 dir pre del ow)) E)
        as (Hf & _ & Hres).
      rewrite Hf, Hres.
      destruct (IH (final (process_one B s3 dir pre del ow f st)))
        as [IHm IHr].
      split; [congruence|]. intros Hok. destruct (IHr Hok) as [Hp Hl].
      split.
      * rewrite Hp. rewrite (primary_recorded Hr).
        rewrite <- app_assoc. reflexivity.
      * intros ->. destruct (Hl eq_refl) as [H1 H2].
        destruct (local_recorded Hr) as [H3 H4]. split; congruence.
    + rewrite bind_Raise_proj with (e := e) by exact E. simpl. split; [exact Hm|].
      discriminate.
Qed.

Lemma cleanup_run d st :
  exists w,
    cleanup B true d st
    = {| final := with_world w st; events := [EvRmtree d];
         result := Ok tt |}.
Proof.
  unfold cleanup.
  pose proof (call_run (EvRmtree d) (shutil_rmtree B d) st) as Hc.
  destruct (snd (shutil_rmtree B d (world st))) as [[]|e].
  - eexists. apply (try_except_Ok _ Hc).
  - eexists.
    rewrite (try_except_caught (except_all (ret tt)) Hc (k := ret tt)
                               eq_refl).
    run_done.
Qed.

(** [process_files], run: where it stops, which calls it makes around the
    loop, and what it hands back. *)
Lemma process_files_run s3 fs path loc pre del ow st :
  let cd := change_directory B path (with_results empty_results st) in
  let o := process_files B s3 fs path loc pre del ow st in
  if selected B path st then
    match s3 with
    | Some _ =>
        match snd (tempfile_mkdtemp B "ftp_download_" (world (final cd)))
        with
        | Ok d =>
            let lp :=
              for_each fs (process_one B s3 d pre del ow)
                (with_world
                   (fst (tempfile_mkdtemp B "ftp_download_"
                                          (world (final cd))))
                   (final cd)) in
            events o
            = (events cd ++ [EvMkdtemp "ftp_download_"] ++ events lp
               ++ [EvRmtree d])%list
            /\ result o = match result lp with
                          | Ok _ => Ok (results (final lp))
                          | Raise e => Raise e
                          end
        | Raise e =>
            events o = (events cd ++ [EvMkdtemp "ftp_download_"])%list
            /\ result o = Raise e
        end
    | None =>
        match snd (path_mkdir B loc (world (final cd))) with
        | Ok _ =>
            let lp :=
              for_each fs (process_one B s3 loc pre del ow)
                (with_world (fst (path_mkdir B loc (world (final cd))))
                            (final cd)) in
            events o = (events cd ++ [EvMkdir loc] ++ events lp)%list
            /\ result o = match result lp with
                          | Ok _ => Ok (results (final lp))
                          | Raise e => Raise e
                          end
        | Raise e =>
            events o = (events cd ++ [EvMkdir loc])%list
            /\ result o = Raise e
        end
    end
  else events o = events cd /\ result o = Ok empty_results.
Proof.
  intros cd o. subst o. unfold process_files, selected. fold cd.
  destruct (total_change_directory B path (with_results empty_results st))
    as [sel Hsel].
  fold cd in Hsel.
  pose proof (out_eta cd) as Hcd. rewrite Hsel in Hcd. subst cd.
  destruct (world_only_change_directory B path
              (with_results empty_results st)) as [_ Hres].
  rewrite Hsel. destruct sel; cycle 1.
  { run. simpl. rewrite app_nil_r. rewrite Hres. auto. }
  destruct s3 as [s|]; simpl is_some; tidy.
  - pose proof (call_run (EvMkdtemp "ftp_download_")
                  (tempfile_mkdtemp B "ftp_download_")
                  (final (change_directory B path
                            (with_results empty_results st)))) as Hmk.
    destruct (snd (tempfile_mkdtemp B "ftp_download_"
                (world (final (change_directory B path
                                 (with_results empty_results st))))))
      as [d|e].
    + set (st2 := with_world _ _) in *.
      pose proof (out_eta (for_each fs
                    (process_one B (Some s) d pre del ow) st2)) as Hlp.
      destruct (cleanup_run d (final (for_each fs
                    (process_one B (Some s) d pre del ow) st2)))
        as (w3 & Hcl).
      pose proof (try_finally_run _ _ _ Hlp Hcl) as Htf.
      destruct (result (for_each fs (process_one B (Some s) d pre del ow)
                          st2)) as [[]|e] eqn:Elp.
      * run. simpl. rewrite !app_nil_r. split; reflexivity.
      * run. simpl. split; reflexivity.
    + run. simpl. split; reflexivity.
  - pose proof (call_run (EvMkdir loc) (path_mkdir B loc)
                  (final (change_directory B path
                            (with_results empty_results st)))) as Hmk.
    destruct (snd (path_mkdir B loc
                (world (final (change_directory B path
                                 (with_results empty_results st))))))
      as [[]|e].
    + set (st2 := with_world _ _) in *.
      pose proof (out_eta (for_each fs
                    (process_one B None loc pre del ow) st2)) as Hlp.
      assert (Hcl : cleanup B false loc
                      (final (for_each fs
                                (process_one B None loc pre del ow) st2))
                    = {| final := final (for_each fs
                                (process_one B None loc pre del ow) st2);
                         events := []; result := Ok tt |})
        by reflexivity.
      pose proof (try_finally_run _ _ _ Hlp Hcl) as Htf.
      destruct (result (for_each fs (process_one B None loc pre del ow)
                          st2)) as [[]|e] eqn:Elp.
      * run. simpl. rewrite !app_nil_r. split; reflexivity.
      * run. simpl. rewrite !app_nil_r. split; reflexivity.
    + run. simpl. split; reflexivity.
Qed.
End WholeRun.

(* ------------------------------------------------------------------ *)
(** ** Faults and calls of the loop *)

Section LoopCalls.
Context {W : Type} (B : Backend W).

Lemma emits_impl A (P Q : Event -> Prop) (m : M W A) :
  (forall e, P e -> Q e) -> emits P m -> emits Q m.
Proof. intros H Hm st. eapply Forall_impl; [exact H | apply Hm]. Qed.

Lemma emits_process_one s3 dir pre del ow f :
  emits (fun e => is_loop_call e = true)
        (process_one B s3 dir pre del ow f).
Proof.
  unfold process_one, s3_precheck, fetch, upload_step, delete_and_mark,
    SFTP_file_exists, S3_file_exists, download_file_to_temp,
    download_file_to_local, stat_file_size, upload_file, delete_file,
    with_sftp.
  effects; reflexivity.
Qed.

Lemma emits_loop s3 dir pre del ow fs :
  emits (fun e => is_loop_call e = true)
        (for_each fs (process_one B s3 dir pre del ow)).
Proof. apply emits_for_each. intros f. apply emits_process_one. Qed.

Lemma emits_change_directory p :
  emits (fun e => e = EvChdir p) (change_directory B p).
Proof. unfold change_directory, with_sftp. effects; reflexivity. Qed.

(** A fault of the S3 existence check is a fault of [head_object] that is
    not a [ClientError]. *)
Lemma S3_file_exists_raises s k st e :
  result (S3_file_exists B s k st) = Raise e ->
  snd (s3_head_object B (bucket_name s) k (world st)) = Raise e
  /\ forall code, e <> ClientError code.
Proof.
  unfold S3_file_exists.
  pose proof (call_run (EvHeadObject (bucket_name s) k)
                (s3_head_object B (bucket_name s) k) st) as Hc.
  destruct (snd (s3_head_object B (bucket_name s) k (world st)))
    as [[]|e0]; intros H.
  - unfold try_except in H. rewrite (bind_Ok _ Hc) in H. discriminate.
  - unfold try_except in H. rewrite (bind_Raise _ Hc) in H. simpl in H.
    destruct e0; simpl in H;
      try (destruct (String.eqb code "404"); discriminate);
      inversion H; subst; split; auto; intros c; discriminate.
Qed.

(** Only the S3 existence check can make the loop raise. *)
Lemma loop_raise_origin s3 dir pre del ow fs : forall st e,
  result (for_each fs (process_one B s3 dir pre del ow) st) = Raise e ->
  exists s f st1,
    s3 = Some s /\ ow = false /\ In f fs
    /\ result (S3_file_exists B s (s3_key_of pre f) st1) = Raise e.
Proof.
  induction fs as [|f fs IH]; intros st e; simpl.
  - discriminate.
  - pose proof (process_one_run B s3 dir pre del ow f st) as [_ Hr].
    destruct (result (process_one B s3 dir pre del ow f st)) as [[]|e0] eqn:E.
    + destruct (bind_final
                  (fun _ => for_each fs (process_one B s3 dir pre del ow)) E)
        as (_ & _ & Hres).
      rewrite Hres. intros H. destruct (IH _ _ H) as (s & f' & st1 & H').
      exists s, f', st1. intuition.
    + rewrite bind_Raise_proj with (e := e0) by exact E. simpl.
      intros H. inversion H; subst e0.
      destruct Hr as (_ & s & st1 & Hs & Ho & Hx).
      exists s, f, st1. auto.
Qed.
End LoopCalls.

(* ------------------------------------------------------------------ *)
(** ** Properties of [process_files] *)

Section RunResult.
Context {W : Type} (B : Backend W).

(** The result of a run that got its directory is the results dict the
    loop ended with, and the loop started from the empty dict. *)
Lemma process_files_result s3 fs path loc pre del ow st r :
  result (process_files B s3 fs path loc pre del ow st) = Ok r ->
  selected B path st = true ->
  exists dir st2,
    results st2 = empty_results
    /\ result (for_each fs (process_one B s3 dir pre del ow) st2) = Ok tt
    /\ r = results (final (for_each fs (process_one B s3 dir pre del ow)
                                    st2)).
Proof.
  intros Hr Hsel.
  pose proof (process_files_run B s3 fs path loc pre del ow st) as H.
  cbv zeta in H. rewrite Hsel in H.
  destruct (world_only_change_directory B path
              (with_results empty_results st)) as [_ Hres].
  destruct s3 as [s|].
  - destruct (snd (tempfile_mkdtemp B "ftp_download_" _)) as [d|e].
    + destruct H as [_ H]. rewrite Hr in H.
      destruct (result (for_each fs _ _)) as [[]|e] eqn:E; [|discriminate].
      eexists d, _. split; [|split; [exact E|congruence]]. exact Hres.
    + destruct H as [_ H]. congruence.
  - destruct (snd (path_mkdir B loc _)) as [[]|e].
    + destruct H as [_ H]. rewrite Hr in H.
      destruct (result (for_each fs _ _)) as [[]|e] eqn:E; [|discriminate].
      eexists loc, _. split; [|split; [exact E|congruence]]. exact Hres.
    + destruct H as [_ H]. congruence.
Qed.

(** C1.  Whatever the collaborators do, the Run Result [process_files]
    returns partitions the input: when the remote directory was selected,
    the five primary buckets together hold exactly the input filenames
    (as many times as the input lists them), so that with unique input
    names every name is in exactly one primary bucket, exactly once; when
    the directory could not be selected, every bucket is empty. *)
Theorem process_files_partitions_input s3 fs path loc pre del ow st r :
  result (process_files B s3 fs path loc pre del ow st) = Ok r ->
  if selected B path st then
    Permutation (primary r) fs
    /\ (NoDup fs ->
        forall f, In f fs -> count_occ string_dec (primary r) f = 1%nat)
  else r = empty_results.
Proof.
  intros Hr. destruct (selected B path st) eqn:Hsel.
  - destruct (process_files_result _ _ _ _ _ _ _ _ Hr Hsel)
      as (dir & st2 & Hempty & Hok & ->).
    destruct (loop_run B s3 dir pre del ow fs st2) as [_ Hl].
    destruct (Hl Hok) as [Hp _]. rewrite Hempty in Hp. simpl in Hp.
    split; [exact Hp|]. intros Hnd f Hin.
    rewrite (proj1 (Permutation_count_occ string_dec _ _) Hp f).
    apply (proj1 (NoDup_count_occ' string_dec fs) Hnd f Hin).
  - pose proof (process_files_run B s3 fs path loc pre del ow st) as H.
    cbv zeta in H. rewrite Hsel in H. destruct H as [_ H]. congruence.
Qed.


(** Where a fault of [process_files] comes from: the creation of the
    staging or of the local directory, or the S3 existence check. *)
Lemma process_files_raise_origin s3 fs path loc pre del ow st e :
  result (process_files B s3 fs path loc pre del ow st) = Raise e ->
  let st1 := final (change_directory B path
                                     (with_results empty_results st)) in
  selected B path st = true
  /\ ((s3 <> None
       /\ snd (tempfile_mkdtemp B "ftp_download_" (world st1)) = Raise e)
      \/ (s3 = None /\ snd (path_mkdir B loc (world st1)) = Raise e)
      \/ exists s f st',
          s3 = Some s /\ ow = false /\ In f fs
          /\ result (S3_file_exists B s (s3_key_of pre f) st') = Raise e).
Proof.
  intros Hr.
  pose proof (process_files_run B s3 fs path loc pre del ow st) as H.
  cbv zeta in *. destruct (selected B path st).
  2:{ destruct H as [_ H]. congruence. }
  split; [reflexivity|]. destruct s3 as [s|].
  - destruct (snd (tempfile_mkdtemp B "ftp_download_" _)) as [d|e0].
    + destruct H as [_ H]. rewrite Hr in H.
      destruct (result (for_each fs _ _)) as [[]|e1] eqn:E; [discriminate|].
      inversion H; subst e1. right. right.
      apply (loop_raise_origin B _ _ _ _ _ _ _ E).
    + destruct H as [_ H]. left. split; [discriminate|]. congruence.
  - destruct (snd (path_mkdir B loc _)) as [[]|e0].
    + destruct H as [_ H]. rewrite Hr in H.
      destruct (result (for_each fs _ _)) as [[]|e1] eqn:E; [discriminate|].
      destruct (loop_raise_origin B _ _ _ _ _ _ _ E)
        as (s & _ & _ & Hs & _). discriminate.
    + destruct H as [_ H]. right. left. split; [reflexivity|]. congruence.
Qed.

(** Without a destination store nothing is ever written to the two S3
    buckets. *)
Lemma local_results_no_s3 fs path loc pre del ow st r :
  result (process_files B None fs path loc pre del ow st) = Ok r ->
  r_s3_upload_failed r = [] /\ r_s3_already_exists r = [].
Proof.
  intros Hr. destruct (selected B path st) eqn:Hsel.
  - destruct (process_files_result _ _ _ _ _ _ _ _ Hr Hsel)
      as (dir & st2 & Hempty & Hok & ->).
    destruct (loop_run B None dir pre del ow fs st2) as [_ Hl].
    destruct (Hl Hok) as [_ Hloc].
    destruct (Hloc eq_refl) as [H1 H2].
    rewrite H1, H2, Hempty. auto.
  - pose proof (process_files_run B None fs path loc pre del ow st) as H.
    cbv zeta in H. rewrite Hsel in H. destruct H as [_ H].
    rewrite Hr in H. inversion H. auto.
Qed.

Lemma len_zero l : (len l >? 0) = nonempty l.
Proof.
  unfold len. destruct l; simpl; [reflexivity|].
  apply Z.gtb_lt. lia.
Qed.

(** C10.  Without a destination store, the Run Result [process_files]
    returns has empty [s3_upload_failed] and [s3_already_exists] buckets,
    for every input list and every behaviour of the collaborators; so the
    exit status of local mode, which counts [sftp_download_failed] only,
    is the one the general rule gives (failure if and only if the
    download-failed or the upload-failed bucket is non-empty).  The only
    fault that can keep [process_files] from returning in this mode is one
    of the creation of the local download directory. *)
Theorem local_mode_s3_buckets_empty fs path loc pre del ow st :
  match result (process_files B None fs path loc pre del ow st) with
  | Ok r =>
      r_s3_upload_failed r = [] /\ r_s3_already_exists r = []
      /\ exit_status false r = exit_status true r
      /\ (exit_status false r = 1 <->
          r_sftp_download_failed r <> [] \/ r_s3_upload_failed r <> [])
  | Raise e =>
      selected B path st = true
      /\ snd (path_mkdir B loc
                (world (final (change_directory B path
                                 (with_results empty_results st)))))
         = Raise e
  end.
Proof.
  destruct (result (process_files B None fs path loc pre del ow st))
    as [r|e] eqn:Hr.
  - destruct (local_results_no_s3 _ _ _ _ _ _ _ Hr) as [Hu Ha].
    split; [exact Hu|]. split; [exact Ha|].
    unfold exit_status, total_failures. rewrite Hu.
    replace (len (r_sftp_download_failed r) + len [])
      with (len (r_sftp_download_failed r)) by (unfold len; simpl; lia).
    split; [reflexivity|].
    rewrite len_zero. destruct (r_sftp_download_failed r); simpl.
    + split; [discriminate|]. intros [H|H]; congruence.
    + split; [|reflexivity]. intros _. left. discriminate.
  - destruct (process_files_raise_origin _ _ _ _ _ _ _ _ Hr)
      as [Hsel [[Hs _]|[[_ Hm]|(s & _ & _ & Hs & _)]]].
    + congruence.
    + auto.
    + discriminate.
Qed.

(** C7.  The temporary working area is created only when a destination
    store is configured, and then once: [tempfile.mkdtemp] is called once
    in a run that has a destination store and gets its remote directory,
    and never otherwise (never in local mode).  Its removal is attempted
    once whenever it was created, as the last call of [process_files],
    whether the loop over the filenames ran to its end or raised partway
    through; it is attempted in no other case. *)
Theorem working_area_lifecycle s3 fs path loc pre del ow st :
  let o := process_files B s3 fs path loc pre del ow st in
  let made := is_some s3 && selected B path st in
  count is_mkdtemp (events o) = (if made then 1 else 0)%nat
  /\ count is_rmtree (events o)
     = (if made && is_some (staging_dir B path st) then 1 else 0)%nat
  /\ forall d,
      made = true -> staging_dir B path st = Some d ->
      exists body, events o = (body ++ [EvRmtree d])%list.
Proof.
  cbv zeta.
  pose proof (process_files_run B s3 fs path loc pre del ow st) as H.
  cbv zeta in H. unfold staging_dir.
  assert (Hcd1 : count is_mkdtemp
                   (events (change_directory B path
                              (with_results empty_results st))) = 0%nat).
  { apply count_none. eapply Forall_impl; [|apply emits_change_directory].
    intros e ->. reflexivity. }
  assert (Hcd2 : count is_rmtree
                   (events (change_directory B path
                              (with_results empty_results st))) = 0%nat).
  { apply count_none. eapply Forall_impl; [|apply emits_change_directory].
    intros e ->. reflexivity. }
  assert (Hlp1 : forall s3' dir st',
             count is_mkdtemp
               (events (for_each fs (process_one B s3' dir pre del ow) st'))
             = 0%nat).
  { intros. apply count_none. eapply Forall_impl; [|apply emits_loop].
    intros e He. destruct e; try discriminate; reflexivity. }
  assert (Hlp2 : forall s3' dir st',
             count is_rmtree
               (events (for_each fs (process_one B s3' dir pre del ow) st'))
             = 0%nat).
  { intros. apply count_none. eapply Forall_impl; [|apply emits_loop].
    intros e He. destruct e; try discriminate; reflexivity. }
  destruct (selected B path st).
  2:{ destruct H as [H _]. rewrite H, Hcd1, Hcd2, andb_false_r.
      simpl. split; [reflexivity|]. split; [reflexivity|]. discriminate. }
  destruct s3 as [s|]; cbn [is_some andb].
  - destruct (snd (tempfile_mkdtemp B "ftp_download_" _)) as [d|e].
    + destruct H as [H _]. rewrite H. rewrite !count_app, Hcd1, Hcd2.
      rewrite Hlp1, Hlp2. simpl.
      split; [reflexivity|]. split; [reflexivity|].
      intros d' _ Hd. inversion Hd; subst d'.
      match goal with
      | |- exists _, (?c ++ _ :: ?l ++ _)%list = _ =>
          exists (c ++ [EvMkdtemp "ftp_download_"] ++ l)%list
      end.
      rewrite <- app_assoc. reflexivity.
    + destruct H as [H _]. rewrite H. rewrite !count_app, Hcd1, Hcd2.
      simpl. split; [reflexivity|]. split; [reflexivity|]. discriminate.
  - destruct (snd (path_mkdir B loc _)) as [[]|e].
    + destruct H as [H _]. rewrite H. rewrite !count_app, Hcd1, Hcd2.
      simpl. rewrite Hlp1, Hlp2.
      split; [reflexivity|]. split; [reflexivity|]. discriminate.
    + destruct H as [H _]. rewrite H. rewrite !count_app, Hcd1, Hcd2.
      simpl. split; [reflexivity|]. split; [reflexivity|]. discriminate.
Qed.
End RunResult.

(* ------------------------------------------------------------------ *)
(** ** The pipeline of one filename *)

Section Pipeline.
Context {W : Type} (B : Backend W).

Lemma run_results A (m : M W A) st st1 ev r :
  world_only m ->
  m st = {| final := st1; events := ev; result := r |} ->
  results st1 = results st /\ manager st1 = manager st.
Proof.
  intros Hw H. destruct (Hw st) as [H1 H2]. rewrite H in H1, H2. auto.
Qed.

Lemma run_events A P (m : M W A) st st1 ev r :
  emits P m ->
  m st = {| final := st1; events := ev; result := r |} ->
  Forall P ev.
Proof. intros He H. specialize (He st). rewrite H in He. exact He. Qed.

Arguments run_results {A m st st1 ev r} _ _.
Arguments run_events {A P m st st1 ev r} _ _.

Lemma emits_SFTP_file_exists f :
  emits (fun e => e = EvStat f) (SFTP_file_exists B f).
Proof. unfold SFTP_file_exists, with_sftp. effects; reflexivity. Qed.


Lemma emits_s3_precheck s3 ow k :
  emits (no is_transfer) (s3_precheck B s3 ow k).
Proof. unfold s3_precheck, S3_file_exists. effects. Qed.

Lemma emits_fetch s3 f dir :
  emits (no is_upload_or_delete) (fetch B s3 f dir).
Proof.
  unfold fetch, download_file_to_temp, download_file_to_local,
    stat_file_size, with_sftp.
  effects.
Qed.



(** C4.  A filename that was found, not skipped, downloaded and (with a
    destination store) uploaded, and whose deletion at the source is
    enabled and fails, is still recorded in [success], and is recorded in
    [sftp_delete_failed] as well: it is in both buckets. *)
Theorem failed_delete_keeps_success s3 dir pre ow f p
        st st1 ev1 st2 ev2 st3 ev3 st4 ev4 st5 ev5 :
  SFTP_file_exists B f st
  = {| final := st1; events := ev1; result := Ok true |} ->
  s3_precheck B s3 ow (s3_key_of pre f) st1
  = {| final := st2; events := ev2; result := Ok false |} ->
  fetch B s3 f dir st2
  = {| final := st3; events := ev3; result := Ok (Some p) |} ->
  truthy p = true ->
  deliver B s3 p (s3_key_of pre f) f st3
  = {| final := st4; events := ev4; result := Ok true |} ->
  delete_file B f st4
  = {| final := st5; events := ev5; result := Ok false |} ->
  let o := process_one B s3 dir pre true ow f st in
  result o = Ok tt
  /\ results (final o)
     = append_to success f (append_to sftp_delete_failed f (results st))
  /\ In f (r_success (results (final o)))
  /\ In f (r_sftp_delete_failed (results (final o))).
Proof.
  intros H1 H2 H3 Hp H4 H5 o.
  destruct (run_results (world_only_SFTP_file_exists B f) H1) as [R1 _].
  destruct (run_results (world_only_s3_precheck B s3 ow _) H2) as [R2 _].
  destruct (run_results (world_only_fetch B s3 f dir) H3) as [R3 _].
  destruct (run_results (world_only_delete_file B f) H5) as [R5 _].
  assert (R4 : results st4 = results st3).
  { destruct s3 as [s|]; simpl in H4.
    - destruct (upload_step_run B s p (s3_key_of pre f) f st3)
        as (w & ev & [H|H]); rewrite H in H4; inversion H4.
      reflexivity.
    - inversion H4. reflexivity. }
  assert (Ho : o = {| final := with_results
                        (append_to success f
                           (append_to sftp_delete_failed f (results st)))
                        st5;
                      events := events o; result := Ok tt |}).
  { subst o. unfold process_one, delete_and_mark. destruct s3 as [s|].
    - simpl in H4. run. unfold truthy_opt. rewrite Hp. run.
      unfold prefix, append_result. simpl.
      rewrite R5, R4, R3, R2, R1. reflexivity.
    - inversion H4; subst st4 ev4. run. unfold truthy_opt. rewrite Hp. run.
      unfold prefix, append_result. simpl.
      rewrite R5, R3, R2, R1. reflexivity. }
  rewrite Ho. simpl. split; [reflexivity|]. split; [reflexivity|].
  split; apply in_or_app; right; left; reflexivity.
Qed.
End Pipeline.

(* ------------------------------------------------------------------ *)
(** ** The filename source *)

Section FilenameSource.
Context {W : Type} (B : Backend W).

(** The row loop makes no call; it returns the stripped, non-empty values
    of the column after what it was given, or raises on the first row it
    cannot use. *)
Lemma read_rows_run col : forall rs acc st,
  exists r,
    read_rows (W:=W) rs col acc st
    = {| final := st; events := []; result := r |}
    /\ match column_values rs col with
       | Some vs => r = Ok (acc ++ filter truthy (map strip vs))%list
       | None => exists e, r = Raise e /\ e <> FileNotFoundError
       end.
Proof.
  induction rs as [|[flt|row] rs IH]; intros acc st; simpl.
  - eexists. split; [reflexivity|]. rewrite app_nil_r. reflexivity.
  - eexists. split; [reflexivity|]. exists (fault_exn flt).
    split; [reflexivity|]. destruct flt; discriminate.
  - destruct (row_get row col) as [[v|]|].
    + destruct (IH (if truthy (strip v) then (acc ++ [strip v])%list
                    else acc) st) as (r & Hrun & Hr).
      exists r. split; [exact Hrun|].
      destruct (column_values rs col) as [vs|]; [|exact Hr].
      subst r. simpl. destruct (truthy (strip v)).
      * rewrite <- app_assoc. reflexivity.
      * reflexivity.
    + eexists. split; [reflexivity|]. exists AttributeError.
      split; [reflexivity|discriminate].
    + eexists. split; [reflexivity|]. exists KeyError.
      split; [reflexivity|discriminate].
Qed.

(** C9.  [read_csv_filenames] returns one of three results, decided by the
    input: [None] (input absent) exactly when opening the file raises
    [FileNotFoundError]; the stripped non-empty names found under the
    column, in file order, when the file opens and every row can be read
    under a header that has the column; and the empty list in every other
    case (the file cannot be opened for another reason, the header or a
    row cannot be read, the column is missing).  It never raises, and
    [None] is returned for an absent input only. *)
Theorem read_csv_filenames_cases csv_path col st :
  let o := read_csv_filenames B csv_path col st in
  match snd (open_csv B csv_path (world st)) with
  | Raise FileNotFoundError => result o = Ok None
  | Raise _ => result o = Ok (Some [])
  | Ok reader =>
      match names_under reader col with
      | Some values =>
          result o = Ok (Some (filter truthy (map strip values)))
      | None => result o = Ok (Some [])
      end
  end
  /\ (result o = Ok None
      <-> snd (open_csv B csv_path (world st)) = Raise FileNotFoundError).
Proof.
  cbv zeta. unfold read_csv_filenames.
  pose proof (call_run (EvOpenCsv csv_path) (open_csv B csv_path) st) as Hc.
  destruct (snd (open_csv B csv_path (world st))) as [reader|e].
  - unfold names_under.
    assert (Hgoal : forall r0,
               result (try_except
                 (reader <- call (EvOpenCsv csv_path) (open_csv B csv_path);;
                  match fieldnames reader with
                  | inl f => raise (fault_exn f)
                  | inr None => raise TypeError
                  | inr (Some names) =>
                      if negb (existsb (String.eqb col) names)
                      then ret (Some [])
                      else filenames <- read_rows (rows reader) col [];;
                           ret (Some filenames)
                  end)
                 (fun e => match e with
                           | FileNotFoundError => Some (ret None)
                           | _ => Some (ret (Some []))
                           end) st) = r0 ->
               match
                 match fieldnames reader with
                 | inr (Some names) =>
                     if existsb (String.eqb col) names
                     then column_values (rows reader) col
                     else None
                 | _ => None
                 end
               with
               | Some values =>
                   r0 = Ok (Some (filter truthy (map strip values)))
               | None => r0 = Ok (Some [])
               end).
    { intros r0 <-. unfold try_except. rewrite (bind_Ok _ Hc).
      destruct (fieldnames reader) as [flt|[names|]].
      - destruct flt; reflexivity.
      - destruct (existsb (String.eqb col) names); simpl.
        + destruct (read_rows_run col (rows reader) []
                      (with_world (fst (open_csv B csv_path (world st))) st))
            as (r & Hrun & Hr).
          destruct (column_values (rows reader) col) as [vs|].
          * subst r. rewrite (bind_Ok _ Hrun). reflexivity.
          * destruct Hr as (e & -> & Hne). rewrite (bind_Raise _ Hrun).
            simpl. destruct e; try reflexivity. congruence.
        + reflexivity.
      - reflexivity. }
    specialize (Hgoal _ eq_refl). split.
    + exact Hgoal.
    + split; [|discriminate]. intros Hn.
      destruct (match fieldnames reader with
                | inr (Some names) =>
                    if existsb (String.eqb col) names
                    then column_values (rows reader) col
                    else None
                | _ => None
                end); rewrite Hn in Hgoal; discriminate.
  - unfold try_except. rewrite (bind_Raise _ Hc). simpl.
    destruct e; simpl; (split; [reflexivity|]);
      (split; [try discriminate; reflexivity | try discriminate; reflexivity]).
Qed.
End FilenameSource.

(* ------------------------------------------------------------------ *)
(** ** The entry point *)

Section EntryPoint.
Context {W : Type} (B : Backend W).

Lemma filter_none p l : Forall (no p) l -> filter p l = [].
Proof.
  unfold no. induction 1 as [|e l He _ IH]; simpl.
  - reflexivity.
  - rewrite He. exact IH.
Qed.

Lemma quiet_read_rows P col rs : forall acc,
  emits P (read_rows (W:=W) rs col acc).
Proof.
  induction rs as [|[flt|row] rs IH]; intros acc; simpl.
  - apply emits_ret.
  - apply emits_raise.
  - destruct (row_get row col) as [[v|]|]; [apply IH | |]; apply emits_raise.
Qed.

Lemma quiet_read_csv_filenames p col :
  emits (no is_summary) (read_csv_filenames B p col).
Proof.
  unfold read_csv_filenames. effects. apply quiet_read_rows.
Qed.

Lemma total_read_csv_filenames p col : total (read_csv_filenames B p col).
Proof. unfold read_csv_filenames. effects. Qed.

Lemma quiet_connect : emits (no is_summary) (connect B).
Proof. unfold connect, set_ssh, set_sftp. effects. Qed.

Lemma total_connect : total (connect B).
Proof. unfold connect. effects. Qed.

Lemma quiet_disconnect : emits (no is_summary) (disconnect B).
Proof. unfold disconnect. effects. Qed.

Lemma total_disconnect : total (disconnect B).
Proof. unfold disconnect. effects. Qed.

Lemma quiet_list_files_loop l : forall files,
  emits (no is_summary) (list_files_loop B l files).
Proof.
  induction l as [|item l IH]; intros files; simpl.
  - apply emits_ret.
  - unfold with_sftp. effects; apply IH.
Qed.

Lemma quiet_list_files : emits (no is_summary) (list_files B).
Proof.
  unfold list_files, with_sftp. effects; apply quiet_list_files_loop.
Qed.

Lemma total_list_files : total (list_files B).
Proof. unfold list_files. effects. Qed.

Lemma quiet_resolve_filenames args g fs :
  emits (no is_summary) (resolve_filenames B args g fs).
Proof.
  unfold resolve_filenames. destruct g; [|apply emits_ret].
  apply emits_bind.
  - eapply emits_impl; [|apply emits_change_directory].
    intros e ->. reflexivity.
  - intros sel. destruct sel; simpl; [|apply emits_ret].
    apply emits_bind; [apply quiet_list_files|].
    intros l. destruct (negb (nonempty l)); apply emits_ret.
Qed.

Lemma total_resolve_filenames args g fs :
  total (resolve_filenames B args g fs).
Proof.
  unfold resolve_filenames. destruct g; [|apply total_ret].
  apply total_bind; [apply total_change_directory|].
  intros sel. destruct sel; simpl; [|apply total_ret].
  apply total_bind; [apply total_list_files|].
  intros l. destruct (negb (nonempty l)); apply total_ret.
Qed.

Lemma quiet_process_files s3 fs path loc pre del ow :
  emits (no is_summary) (process_files B s3 fs path loc pre del ow).
Proof.
  unfold process_files. apply emits_bind; [apply emits_set_results|].
  intros _. apply emits_bind.
  { eapply emits_impl; [|apply emits_change_directory].
    intros e ->. reflexivity. }
  intros sel. destruct sel; simpl; [|apply emits_get_results].
  apply emits_bind; [destruct s3; simpl; effects|].
  intros dir. apply emits_bind; [destruct s3; simpl; effects|].
  intros _. apply emits_bind; [|intros _; apply emits_get_results].
  apply emits_try_finally.
  - eapply emits_impl; [|apply emits_loop].
    intros e He. destruct e; try discriminate; reflexivity.
  - unfold cleanup. destruct s3; simpl; effects.
Qed.

Lemma quiet_S3Manager_new b reg :
  emits (no is_summary) (S3Manager_new B b reg).
Proof. unfold S3Manager_new. effects. Qed.

(** The exit status, as a function of the two buckets it looks at. *)
Lemma exit_status_s3 r :
  exit_status true r
  = if nonempty (r_sftp_download_failed r)
       || nonempty (r_s3_upload_failed r) then 1 else 0.
Proof.
  unfold exit_status, total_failures, len.
  destruct (r_sftp_download_failed r), (r_s3_upload_failed r); simpl;
    try reflexivity;
    match goal with
    | |- (if ?c then _ else _) = _ =>
        replace c with true; [reflexivity|]
    end; symmetry; apply Z.gtb_lt; lia.
Qed.

Lemma exit_status_local r :
  r_s3_upload_failed r = [] ->
  exit_status false r
  = if nonempty (r_sftp_download_failed r)
       || nonempty (r_s3_upload_failed r) then 1 else 0.
Proof.
  intros H. rewrite H, orb_false_r.
  unfold exit_status, total_failures. rewrite len_zero. reflexivity.
Qed.

(** Lines 486-531: a report is printed at most once, for the results
    [process_files] returned, and the value is then their exit status. *)
Lemma run_report args s3 g fs st :
  let o := run B args (is_some s3) g s3 fs st in
  filter is_summary (events o) = []
  \/ exists r,
      filter is_summary (events o) = [EvPrintSummary r (is_some s3)]
      /\ result o
         = Ok (if nonempty (r_sftp_download_failed r)
                  || nonempty (r_s3_upload_failed r) then 1 else 0).
Proof.
  cbv zeta. unfold run.
  destruct (total_connect st) as [c Hc].
  pose proof (out_eta (connect B st)) as Ec. rewrite Hc in Ec.
  pose proof (filter_none (quiet_connect st)) as Fc.
  destruct c; cycle 1.
  { left. run. simpl. rewrite app_nil_r. exact Fc. }
  set (st1 := final (connect B st)) in *.
  destruct (total_resolve_filenames args g fs st1) as [rs Hrs].
  pose proof (out_eta (resolve_filenames B args g fs st1)) as Er.
  rewrite Hrs in Er.
  pose proof (filter_none (quiet_resolve_filenames args g fs st1)) as Fr.
  destruct rs as [code|fs']; cycle 1.
  - set (st2 := final (resolve_filenames B args g fs st1)) in *.
    pose proof (filter_none
                  (quiet_process_files s3 fs' (a_remote_path args)
                     (a_local_path args) (a_s3_prefix args)
                     (negb (a_no_delete args)) (a_overwrite_s3 args) st2))
      as Fp.
    pose proof (out_eta
                  (process_files B s3 fs' (a_remote_path args)
                     (a_local_path args) (a_s3_prefix args)
                     (negb (a_no_delete args)) (a_overwrite_s3 args) st2))
      as Ep.
    destruct (result (process_files B s3 fs' (a_remote_path args)
                        (a_local_path args) (a_s3_prefix args)
                        (negb (a_no_delete args)) (a_overwrite_s3 args)
                        st2)) as [r|e] eqn:Hp.
    + right. exists r. run. unfold prefix, ret. cbn [events result final].
      split; [rewrite !filter_app, Fc, Fr, Fp; reflexivity|].
      f_equal. destruct s3 as [s|].
      * apply exit_status_s3.
      * apply exit_status_local.
        apply (local_results_no_s3 _ _ _ _ _ _ _ _ Hp).
    + left. run. unfold prefix. cbn [events result final].
      rewrite !filter_app, Fc, Fr, Fp. reflexivity.
  - left. run. unfold prefix, ret. cbn [events result final].
    rewrite !filter_app, Fc, Fr. reflexivity.
Qed.

(** The S3 manager is there exactly when a bucket was given. *)
Lemma init_s3_run args u st :
  exists st1 ev r,
    init_s3 B args u st
    = {| final := st1; events := ev; result := Ok r |}
    /\ filter is_summary ev = []
    /\ match r with inl _ => True | inr s3 => is_some s3 = u end.
Proof.
  unfold init_s3. destruct u.
  - pose proof (out_eta (S3Manager_new B
                  (match a_s3_bucket args with
                   | Some b => b | None => EmptyString end)
                  (a_aws_region args) st)) as En.
    pose proof (filter_none (quiet_S3Manager_new
                  (match a_s3_bucket args with
                   | Some b => b | None => EmptyString end)
                  (a_aws_region args) st)) as Fn.
    destruct (result (S3Manager_new B _ _ st)) as [s3|e].
    + eexists _, _, (inr (Some s3)). split; [|split].
      * apply try_except_Ok. rewrite (bind_Ok _ En). reflexivity.
      * rewrite app_nil_r. exact Fn.
      * reflexivity.
    + eexists _, _, (inl 1). split; [|split].
      * rewrite (try_except_caught
                   (except_Exception (fun _ => ret (inl 1)))
                   (bind_Raise _ En) (k := ret (inl 1)) eq_refl).
        reflexivity.
      * cbn [ret events]. rewrite app_nil_r. exact Fn.
      * exact I.
  - eexists _, _, (inr None). split; [reflexivity|]. split; reflexivity.
Qed.

(** The part of [main] from the creation of the manager on. *)
Lemma main_tail_report args g fs st :
  let use_s3 := truthy_opt (a_s3_bucket args) in
  let tail :=
    (SFTPManager_new (a_sftp_host args) (a_sftp_user args)
                     (a_sftp_password args) (a_sftp_port args) ;;
     init <- init_s3 B args use_s3 ;;
     match init with
     | inl code => ret code
     | inr s3_manager =>
         try_finally (run B args use_s3 g s3_manager fs) (disconnect B)
     end) in
  filter is_summary (events (tail st)) = []
  \/ exists r,
      filter is_summary (events (tail st)) = [EvPrintSummary r use_s3]
      /\ result (tail st)
         = Ok (if nonempty (r_sftp_download_failed r)
                  || nonempty (r_s3_upload_failed r) then 1 else 0).
Proof.
  cbv zeta.
  assert (Hfin : forall s3 st',
    let o := try_finally (run B args (is_some s3) g s3 fs) (disconnect B)
                         st' in
    filter is_summary (events o) = []
    \/ exists r,
        filter is_summary (events o) = [EvPrintSummary r (is_some s3)]
        /\ result o
           = Ok (if nonempty (r_sftp_download_failed r)
                    || nonempty (r_s3_upload_failed r) then 1 else 0)).
  { intros s3 st'. cbv zeta.
    pose proof (out_eta (run B args (is_some s3) g s3 fs st')) as Er.
    destruct (total_disconnect
                (final (run B args (is_some s3) g s3 fs st'))) as [[] Hd].
    pose proof (out_eta (disconnect B
                  (final (run B args (is_some s3) g s3 fs st')))) as Ed.
    rewrite Hd in Ed.
    pose proof (filter_none (quiet_disconnect
                  (final (run B args (is_some s3) g s3 fs st')))) as Fd.
    rewrite (try_finally_run _ _ _ Er Ed). cbn [events result].
    rewrite filter_app, Fd, app_nil_r.
    apply run_report. }
  unfold SFTPManager_new. erewrite bind_Ok by reflexivity.
  set (st0 := with_manager _ st).
  destruct (init_s3_run args (truthy_opt (a_s3_bucket args)) st0)
    as (st1 & ev & r & Hi & Fi & Hr).
  rewrite (bind_Ok _ Hi). unfold prefix. cbn [events result app].
  rewrite filter_app, Fi. cbn [app].
  destruct r as [code|s3].
  - left. reflexivity.
  - rewrite <- Hr. apply Hfin.
Qed.

(** [main]: a report is printed at most once, and when one is, the exit
    status is the one of the results reported. *)
Lemma main_report args st :
  let o := main B args st in
  filter is_summary (events o) = []
  \/ exists r,
      filter is_summary (events o)
      = [EvPrintSummary r (truthy_opt (a_s3_bucket args))]
      /\ result o
         = Ok (if nonempty (r_sftp_download_failed r)
                  || nonempty (r_s3_upload_failed r) then 1 else 0).
Proof.
  cbv zeta. unfold main. cbv zeta.
  destruct (total_read_csv_filenames (a_csv_file args)
              (a_filename_column args) st) as [fns Hf].
  pose proof (out_eta (read_csv_filenames B (a_csv_file args)
                (a_filename_column args) st)) as Ef.
  rewrite Hf in Ef.
  pose proof (filter_none (quiet_read_csv_filenames (a_csv_file args)
                (a_filename_column args) st)) as Ff.
  rewrite (bind_Ok _ Ef). unfold prefix. cbn [events result].
  rewrite filter_app, Ff. cbn [app].
  destruct fns as [[|f fs]|].
  - left. reflexivity.
  - apply main_tail_report.
  - apply main_tail_report.
Qed.

(** C3.  Whenever a run gets as far as reporting a Run Result, the exit
    status of the process is 1 if the [sftp_download_failed] or the
    [s3_upload_failed] bucket of that result is non-empty, and 0
    otherwise, in local as in destination-store mode; what the other
    buckets ([sftp_not_found], [s3_already_exists], [sftp_delete_failed])
    hold has no part in it. *)
Theorem exit_status_reports_transfer_failures args st r u :
  In (EvPrintSummary r u) (events (main B args st)) ->
  result (main B args st)
  = Ok (if nonempty (r_sftp_download_failed r)
           || nonempty (r_s3_upload_failed r) then 1 else 0)
  /\ (result (main B args st) = Ok 1 <->
      r_sftp_download_failed r <> [] \/ r_s3_upload_failed r <> []).
Proof.
  intros Hin.
  assert (Hf : In (EvPrintSummary r u)
                  (filter is_summary (events (main B args st)))).
  { apply filter_In. split; [exact Hin | reflexivity]. }
  destruct (main_report args st) as [H|(r0 & H & Hres)];
    rewrite H in Hf; simpl in Hf.
  - contradiction.
  - destruct Hf as [Hf|[]]. inversion Hf; subst r0.
    split; [exact Hres|]. rewrite Hres.
    destruct (r_sftp_download_failed r), (r_s3_upload_failed r); simpl;
      split; intros H0; try discriminate; try reflexivity;
      try (left; discriminate); try (right; discriminate).
    destruct H0 as [H0|H0]; congruence.
Qed.
End EntryPoint.

(* ------------------------------------------------------------------ *)
(** ** Runs on the scripted backend *)

Module Runs.
Import Script.

(** The mixed scenario with a destination store: the run returns
    [mixed_results], and its primary buckets hold the six input names once
    each. *)
Lemma process_files_partitions_input_witness :
  result (process_files (backend mixed) (Some the_bucket) six_files
                        "/out" "./downloads" "in/" true false start)
  = Ok mixed_results
  /\ Permutation (primary mixed_results) six_files
  /\ forall f, In f six_files ->
               count_occ string_dec (primary mixed_results) f = 1%nat.
Proof.
  split; [reflexivity|].
  pose proof (process_files_partitions_input
                (backend mixed) (Some the_bucket) six_files
                "/out" "./downloads" "in/" true false start
                (r := mixed_results) eq_refl) as H.
  change (selected (backend mixed) "/out" start) with true in H.
  destruct H as [Hp Hc]. split; [exact Hp|]. apply Hc.
  unfold six_files.
  repeat (constructor; [simpl; intuition discriminate|]). constructor.
Defined.

(** [keep.csv] is downloaded and uploaded, its deletion fails: it is in
    [success] and in [sftp_delete_failed]. *)
Lemma failed_delete_keeps_success_witness :
  let o := process_one (backend mixed) (Some the_bucket)
                       "/tmp/ftp_download_x" "in/" true false "keep.csv"
                       start in
  result o = Ok tt
  /\ results (final o)
     = append_to success "keep.csv"
         (append_to sftp_delete_failed "keep.csv" empty_results)
  /\ In "keep.csv" (r_success (results (final o)))
  /\ In "keep.csv" (r_sftp_delete_failed (results (final o))).
Proof.
  apply failed_delete_keeps_success
    with (p := "/tmp/ftp_download_x/keep.csv")
         (st1 := start) (st2 := start) (st3 := start) (st4 := start)
         (st5 := start)
         (ev1 := [EvStat "keep.csv"])
         (ev2 := [EvHeadObject "bucket" "in/keep.csv"])
         (ev3 := [EvStat "keep.csv";
                  EvGet "keep.csv" "/tmp/ftp_download_x/keep.csv"])
         (ev4 := [EvUpload "/tmp/ftp_download_x/keep.csv" "bucket"
                           "in/keep.csv";
                  EvOsRemove "/tmp/ftp_download_x/keep.csv"])
         (ev5 := [EvRemove "keep.csv"]);
    reflexivity.
Defined.



(** Of the five rows of the spaced CSV file three give a name, without
    its padding, whatever the white space; the cell that holds a no-break
    space only gives none. *)
Lemma read_csv_filenames_cases_witness :
  result (read_csv_filenames (backend spaced) "files.csv" "filename" start)
  = Ok (Some ["a.csv"; "b.csv"; "menu_" ++ a_grave])
  /\ strip no_break_space = EmptyString
  /\ strip (no_break_space ++ " a.csv" ++ em_space) = "a.csv"
  /\ strip ("menu_" ++ a_grave) = "menu_" ++ a_grave.
Proof.
  split; [|repeat split; reflexivity].
  exact (proj1 (read_csv_filenames_cases (backend spaced) "files.csv"
                  "filename" start)).
Defined.

(** The mixed scenario through [main], with a destination store: the
    report shows [mixed_results], whose download-failed and upload-failed
    buckets are not empty, and the exit status is 1. *)
Lemma exit_status_reports_transfer_failures_witness :
  In (EvPrintSummary mixed_results true)
     (events (main (backend mixed) args_s3 start))
  /\ result (main (backend mixed) args_s3 start) = Ok 1.
Proof.
  assert (Hin : In (EvPrintSummary mixed_results true)
                   (events (main (backend mixed) args_s3 start))).
  { vm_compute. do 35 right. left. reflexivity. }
  split; [exact Hin|].
  exact (proj1 (@exit_status_reports_transfer_failures
                  _ (backend mixed) args_s3 start _ _ Hin)).
Defined.

(** A run whose loop raises at the second of three files: the staging
    directory is made once and its removal is the last call all the
    same. *)
Lemma working_area_lifecycle_witness :
  let o := process_files (backend unreachable) (Some the_bucket)
                         ["a.csv"; "b.csv"; "c.csv"]
                         "/out" "./downloads" "in/" true false start in
  result o = Raise (OtherException "EndpointConnectionError")
  /\ count is_mkdtemp (events o) = 1%nat
  /\ count is_rmtree (events o) = 1%nat
  /\ exists body,
      events o = (body ++ [EvRmtree "/tmp/ftp_download_x"])%list.
Proof.
  cbv zeta. split; [reflexivity|].
  pose proof (working_area_lifecycle
                (backend unreachable) (Some the_bucket)
                ["a.csv"; "b.csv"; "c.csv"]
                "/out" "./downloads" "in/" true false start) as H.
  cbv zeta in H. destruct H as (H1 & H2 & H3).
  split; [exact H1|]. split; [exact H2|].
  apply H3; reflexivity.
Defined.

(** C8 (defect of the code).  A fault of the destination existence check
    that is not a [ClientError] is caught nowhere: it leaves
    [S3Manager.file_exists], the loop, [process_files] and [main].  Here
    [head_object] fails for the second of three files: [process_files]
    raises, no Run Result is returned although [a.csv] has been uploaded
    and deleted at the source, [c.csv] is never looked at, and [main]
    ends with the exception instead of an exit status. *)
Theorem s3_existence_fault_escapes :
  let fault := OtherException "EndpointConnectionError" in
  result (S3_file_exists (backend unreachable) the_bucket "in/b.csv" start)
  = Raise fault
  /\ result (for_each ["a.csv"; "b.csv"; "c.csv"]
               (process_one (backend unreachable) (Some the_bucket)
                            "/tmp/ftp_download_x" "in/" true false)
               start)
     = Raise fault
  /\ result (process_files (backend unreachable) (Some the_bucket)
               ["a.csv"; "b.csv"; "c.csv"]
               "/out" "./downloads" "in/" true false start)
     = Raise fault
  /\ In (EvRemove "a.csv")
        (events (process_files (backend unreachable) (Some the_bucket)
                   ["a.csv"; "b.csv"; "c.csv"]
                   "/out" "./downloads" "in/" true false start))
  /\ ~ In (EvStat "c.csv")
        (events (process_files (backend unreachable) (Some the_bucket)
                   ["a.csv"; "b.csv"; "c.csv"]
                   "/out" "./downloads" "in/" true false start))
  /\ result (main (backend unreachable) args_s3 start) = Raise fault.
Proof.
  cbv zeta. repeat split; try reflexivity.
  - vm_compute. do 8 right. left. reflexivity.
  - vm_compute. intuition discriminate.
Qed.

(** C2 (defect of the code).  With the CSV file present, a remote
    directory that cannot be selected does not fail the run:
    [process_files] returns the empty results, they are reported, and
    [main] returns 0.  When the CSV file is absent, [main] selects the
    directory itself and returns 1 on the same failure. *)
Theorem failed_directory_selection_exits_zero :
  result (process_files (backend (no_directory true)) None ["a.csv"]
                        "/out" "./downloads" EmptyString true false start)
  = Ok empty_results
  /\ In (EvPrintSummary empty_results false)
        (events (main (backend (no_directory true)) args_local start))
  /\ result (main (backend (no_directory true)) args_local start) = Ok 0
  /\ result (main (backend (no_directory false)) args_local start) = Ok 1.
Proof.
  repeat split; try reflexivity.
  vm_compute. do 4 right. left. reflexivity.
Qed.
End Runs.

(* ------------------------------------------------------------------ *)
(** ** Behaviour of the SFTP manager *)

Section ManagerBehaviour.
Context {W : Type} (B : Backend W).

Lemma connect_run st :
  let m := manager st in
  let c1 := ssh_connect B (m_host m) (m_port m) (m_username m)
                        (m_password m) (world st) in
  let c2 := ssh_open_sftp B (fst c1) in
  let both := is_ok (snd c1) && is_ok (snd c2) in
  let o := connect B st in
  result o = Ok both
  /\ m_ssh (manager (final o)) = true
  /\ m_sftp (manager (final o)) = (both || m_sftp m)
  /\ events o = (if is_ok (snd c1)
                 then [EvSshConnect (m_host m) (m_port m); EvOpenSftp]
                 else [EvSshConnect (m_host m) (m_port m)])
  /\ results (final o) = results st
  /\ m_host (manager (final o)) = m_host m
  /\ m_username (manager (final o)) = m_username m
  /\ m_password (manager (final o)) = m_password m
  /\ m_port (manager (final o)) = m_port m.
Proof.
  cbv beta iota zeta delta
      [connect try_except bind set_ssh set_sftp call get_manager set_manager
       except_Exception ret final events result manager world with_manager
       with_world m_host m_port m_username m_password m_ssh m_sftp results
       app].
  match goal with
  | |- context [ssh_connect B ?h ?p ?u ?pw ?w] =>
      destruct (ssh_connect B h p u pw w) as [w1 [[]|e1]]
  end; simpl.
  - destruct (ssh_open_sftp B w1) as [w2 [[]|e2]]; simpl;
      repeat split; reflexivity.
  - repeat split; reflexivity.
Qed.

(** X1.  [connect] never raises.  It returns [True] exactly when the SSH
    connection and the SFTP channel both open, and the manager then holds
    both handles.  Whatever the outcome, [self.ssh] is set once [connect]
    has run, so that [disconnect] will close it; [self.sftp] is set by a
    successful [connect] only.  The channel is not asked for when the
    connection failed.  The results dict and the host, user name, password
    and port of the manager are left as they were. *)
Theorem connect_outcome st :
  let m := manager st in
  let c1 := ssh_connect B (m_host m) (m_port m) (m_username m)
                        (m_password m) (world st) in
  let c2 := ssh_open_sftp B (fst c1) in
  let both := is_ok (snd c1) && is_ok (snd c2) in
  let o := connect B st in
  result o = Ok both
  /\ m_ssh (manager (final o)) = true
  /\ m_sftp (manager (final o)) = (both || m_sftp m)
  /\ events o = (if is_ok (snd c1)
                 then [EvSshConnect (m_host m) (m_port m); EvOpenSftp]
                 else [EvSshConnect (m_host m) (m_port m)])
  /\ results (final o) = results st
  /\ m_host (manager (final o)) = m_host m
  /\ m_username (manager (final o)) = m_username m
  /\ m_password (manager (final o)) = m_password m
  /\ m_port (manager (final o)) = m_port m.
Proof. exact (connect_run st). Qed.

Lemma disconnect_run st :
  let o := disconnect B st in
  result o = Ok tt
  /\ events o = ((if m_sftp (manager st) then [EvSftpClose] else [])
                 ++ (if m_ssh (manager st) then [EvSshClose] else []))%list
  /\ manager (final o) = manager st
  /\ results (final o) = results st.
Proof.
  destruct st as [w [h u p po ssh sftp] r].
  cbv beta iota zeta delta
      [disconnect try_except bind call get_manager except_all ret final
       events result manager world with_world results m_sftp m_ssh].
  destruct sftp, ssh;
    repeat match goal with
    | |- context [sftp_close B ?w] =>
        destruct (sftp_close B w) as [? [[]|?]]
    | |- context [ssh_close B ?w] =>
        destruct (ssh_close B w) as [? [[]|?]]
    end;
    simpl; repeat split; reflexivity.
Qed.

(** X2.  [disconnect] never raises, whatever the two [close] calls do.  It
    closes exactly the handles that are set, the SFTP channel before the SSH
    connection, and leaves the manager as it was: the handles are not
    reset. *)
Theorem disconnect_closes_open_handles st :
  let o := disconnect B st in
  result o = Ok tt
  /\ events o = ((if m_sftp (manager st) then [EvSftpClose] else [])
                 ++ (if m_ssh (manager st) then [EvSshClose] else []))%list
  /\ manager (final o) = manager st
  /\ results (final o) = results st.
Proof. exact (disconnect_run st). Qed.

Lemma with_world_same (st : State W) : with_world (world st) st = st.
Proof. destruct st; reflexivity. Qed.

Lemma with_sftp_set A (op : M W A) st :
  m_sftp (manager st) = true -> with_sftp op st = op st.
Proof.
  intros Hm. unfold with_sftp, bind, get_manager. cbn [final events result].
  rewrite Hm. destruct (op st) as [s e [a|x]]; reflexivity.
Qed.

Lemma with_sftp_unset A (op : M W A) st :
  m_sftp (manager st) = false ->
  with_sftp op st
  = {| final := st; events := []; result := Raise AttributeError |}.
Proof.
  intros Hm. unfold with_sftp, bind, get_manager. cbn [final events result].
  rewrite Hm. reflexivity.
Qed.

Arguments with_sftp_set {A} op {st} _.
Arguments with_sftp_unset {A} op {st} _.

(** The loop of [list_files] when [stat] answers by name alone. *)
Lemma list_files_loop_pure stat_of :
  (forall f w, sftp_stat B f w = (w, stat_of f)) ->
  forall l files st,
    m_sftp (manager st) = true ->
    list_files_loop B l files st
    = {| final := st; events := map EvStat l;
         result := Ok (files ++ filter (keeps_entry stat_of) l)%list |}.
Proof.
  intros Hstat. induction l as [|item l IH]; intros files st Hm; simpl.
  - rewrite app_nil_r. reflexivity.
  - assert (Hk : try_except
                   (s <- with_sftp (call (EvStat item) (sftp_stat B item));;
                    ret (negb (S_ISDIR (st_mode s))))
                   (except_all (ret (contains_dot item))) st
                 = {| final := st; events := [EvStat item];
                      result := Ok (keeps_entry stat_of item) |}).
    { pose proof (call_run (EvStat item) (sftp_stat B item) st) as Hc.
      rewrite Hstat in Hc. cbn [fst snd] in Hc.
      rewrite with_world_same in Hc.
      rewrite <- (with_sftp_set _ Hm) in Hc.
      unfold keeps_entry. destruct (stat_of item) as [s|e].
      - apply try_except_Ok. rewrite (bind_Ok _ Hc). reflexivity.
      - rewrite (try_except_caught (except_all (ret (contains_dot item)))
                   (bind_Raise _ Hc) (k := ret (contains_dot item)) eq_refl).
        reflexivity. }
    rewrite (bind_Ok _ Hk). rewrite IH by exact Hm.
    unfold prefix. cbn [final events result app].
    destruct (keeps_entry stat_of item); [rewrite <- app_assoc|];
      reflexivity.
Qed.

(** X3.  [list_files] never raises.  When [stat] answers by name alone, it
    returns the directory listing filtered, in order, to the entries that
    are not directories or, where [stat] fails, have a dot in their name;
    it returns the empty list when the listing itself fails or when the
    manager has no SFTP channel. *)
Theorem list_files_keeps_files stat_of st :
  (forall f w, sftp_stat B f w = (w, stat_of f)) ->
  result (list_files B st)
  = Ok (if m_sftp (manager st)
        then match snd (sftp_listdir B (world st)) with
             | Ok l => filter (keeps_entry stat_of) l
             | Raise _ => []
             end
        else []).
Proof.
  intros Hstat. unfold list_files.
  destruct (m_sftp (manager st)) eqn:Hm.
  - pose proof (call_run EvListdir (sftp_listdir B) st) as Hc.
    rewrite <- (with_sftp_set _ Hm) in Hc.
    destruct (snd (sftp_listdir B (world st))) as [l|e].
    + unfold try_except. rewrite (bind_Ok _ Hc).
      rewrite (@list_files_loop_pure stat_of Hstat) by exact Hm.
      reflexivity.
    + unfold try_except. rewrite (bind_Raise _ Hc). reflexivity.
  - unfold try_except.
    rewrite (bind_Raise _ (with_sftp_unset _ Hm)). reflexivity.
Qed.
(** X4.  The methods of the two manager classes that write nothing to
    standard output ([connect], [disconnect], [change_directory],
    [file_exists], [delete_file] and [list_files] of [SFTPManager], and
    [upload_file] of [S3Manager]) let no exception of the libraries
    underneath out, whether or not the manager is connected: a failure is
    reported through the value returned ([False] or the empty list).
    ([S3Manager.file_exists] is not among them: it handles [ClientError]
    only.  Nor are the two download methods, whose handlers call
    [print].) *)
Theorem manager_methods_never_raise st :
  (exists b, result (connect B st) = Ok b)
  /\ result (disconnect B st) = Ok tt
  /\ (forall p, exists b, result (change_directory B p st) = Ok b)
  /\ (forall f, exists b, result (SFTP_file_exists B f st) = Ok b)
  /\ (forall f, exists b, result (delete_file B f st) = Ok b)
  /\ (exists l, result (list_files B st) = Ok l)
  /\ (forall s p k, exists b, result (upload_file B s p k st) = Ok b).
Proof.
  split; [apply (total_connect B)|].
  split; [apply (disconnect_run st)|].
  split; [intros p; apply (total_change_directory B)|].
  split; [intros f; apply (total_SFTP_file_exists B)|].
  split; [intros f; apply (total_delete_file B)|].
  split; [apply (total_list_files B)|].
  intros s p k. apply (total_upload_file B).
Qed.
End ManagerBehaviour.

Arguments with_sftp_set {W A} op {st} _.
Arguments with_sftp_unset {W A} op {st} _.

(* ------------------------------------------------------------------ *)
(** ** Outcomes of the iterations *)

Ltac allow :=
  let e := fresh "e" in
  let He := fresh "He" in
  intros e He; unfold no in He; cbn [may_call]; rewrite He; reflexivity.

Section Outcomes.
Context {W : Type} (B : Backend W).

Lemma emits_upload_step s p k f :
  emits (no is_delete) (upload_step B s p k f).
Proof. unfold upload_step, upload_file. effects. Qed.

(** Every delete call of an iteration is the removal of its own file. *)
Lemma emits_own_removal s3 dir pre del ow f :
  emits (fun e => is_delete e = true -> e = EvRemove f)
        (process_one B s3 dir pre del ow f).
Proof.
  unfold process_one, s3_precheck, fetch, upload_step, delete_and_mark,
    SFTP_file_exists, S3_file_exists, download_file_to_temp,
    download_file_to_local, stat_file_size, upload_file, delete_file,
    with_sftp.
  effects; try reflexivity; discriminate.
Qed.

(** An iteration that returns has one of the six outcomes, one the
    configuration allows; it wrote what the outcome says and made only calls
    the outcome allows. *)
Lemma process_one_outcome s3 dir pre del ow f st :
  let o := process_one B s3 dir pre del ow f st in
  result o = Ok tt ->
  exists oc,
    possible (is_some s3) del ow oc = true
    /\ results (final o) = record oc f (results st)
    /\ Forall (fun e => may_call oc e = true) (events o).
Proof.
  cbv zeta. unfold process_one.
  destruct (method_run (world_only_SFTP_file_exists B f)
                       (total_SFTP_file_exists B f) st)
    as (w1 & ev1 & found & H1).
  assert (E1 : Forall (no is_transfer) ev1).
  { eapply Forall_impl;
      [|exact (@run_events _ _ _ _ _ _ _ _ (emits_SFTP_file_exists B f) H1)].
    intros e ->. reflexivity. }
  destruct found; cycle 1.
  { run. simpl. intros _. exists NotFoundAtSource.
    split; [reflexivity|]. split; [reflexivity|].
    rewrite app_nil_r. eapply Forall_impl; [|exact E1]. allow. }
  destruct (world_only_run
              (world_only_s3_precheck B s3 ow (s3_key_of pre f))
              (with_world w1 st)) as (w2 & ev2 & r2 & H2).
  pose proof (@run_events _ _ _ _ _ _ _ _
                (emits_s3_precheck B s3 ow (s3_key_of pre f)) H2) as E2.
  destruct r2 as [already|e]; cycle 1.
  { run. simpl. discriminate. }
  destruct already.
  { run. simpl. intros _. exists AlreadyAtDestination.
    split; [|split; [reflexivity|]].
    - unfold s3_precheck in H2. destruct s3 as [s|]; [|discriminate].
      destruct ow; [discriminate|reflexivity].
    - rewrite app_nil_r. apply Forall_app. split;
        (eapply Forall_impl; [|eassumption]); allow. }
  destruct (method_run (world_only_fetch B s3 f dir) (total_fetch B s3 f dir)
                       (with_world w2 (with_world w1 st)))
    as (w3 & ev3 & file_path & H3).
  pose proof (@run_events _ _ _ _ _ _ _ _ (emits_fetch B s3 f dir) H3) as E3.
  assert (E12 : Forall (no is_upload_or_delete) (ev1 ++ ev2)).
  { apply Forall_app. split; (eapply Forall_impl; [|eassumption]);
      unfold no, is_transfer, is_upload_or_delete; intros e He;
      (destruct (is_fetch e); [discriminate|exact He]). }
  destruct (truthy_opt file_path) eqn:Hp; cycle 1.
  { run. rewrite Hp. run. simpl. intros _. exists SourceFetchFailed.
    split; [reflexivity|]. split; [reflexivity|].
    rewrite app_nil_r, app_assoc. apply Forall_app. split;
      (eapply Forall_impl; [|eassumption]); allow. }
  assert (E123 : Forall (no is_delete) (ev1 ++ ev2 ++ ev3)).
  { rewrite app_assoc. apply Forall_app. split;
      (eapply Forall_impl; [|eassumption]);
      unfold no, is_upload_or_delete; intros e He;
      (destruct (is_upload e); [discriminate|exact He]). }
  destruct s3 as [s|].
  - destruct (upload_step_run B s
                (match file_path with Some p => p | None => EmptyString end)
                (s3_key_of pre f) f
                (with_world w3 (with_world w2 (with_world w1 st))))
      as (w4 & ev4 & [H4|H4]).
    + destruct (delete_and_mark_run B del f
                  (with_world w4
                     (with_world w3 (with_world w2 (with_world w1 st)))))
        as (w5 & ev5 & [H5|[Hd H5]]);
        run; rewrite Hp; run; rewrite H5; simpl; intros _.
      * exists Success. split; [reflexivity|]. split; [reflexivity|].
        apply Forall_forall. reflexivity.
      * exists SuccessDeleteFailed. split; [exact Hd|].
        split; [reflexivity|]. apply Forall_forall. reflexivity.
    + pose proof (@run_events _ _ _ _ _ _ _ _
                    (emits_upload_step s _ (s3_key_of pre f) f) H4) as E4.
      run. rewrite Hp. run. simpl. intros _. exists DestinationWriteFailed.
      split; [reflexivity|]. split; [reflexivity|].
      rewrite app_nil_r.
      replace (ev1 ++ ev2 ++ ev3 ++ ev4)%list
        with ((ev1 ++ ev2 ++ ev3) ++ ev4)%list
        by (rewrite <- !app_assoc; reflexivity).
      apply Forall_app. split; (eapply Forall_impl; [|eassumption]); allow.
  - destruct (delete_and_mark_run B del f
                  (with_world w3 (with_world w2 (with_world w1 st))))
        as (w5 & ev5 & [H5|[Hd H5]]);
        run; rewrite Hp; tidy; rewrite H5; simpl; intros _.
    + exists Success. split; [reflexivity|]. split; [reflexivity|].
      apply Forall_forall. reflexivity.
    + exists SuccessDeleteFailed. split; [exact Hd|].
      split; [reflexivity|]. apply Forall_forall. reflexivity.
Qed.
End Outcomes.

(* ------------------------------------------------------------------ *)
(** ** The loop, outcome by outcome *)

Section LoopOutcomes.
Context {W : Type} (B : Backend W).

Lemma bucket_record b oc f r :
  bucket b (record oc f r) = bucket b r
  \/ bucket b (record oc f r) = (bucket b r ++ [f])%list.
Proof. destruct oc, b; simpl; auto. Qed.

Lemma Subseq_nil_l A (l : list A) : Subseq [] l.
Proof. induction l; constructor; assumption. Qed.

(** A property of the results dict that every allowed outcome keeps is kept
    by the loop. *)
Lemma loop_preserves (Q : Results -> Prop) s3 dir pre del ow :
  (forall oc f r,
      possible (is_some s3) del ow oc = true -> Q r -> Q (record oc f r)) ->
  forall fs st,
    Q (results st) ->
    result (for_each fs (process_one B s3 dir pre del ow) st) = Ok tt ->
    Q (results (final (for_each fs (process_one B s3 dir pre del ow) st))).
Proof.
  intros HQ. induction fs as [|f fs IH]; intros st H0 Hok; simpl in *.
  - exact H0.
  - destruct (result (process_one B s3 dir pre del ow f st)) as [[]|e] eqn:E.
    + destruct (bind_final
                  (fun _ => for_each fs (process_one B s3 dir pre del ow)) E)
        as (Hf & _ & Hres).
      rewrite Hf. rewrite Hres in Hok. apply IH; [|exact Hok].
      destruct (process_one_outcome B s3 dir pre del ow f st E)
        as (oc & Hp & Hr & _).
      rewrite Hr. apply HQ; assumption.
    + rewrite bind_Raise_proj with (e := e) in Hok by exact E.
      discriminate.
Qed.

(** Each bucket grows by a subsequence of the filenames the loop is given. *)
Lemma loop_buckets s3 dir pre del ow b : forall fs st,
  result (for_each fs (process_one B s3 dir pre del ow) st) = Ok tt ->
  exists l,
    bucket b (results (final (for_each fs (process_one B s3 dir pre del ow)
                                       st)))
    = (bucket b (results st) ++ l)%list
    /\ Subseq l fs.
Proof.
  induction fs as [|f fs IH]; intros st Hok; simpl in *.
  - exists []. rewrite app_nil_r. split; [reflexivity|constructor].
  - destruct (result (process_one B s3 dir pre del ow f st)) as [[]|e] eqn:E.
    + destruct (bind_final
                  (fun _ => for_each fs (process_one B s3 dir pre del ow)) E)
        as (Hf & _ & Hres).
      rewrite Hf. rewrite Hres in Hok.
      destruct (IH _ Hok) as (l & Hl & Hs). rewrite Hl.
      destruct (process_one_outcome B s3 dir pre del ow f st E)
        as (oc & _ & Hr & _).
      rewrite Hr. destruct (bucket_record b oc f (results st)) as [Hb|Hb];
        rewrite Hb.
      * exists l. split; [reflexivity|]. apply Subseq_skip. exact Hs.
      * exists (f :: l). rewrite <- app_assoc. split; [reflexivity|].
        apply Subseq_take. exact Hs.
    + rewrite bind_Raise_proj with (e := e) in Hok by exact E.
      discriminate.
Qed.

(** A removal at the source is made for a file that ends in [success]. *)
Lemma loop_removals s3 dir pre del ow x : forall fs st,
  result (for_each fs (process_one B s3 dir pre del ow) st) = Ok tt ->
  In (EvRemove x)
     (events (for_each fs (process_one B s3 dir pre del ow) st)) ->
  In x (r_success
          (results (final (for_each fs (process_one B s3 dir pre del ow)
                                    st)))).
Proof.
  induction fs as [|f fs IH]; intros st Hok Hin; simpl in *.
  - contradiction.
  - destruct (result (process_one B s3 dir pre del ow f st)) as [[]|e] eqn:E.
    + destruct (bind_final
                  (fun _ => for_each fs (process_one B s3 dir pre del ow)) E)
        as (Hf & Hev & Hres).
      rewrite Hf. rewrite Hres in Hok. rewrite Hev in Hin.
      apply in_app_or in Hin. destruct Hin as [Hin|Hin].
      * destruct (loop_buckets s3 dir pre del ow success fs _ Hok)
          as (l & Hl & _).
        simpl in Hl. rewrite Hl. apply in_or_app. left.
        destruct (process_one_outcome B s3 dir pre del ow f st E)
          as (oc & _ & Hr & Hc).
        pose proof (proj1 (Forall_forall _ _)
                      (emits_own_removal B s3 dir pre del ow f st) _ Hin
                      eq_refl) as Hx.
        inversion Hx; subst x.
        pose proof (proj1 (Forall_forall _ _) Hc _ Hin) as Hm.
        rewrite Hr. destruct oc; simpl in Hm; try discriminate; simpl;
          apply in_or_app; right; left; reflexivity.
      * apply IH; assumption.
    + rewrite bind_Raise_proj with (e := e) in Hok by exact E.
      discriminate.
Qed.

(** The calls of [process_files] are those of its set-up and clean-up and
    those of the iterations. *)
Lemma emits_process_files (P : Event -> Prop) s3 fs path loc pre del ow :
  (forall e, is_setup_call e = true -> P e) ->
  (forall dir f, emits P (process_one B s3 dir pre del ow f)) ->
  emits P (process_files B s3 fs path loc pre del ow).
Proof.
  intros Hs Hb. unfold process_files.
  apply emits_bind; [apply emits_set_results|].
  intros _. apply emits_bind.
  { eapply emits_impl; [|apply emits_change_directory].
    intros e ->. apply Hs. reflexivity. }
  intros sel. destruct sel; simpl; [|apply emits_get_results].
  apply emits_bind.
  { destruct s3; simpl; [apply emits_call; apply Hs; reflexivity
                        |apply emits_ret]. }
  intros dir. apply emits_bind.
  { destruct s3; simpl; [apply emits_ret
                        |apply emits_call; apply Hs; reflexivity]. }
  intros _. apply emits_bind; [|intros _; apply emits_get_results].
  apply emits_try_finally.
  - apply emits_for_each. intros f. apply Hb.
  - unfold cleanup. destruct s3; simpl; [|apply emits_ret].
    apply emits_try_except; [apply emits_call; apply Hs; reflexivity|].
    intros e. apply emits_ret.
Qed.

(** The trace of a run that returned after its directory was selected:
    set-up calls, the calls of the loop, clean-up calls. *)
Lemma process_files_trace s3 fs path loc pre del ow st r :
  result (process_files B s3 fs path loc pre del ow st) = Ok r ->
  selected B path st = true ->
  exists dir st2 before after,
    results st2 = empty_results
    /\ result (for_each fs (process_one B s3 dir pre del ow) st2) = Ok tt
    /\ r = results (final (for_each fs (process_one B s3 dir pre del ow)
                                    st2))
    /\ events (process_files B s3 fs path loc pre del ow st)
       = (before
          ++ events (for_each fs (process_one B s3 dir pre del ow) st2)
          ++ after)%list
    /\ Forall (fun e => is_setup_call e = true) before
    /\ Forall (fun e => is_setup_call e = true) after.
Proof.
  intros Hr Hsel.
  pose proof (process_files_run B s3 fs path loc pre del ow st) as H.
  cbv zeta in H. rewrite Hsel in H.
  destruct (world_only_change_directory B path
              (with_results empty_results st)) as [_ Hres].
  assert (Hcd : Forall (fun e => is_setup_call e = true)
                       (events (change_directory B path
                                  (with_results empty_results st)))).
  { eapply Forall_impl; [|apply emits_change_directory].
    intros e ->. reflexivity. }
  destruct s3 as [s|].
  - destruct (snd (tempfile_mkdtemp B "ftp_download_" _)) as [d|e].
    + destruct H as [Hev H]. rewrite Hr in H.
      destruct (result (for_each fs _ _)) as [[]|e] eqn:E; [|discriminate].
      eexists d, _, (_ ++ [EvMkdtemp "ftp_download_"])%list, [EvRmtree d].
      split; [|split; [exact E|split; [congruence|split; [|split]]]].
      * exact Hres.
      * rewrite Hev, <- app_assoc. reflexivity.
      * apply Forall_app. split; [exact Hcd|].
        constructor; [reflexivity|constructor].
      * constructor; [reflexivity|constructor].
    + destruct H as [_ H]. congruence.
  - destruct (snd (path_mkdir B loc _)) as [[]|e].
    + destruct H as [Hev H]. rewrite Hr in H.
      destruct (result (for_each fs _ _)) as [[]|e] eqn:E; [|discriminate].
      eexists loc, _, (_ ++ [EvMkdir loc])%list, [].
      split; [|split; [exact E|split; [congruence|split; [|split]]]].
      * exact Hres.
      * rewrite Hev, app_nil_r, <- app_assoc. reflexivity.
      * apply Forall_app. split; [exact Hcd|].
        constructor; [reflexivity|constructor].
      * constructor.
    + destruct H as [_ H]. congruence.
Qed.
End LoopOutcomes.

(* ------------------------------------------------------------------ *)
(** ** Further properties of [process_files] *)

Section RunProperties.
Context {W : Type} (B : Backend W).

(** A property of the results dict that holds of the empty dict and that
    every allowed outcome keeps holds of what [process_files] returns. *)
Lemma process_files_keeps (Q : Results -> Prop) s3 fs path loc pre del ow
      st r :
  Q empty_results ->
  (forall oc f r0,
      possible (is_some s3) del ow oc = true -> Q r0 -> Q (record oc f r0)) ->
  result (process_files B s3 fs path loc pre del ow st) = Ok r ->
  Q r.
Proof.
  intros H0 HQ Hr. destruct (selected B path st) eqn:Hsel.
  - destruct (@process_files_result _ B _ _ _ _ _ _ _ _ _ Hr Hsel)
      as (dir & st2 & Hempty & Hok & ->).
    apply (loop_preserves B Q s3 dir pre del ow HQ); [|exact Hok].
    rewrite Hempty. exact H0.
  - pose proof (process_files_run B s3 fs path loc pre del ow st) as H.
    cbv zeta in H. rewrite Hsel in H. destruct H as [_ H].
    rewrite Hr in H. inversion H. exact H0.
Qed.

Lemma emits_process_one_no_delete s3 dir pre ow f :
  emits (no is_delete) (process_one B s3 dir pre false ow f).
Proof.
  unfold process_one, s3_precheck, fetch, upload_step, delete_and_mark,
    SFTP_file_exists, S3_file_exists, download_file_to_temp,
    download_file_to_local, stat_file_size, upload_file, with_sftp.
  effects.
Qed.

(** X5.  With deletion disabled ([--no-delete]), [process_files] never asks the
    source to remove a file, whatever happens, and the results it returns
    have an empty [sftp_delete_failed] bucket. *)
Theorem no_delete_never_removes s3 fs path loc pre ow st :
  let o := process_files B s3 fs path loc pre false ow st in
  Forall (no is_delete) (events o)
  /\ match result o with
     | Ok r => r_sftp_delete_failed r = []
     | Raise _ => True
     end.
Proof.
  cbv zeta. split.
  - apply emits_process_files.
    + intros e He. destruct e; try discriminate; reflexivity.
    + intros dir f. apply emits_process_one_no_delete.
  - destruct (result (process_files B s3 fs path loc pre false ow st))
      as [r|e] eqn:Hr; [|exact I].
    apply (process_files_keeps (fun r => r_sftp_delete_failed r = [])
             s3 fs path loc pre false ow st eq_refl); [|exact Hr].
    intros oc f r0 Hp H0. destruct oc; simpl in *; try exact H0.
    discriminate.
Qed.

Lemma emits_process_one_no_head s3 dir pre del f :
  emits (no is_head) (process_one B s3 dir pre del true f).
Proof.
  unfold process_one, s3_precheck, fetch, upload_step, delete_and_mark,
    SFTP_file_exists, download_file_to_temp, download_file_to_local,
    stat_file_size, upload_file, delete_file, with_sftp.
  cbn [negb]. effects.
Qed.

(** X6.  With overwriting enabled ([--overwrite-s3]), [process_files] never
    asks the destination whether a key exists, whether the run returns or
    not, and nothing is recorded in [s3_already_exists]. *)
Theorem overwrite_never_checks s3 fs path loc pre del st :
  let o := process_files B s3 fs path loc pre del true st in
  Forall (no is_head) (events o)
  /\ match result o with
     | Ok r => r_s3_already_exists r = []
     | Raise _ => True
     end.
Proof.
  cbv zeta. split.
  - apply emits_process_files.
    + intros e He. destruct e; try discriminate; reflexivity.
    + intros dir f. apply emits_process_one_no_head.
  - destruct (result (process_files B s3 fs path loc pre del true st))
      as [r|e] eqn:Hr; [|exact I].
    apply (process_files_keeps (fun r => r_s3_already_exists r = [])
             s3 fs path loc pre del true st eq_refl); [|exact Hr].
    intros oc f r0 Hp H0. destruct oc; simpl in *; try exact H0.
    rewrite andb_false_r in Hp. discriminate.
Qed.

Lemma emits_process_one_local dir pre del ow f :
  emits (no is_store_call) (process_one B None dir pre del ow f).
Proof.
  unfold process_one, s3_precheck, fetch, delete_and_mark,
    SFTP_file_exists, download_file_to_local, stat_file_size, delete_file,
    with_sftp.
  effects.
Qed.

(** X7.  Without a destination store, [process_files] makes no call to the store
    and none on a staging area: no existence check, no upload, no temporary
    directory, and no removal of a downloaded file, which stays in the local
    directory. *)
Theorem local_mode_no_store_calls fs path loc pre del ow st :
  Forall (no is_store_call)
         (events (process_files B None fs path loc pre del ow st)).
Proof.
  assert (H : emits (no is_store_call)
                    (process_files B None fs path loc pre del ow)).
  { unfold process_files.
    apply emits_bind; [apply emits_set_results|].
    intros _. apply emits_bind.
    { eapply emits_impl; [|apply emits_change_directory].
      intros e ->. reflexivity. }
    intros sel. destruct sel; simpl; [|apply emits_get_results].
    apply emits_bind; [apply emits_ret|].
    intros dir. apply emits_bind; [apply emits_call; reflexivity|].
    intros _. apply emits_bind; [|intros _; apply emits_get_results].
    apply emits_try_finally.
    - apply emits_for_each. intros f. apply emits_process_one_local.
    - apply emits_ret. }
  apply H.
Qed.

(** Every removal asked of the source in a run that returns is for a
    filename of the [success] bucket. *)
Lemma removals_recorded s3 fs path loc pre del ow st r x :
  result (process_files B s3 fs path loc pre del ow st) = Ok r ->
  In (EvRemove x) (events (process_files B s3 fs path loc pre del ow st)) ->
  In x (r_success r).
Proof.
  intros Hr Hin. destruct (selected B path st) eqn:Hsel.
  - destruct (@process_files_trace _ B _ _ _ _ _ _ _ _ _ Hr Hsel)
      as (dir & st2 & before & after & _ & Hok & -> & Hev & Hb & Ha).
    rewrite Hev in Hin.
    apply in_app_or in Hin. destruct Hin as [Hin|Hin].
    { pose proof (proj1 (Forall_forall _ _) Hb _ Hin). discriminate. }
    apply in_app_or in Hin. destruct Hin as [Hin|Hin].
    + apply (loop_removals B s3 dir pre del ow x fs st2 Hok Hin).
    + pose proof (proj1 (Forall_forall _ _) Ha _ Hin). discriminate.
  - pose proof (process_files_run B s3 fs path loc pre del ow st) as H.
    cbv zeta in H. rewrite Hsel in H. destruct H as [Hev _].
    rewrite Hev in Hin.
    pose proof (proj1 (Forall_forall _ _)
                  (emits_change_directory B path
                     (with_results empty_results st)) _ Hin).
    discriminate.
Qed.

(** X8.  [process_files] removes from the source only files it reports as
    successful: in a run that returns, every removal asked of the source is
    for a filename of the [success] bucket. *)
Theorem removes_only_reported_successes s3 fs path loc pre del ow st r x :
  result (process_files B s3 fs path loc pre del ow st) = Ok r ->
  In (EvRemove x) (events (process_files B s3 fs path loc pre del ow st)) ->
  In x (r_success r).
Proof. intros Hr Hin. eapply removals_recorded; eassumption. Qed.

(** X9.  With unique input names, a file that a run reports as not found,
    as failed to download, as failed to upload or as already at the
    destination is never removed from the source during that run. *)
Theorem unsuccessful_files_stay_at_source s3 fs path loc pre del ow st r x :
  NoDup fs ->
  result (process_files B s3 fs path loc pre del ow st) = Ok r ->
  In x (r_sftp_not_found r ++ r_sftp_download_failed r
        ++ r_s3_upload_failed r ++ r_s3_already_exists r) ->
  ~ In (EvRemove x)
       (events (process_files B s3 fs path loc pre del ow st)).
Proof.
  intros Hnd Hr Hx Hin.
  assert (Hs : In x (r_success r))
    by (eapply removals_recorded; eassumption).
  destruct (selected B path st) eqn:Hsel.
  - destruct (@process_files_result _ B _ _ _ _ _ _ _ _ _ Hr Hsel)
      as (dir & st2 & Hempty & Hok & ->).
    destruct (loop_run B s3 dir pre del ow fs st2) as [_ Hl].
    destruct (Hl Hok) as [Hp _]. rewrite Hempty in Hp. simpl in Hp.
    apply Permutation_sym in Hp.
    pose proof (Permutation_NoDup Hp Hnd) as Hn.
    unfold primary in Hn.
    revert Hs Hx Hn.
    generalize (r_success (results (final (for_each fs
                  (process_one B s3 dir pre del ow) st2)))).
    intros l1.
    generalize (r_sftp_not_found (results (final (for_each fs
                  (process_one B s3 dir pre del ow) st2)))
                ++ r_sftp_download_failed (results (final (for_each fs
                     (process_one B s3 dir pre del ow) st2)))
                ++ r_s3_upload_failed (results (final (for_each fs
                     (process_one B s3 dir pre del ow) st2)))
                ++ r_s3_already_exists (results (final (for_each fs
                     (process_one B s3 dir pre del ow) st2))))%list.
    intros l2 Hs Hx Hn.
    induction l1 as [|a l1 IH]; [contradiction|].
    simpl in Hn. inversion Hn as [|? ? Hna Hn']; subst.
    destruct Hs as [->|Hs].
    + apply Hna. apply in_or_app. right. exact Hx.
    + apply IH; assumption.
  - pose proof (process_files_run B s3 fs path loc pre del ow st) as H.
    cbv zeta in H. rewrite Hsel in H. destruct H as [_ H].
    rewrite Hr in H. inversion H; subst r. exact Hs.
Qed.

(** X10.  Every bucket of the results [process_files] returns lists its
    filenames in the order of the input: each bucket is the input with some
    names left out. *)
Theorem buckets_keep_input_order s3 fs path loc pre del ow st r b :
  result (process_files B s3 fs path loc pre del ow st) = Ok r ->
  Subseq (bucket b r) fs.
Proof.
  intros Hr. destruct (selected B path st) eqn:Hsel.
  - destruct (@process_files_result _ B _ _ _ _ _ _ _ _ _ Hr Hsel)
      as (dir & st2 & Hempty & Hok & ->).
    destruct (loop_buckets B s3 dir pre del ow b fs st2 Hok) as (l & Hl & Hs).
    rewrite Hl, Hempty. destruct b; exact Hs.
  - pose proof (process_files_run B s3 fs path loc pre del ow st) as H.
    cbv zeta in H. rewrite Hsel in H. destruct H as [_ H].
    rewrite Hr in H. inversion H. destruct b; apply Subseq_nil_l.
Qed.

(** X11.  A filename recorded in [sftp_delete_failed] is recorded in [success]
    too: a deletion failure is only ever noted for a file whose transfer
    succeeded. *)
Theorem delete_failures_are_successes s3 fs path loc pre del ow st r :
  result (process_files B s3 fs path loc pre del ow st) = Ok r ->
  incl (r_sftp_delete_failed r) (r_success r).
Proof.
  apply (process_files_keeps
           (fun r => incl (r_sftp_delete_failed r) (r_success r))).
  - intros x [].
  - intros oc f r0 _ H0. destruct oc; simpl; try exact H0.
    + apply incl_appl. exact H0.
    + intros x Hx. apply in_app_or in Hx. apply in_or_app.
      destruct Hx as [Hx|Hx]; [left; apply H0; exact Hx | right; exact Hx].
Qed.

(** X12.  Called on a manager that has no SFTP channel (never connected, or
    [connect] failed), [process_files] makes no call at all and returns the
    empty results: every filename is silently left out. *)
Theorem unconnected_manager_does_nothing s3 fs path loc pre del ow st :
  m_sftp (manager st) = false ->
  process_files B s3 fs path loc pre del ow st
  = {| final := with_results empty_results st; events := [];
       result := Ok empty_results |}.
Proof.
  intros Hm. unfold process_files.
  assert (Hcd : change_directory B path (with_results empty_results st)
                = {| final := with_results empty_results st; events := [];
                     result := Ok false |}).
  { unfold change_directory.
    rewrite (try_except_caught
               (except_Exception (fun _ => ret false))
               (bind_Raise _ (with_sftp_unset
                                (call (EvChdir path) (sftp_chdir B path))
                                (st := with_results empty_results st) Hm))
               (k := ret false) eq_refl).
    reflexivity. }
  run. reflexivity.
Qed.

End RunProperties.

(* ------------------------------------------------------------------ *)
(** ** Edge cases of the pipeline *)

Section PipelineEdges.
Context {W : Type} (B : Backend W).

Lemma total_stat_file_size f : total (stat_file_size B f).
Proof. unfold stat_file_size. effects. Qed.

Lemma SFTP_file_exists_true_connected f st st1 ev1 :
  SFTP_file_exists B f st
  = {| final := st1; events := ev1; result := Ok true |} ->
  m_sftp (manager st) = true.
Proof.
  intros H. destruct (m_sftp (manager st)) eqn:Hm; [reflexivity|].
  unfold SFTP_file_exists in H.
  rewrite (try_except_caught
             (fun e => match e with
                       | FileNotFoundError => Some (ret false)
                       | _ => Some (ret false)
                       end)
             (bind_Raise _ (with_sftp_unset
                              (call (EvStat f) (sftp_stat B f)) Hm))
             (k := ret false) eq_refl) in H.
  discriminate.
Qed.

(** On a connected manager the staging download always asks for the
    transfer, to the path [os.path.join] gives. *)
Lemma download_to_temp_attempts f dir st :
  m_sftp (manager st) = true ->
  In (EvGet f (os_path_join dir f))
     (events (download_file_to_temp B f dir st)).
Proof.
  intros Hm. unfold download_file_to_temp. cbv zeta.
  destruct (method_run (world_only_stat_file_size B f)
                       (total_stat_file_size f) st) as (w & ev & z & Hs).
  pose proof (call_run (EvGet f (os_path_join dir f))
                (sftp_get B f (os_path_join dir f)) (with_world w st)) as Hc.
  rewrite <- (with_sftp_set _ (st := with_world w st) Hm) in Hc.
  destruct (snd (sftp_get B f (os_path_join dir f) (world (with_world w st))))
    as [[]|e].
  - erewrite try_except_Ok by (run; reflexivity).
    simpl. apply in_or_app. right. left. reflexivity.
  - erewrite try_except_caught;
      [|rewrite (bind_Ok _ Hs); unfold prefix;
        rewrite (bind_Raise _ Hc); reflexivity
       |reflexivity].
    simpl. apply in_or_app. left. apply in_or_app. right. left. reflexivity.
Qed.

(** X14.  For a file present at the source, a [ClientError] of [head_object] of
    any code (a 403 as well as a 404) counts as "not at the destination":
    the file is not skipped, nothing is recorded in [s3_already_exists], the
    download is attempted, and the iteration returns. *)
Theorem client_error_counts_as_absent s dir pre del f st st1 ev1 code :
  SFTP_file_exists B f st
  = {| final := st1; events := ev1; result := Ok true |} ->
  snd (s3_head_object B (bucket_name s) (s3_key_of pre f) (world st1))
  = Raise (ClientError code) ->
  let o := process_one B (Some s) dir pre del false f st in
  result o = Ok tt
  /\ In (EvGet f (os_path_join dir f)) (events o)
  /\ r_s3_already_exists (results (final o))
     = r_s3_already_exists (results st).
Proof.
  intros H1 Hh. cbv zeta.
  pose proof (@SFTP_file_exists_true_connected f st st1 ev1 H1) as Hm.
  destruct (@run_results _ _ _ _ _ _ _
              (world_only_SFTP_file_exists B f) H1) as [_ Hm1].
  pose proof (call_run (EvHeadObject (bucket_name s) (s3_key_of pre f))
                (s3_head_object B (bucket_name s) (s3_key_of pre f)) st1)
    as Hc.
  rewrite Hh in Hc.
  assert (H2 : s3_precheck B (Some s) false (s3_key_of pre f) st1
               = {| final := with_world
                               (fst (s3_head_object B (bucket_name s)
                                       (s3_key_of pre f) (world st1))) st1;
                    events := [EvHeadObject (bucket_name s)
                                            (s3_key_of pre f)];
                    result := Ok false |}).
  { unfold s3_precheck, S3_file_exists. cbn [negb].
    erewrite try_except_caught; [|apply (bind_Raise _ Hc)|].
    2:{ cbn. instantiate (1 := ret false).
        destruct (String.eqb code "404"); reflexivity. }
    reflexivity. }
  set (st2 := with_world _ st1) in H2.
  assert (Hm2 : m_sftp (manager st2) = true)
    by (subst st2; simpl; rewrite Hm1; exact Hm).
  set (rest := fun file_path : option string =>
         if negb (truthy_opt file_path)
         then append_result sftp_download_failed f
         else
           (upload_success <-
              upload_step B s
                (match file_path with Some p => p | None => EmptyString end)
                (s3_key_of pre f) f;;
            if negb upload_success then ret tt
            else delete_and_mark B del f)).
  assert (Ho : process_one B (Some s) dir pre del false f st
               = prefix ev1
                   (prefix [EvHeadObject (bucket_name s) (s3_key_of pre f)]
                      (bind (fetch B (Some s) f dir) rest st2))).
  { unfold process_one. run. reflexivity. }
  assert (Htot : total (bind (fetch B (Some s) f dir) rest)).
  { apply total_bind; [apply total_fetch|]. intros fp. unfold rest.
    unfold upload_step, delete_and_mark, delete_file. effects. }
  destruct (Htot st2) as [[] Hok].
  assert (Hres : result (process_one B (Some s) dir pre del false f st)
                 = Ok tt)
    by (rewrite Ho; exact Hok).
  assert (Hin : In (EvGet f (os_path_join dir f))
                   (events (process_one B (Some s) dir pre del false f st))).
  { rewrite Ho. unfold prefix. cbn [events].
    apply in_or_app. right. apply in_or_app. right.
    destruct (total_fetch B (Some s) f dir st2) as [fp Hfp].
    destruct (bind_final rest Hfp) as (_ & Hev & _). rewrite Hev.
    apply in_or_app. left. apply download_to_temp_attempts. exact Hm2. }
  split; [exact Hres|]. split; [exact Hin|].
  destruct (process_one_outcome B (Some s) dir pre del false f st Hres)
    as (oc & _ & Hr & Hc').
  pose proof (proj1 (Forall_forall _ _) Hc' _ Hin) as Hmay.
  rewrite Hr. destruct oc; simpl in Hmay; try discriminate; reflexivity.
Qed.

(** X15.  In store mode the path a successful download returns is never the
    empty string when the staging directory has a name, so the truth test the
    orchestrator applies to it tells a failed download and nothing else. *)
Theorem staged_path_is_truthy s f dir st st1 ev file_path :
  truthy dir = true ->
  fetch B (Some s) f dir st
  = {| final := st1; events := ev; result := Ok file_path |} ->
  truthy_opt file_path = is_some file_path.
Proof.
  intros Hd H. unfold fetch, download_file_to_temp in H. cbv zeta in H.
  assert (Hj : truthy (os_path_join dir f) = true).
  { unfold os_path_join. destruct dir as [|c dir]; [discriminate|].
    destruct f as [|c' f]; simpl.
    - destruct (ends_with_slash (String c dir)); reflexivity.
    - destruct (is_slash c'); [reflexivity|].
      destruct (ends_with_slash (String c dir)); reflexivity. }
  unfold try_except in H.
  destruct (result ((stat_file_size B f;;
                     with_sftp (call (EvGet f (os_path_join dir f))
                                 (sftp_get B f (os_path_join dir f)));;
                     ret (Some (os_path_join dir f))) st)) as [fp|e] eqn:E.
  - assert (fp = Some (os_path_join dir f)).
    { destruct (method_run (world_only_stat_file_size B f)
                           (total_stat_file_size f) st) as (w & ev0 & z & Hs).
      rewrite (bind_Ok _ Hs) in E. unfold prefix in E. cbn [result] in E.
      destruct (result (with_sftp (call (EvGet f (os_path_join dir f))
                                    (sftp_get B f (os_path_join dir f)))
                          (with_world w st))) as [[]|e] eqn:Eg.
      - destruct (bind_final (fun _ => ret (Some (os_path_join dir f))) Eg)
          as (_ & _ & Hr).
        rewrite Hr in E. inversion E. reflexivity.
      - rewrite bind_Raise_proj with (e := e) in E by exact Eg.
        discriminate. }
    subst fp. rewrite (out_eta (_ st)) in H. rewrite E in H.
    inversion H. subst file_path. simpl. exact Hj.
  - simpl in H. inversion H. reflexivity.
Qed.
End PipelineEdges.

(* ------------------------------------------------------------------ *)
(** ** The manager object along a run *)

Section ManagerAlongRun.
Context {W : Type} (B : Backend W).

Lemma keeps_world_only A (m : M W A) : world_only m -> keeps_manager m.
Proof. intros H st. apply (H st). Qed.

Lemma keeps_ret A (a : A) : keeps_manager (ret (W:=W) a).
Proof. intros st. reflexivity. Qed.

Lemma keeps_bind A C (m : M W A) (k : A -> M W C) :
  keeps_manager m -> (forall a, keeps_manager (k a)) ->
  keeps_manager (bind m k).
Proof.
  intros Hm Hk st. unfold bind. specialize (Hm st).
  destruct (result (m st)) as [a|e]; simpl; [|exact Hm].
  rewrite (Hk a). exact Hm.
Qed.

Lemma keeps_try_finally A (m : M W A) fin :
  keeps_manager m -> keeps_manager fin -> keeps_manager (try_finally m fin).
Proof.
  intros Hm Hf st. unfold try_finally. simpl. rewrite Hf. apply Hm.
Qed.

Lemma keeps_for_each A (l : list A) body :
  (forall x, keeps_manager (body x)) -> keeps_manager (for_each (W:=W) l body).
Proof.
  intros Hb. induction l as [|x l IH]; simpl.
  - apply keeps_ret.
  - apply keeps_bind; auto.
Qed.

Lemma keeps_process_files s3 fs path loc pre del ow :
  keeps_manager (process_files B s3 fs path loc pre del ow).
Proof.
  unfold process_files.
  apply keeps_bind; [intros st; reflexivity|].
  intros _. apply keeps_bind.
  { apply keeps_world_only, world_only_change_directory. }
  intros sel. destruct sel; simpl; [|intros st; reflexivity].
  apply keeps_bind.
  { destruct s3; simpl; [apply keeps_world_only, world_only_call
                        |apply keeps_ret]. }
  intros dir. apply keeps_bind.
  { destruct s3; simpl; [apply keeps_ret
                        |apply keeps_world_only, world_only_call]. }
  intros _. apply keeps_bind; [|intros _ st; reflexivity].
  apply keeps_try_finally.
  - apply keeps_for_each. intros f st.
    apply (process_one_run B s3 dir pre del ow f st).
  - apply keeps_world_only, world_only_cleanup.
Qed.

Lemma world_only_list_files_loop l : forall files,
  world_only (list_files_loop B l files).
Proof.
  induction l as [|item l IH]; intros files; simpl.
  - apply world_only_ret.
  - unfold with_sftp. effects; apply IH.
Qed.

Lemma world_only_list_files : world_only (list_files B).
Proof.
  unfold list_files, with_sftp. effects; apply world_only_list_files_loop.
Qed.

Lemma keeps_resolve_filenames args g fs :
  keeps_manager (resolve_filenames B args g fs).
Proof.
  unfold resolve_filenames. destruct g; [|apply keeps_ret].
  apply keeps_bind.
  { apply keeps_world_only, world_only_change_directory. }
  intros sel. destruct sel; simpl; [|apply keeps_ret].
  apply keeps_bind; [apply keeps_world_only, world_only_list_files|].
  intros l. destruct (negb (nonempty l)); apply keeps_ret.
Qed.

(** [run] is [connect] followed, when it returned [True], by a computation
    that leaves the manager alone. *)
Lemma run_after_connect args u g s3m fs :
  exists K : M W Z,
    keeps_manager K
    /\ forall st,
        run B args u g s3m fs st
        = bind (connect B) (fun c => if negb c then ret 1 else K) st.
Proof.
  eexists. split; [|intros st; unfold run; reflexivity].
  apply keeps_bind; [apply keeps_resolve_filenames|].
  intros [code|fs']; [apply keeps_ret|].
  apply keeps_bind; [apply keeps_process_files|].
  intros r. apply keeps_bind; [intros st; reflexivity|].
  intros _. apply keeps_ret.
Qed.

(** The [try]/[finally] of [main], entered with a manager that has no SFTP
    channel yet.  When [connect] fails the value is 1, nothing was asked of
    the channel and the SSH connection is closed; when it succeeds, the
    channel and the connection are closed last, whatever happened in
    between. *)
Lemma guarded_run args u g s3m fs st :
  m_sftp (manager st) = false ->
  let o := try_finally (run B args u g s3m fs) (disconnect B) st in
  result o = result (run B args u g s3m fs st)
  /\ match result (connect B st) with
     | Ok true =>
         exists body, events o = (body ++ [EvSftpClose; EvSshClose])%list
     | _ =>
         result o = Ok 1
         /\ Forall (no is_sftp_op) (events o)
         /\ exists body, events o = (body ++ [EvSshClose])%list
     end.
Proof.
  intros Hm. cbv zeta.
  destruct (run_after_connect args u g s3m fs) as (K & HK & Hrun).
  destruct (connect_run B st) as (Hres & Hssh & Hsftp & Hev & _).
  cbv zeta in Hres, Hsftp, Hev.
  pose proof (out_eta (connect B st)) as Ec. rewrite Hres in Ec.
  rewrite Hm, orb_false_r in Hsftp.
  assert (Hdis : forall st', result (disconnect B st') = Ok tt)
    by (intros st'; apply (disconnect_run B st')).
  split.
  { unfold try_finally. cbn [result]. rewrite Hdis. reflexivity. }
  rewrite Hres.
  set (both := is_ok _ && is_ok _) in *.
  unfold try_finally. cbn [events result]. rewrite Hdis, Hrun.
  rewrite (bind_Ok _ Ec). unfold prefix. cbn [events result final].
  destruct both; cbn [negb].
  - destruct (disconnect_run B (final (K (final (connect B st)))))
      as (_ & Hd & _). cbv zeta in Hd.
    rewrite (HK (final (connect B st))), Hssh, Hsftp in Hd.
    cbn [app] in Hd. rewrite Hd. eexists. reflexivity.
  - destruct (disconnect_run B (final (connect B st))) as (_ & Hd & _).
    cbv zeta in Hd. rewrite Hssh, Hsftp in Hd.
    cbn [ret events result final]. rewrite Hd.
    split; [reflexivity|]. split.
    + rewrite Hev. rewrite app_nil_r.
      destruct (is_ok _); repeat constructor.
    + eexists. rewrite app_nil_r. reflexivity.
Qed.
End ManagerAlongRun.

(* ------------------------------------------------------------------ *)
(** ** The shape of [main] *)

Section MainShape.
Context {W : Type} (B : Backend W).

Lemma calm_read_csv_filenames p col :
  emits (no is_sftp_call) (read_csv_filenames B p col).
Proof. unfold read_csv_filenames. effects. apply quiet_read_rows. Qed.

Lemma calm_init_s3 args u : emits (no is_sftp_call) (init_s3 B args u).
Proof. unfold init_s3, S3Manager_new. effects. Qed.

Lemma world_only_init_s3 args u : world_only (init_s3 B args u).
Proof. unfold init_s3, S3Manager_new. effects. Qed.

Lemma total_init_s3 args u : total (init_s3 B args u).
Proof. unfold init_s3. effects. Qed.

(** The only early return of the S3 set-up is [return 1]. *)
Lemma init_s3_code args u st code :
  result (init_s3 B args u st) = Ok (inl code) -> code = 1.
Proof.
  unfold init_s3. destruct u; [|discriminate].
  unfold try_except, except_Exception.
  destruct (result ((s3 <- S3Manager_new B
                             match a_s3_bucket args with
                             | Some b => b
                             | None => EmptyString
                             end (a_aws_region args);;
                     ret (inr (Some s3))) st)) as [[c|s]|e] eqn:E.
  - unfold bind in E.
    destruct (result (S3Manager_new B _ _ st)); simpl in E; discriminate.
  - rewrite E. discriminate.
  - simpl. intros H. inversion H. reflexivity.
Qed.

(** [main] from the creation of the manager on: an early [return 1] of the
    S3 set-up, or the [try]/[finally] entered with a fresh manager. *)
Lemma main_tail_shape args g fs st :
  let u := truthy_opt (a_s3_bucket args) in
  let tail :=
    (SFTPManager_new (a_sftp_host args) (a_sftp_user args)
                     (a_sftp_password args) (a_sftp_port args) ;;
     init <- init_s3 B args u ;;
     match init with
     | inl code => ret code
     | inr s3_manager =>
         try_finally (run B args u g s3_manager fs) (disconnect B)
     end) in
  (result (tail st) = Ok 1 /\ Forall (no is_sftp_call) (events (tail st)))
  \/ exists before st0 st1 s3m,
      Forall (no is_sftp_call) before
      /\ m_sftp (manager st1) = false
      /\ m_host (manager st1) = a_sftp_host args
      /\ m_port (manager st1) = a_sftp_port args
      /\ m_username (manager st1) = a_sftp_user args
      /\ m_password (manager st1) = a_sftp_password args
      /\ result (init_s3 B args u st0) = Ok (inr s3m)
      /\ events (tail st)
         = (before ++ events (try_finally (run B args u g s3m fs)
                                          (disconnect B) st1))%list
      /\ result (tail st)
         = result (try_finally (run B args u g s3m fs) (disconnect B) st1).
Proof.
  cbv zeta. unfold SFTPManager_new. erewrite bind_Ok by reflexivity.
  set (st0 := with_manager _ st).
  destruct (total_init_s3 args (truthy_opt (a_s3_bucket args)) st0)
    as [r Hr].
  pose proof (out_eta (init_s3 B args (truthy_opt (a_s3_bucket args)) st0))
    as Ei.
  rewrite Hr in Ei.
  pose proof (calm_init_s3 args (truthy_opt (a_s3_bucket args)) st0) as Fi.
  destruct (world_only_init_s3 args (truthy_opt (a_s3_bucket args)) st0)
    as [Hman _].
  rewrite (bind_Ok _ Ei). unfold prefix. cbn [events result app].
  destruct r as [code|s3m].
  - left. rewrite (init_s3_code _ _ _ Hr). split; [reflexivity|].
    cbn [ret events]. rewrite app_nil_r. exact Fi.
  - right.
    exists (events (init_s3 B args (truthy_opt (a_s3_bucket args)) st0)),
      st0, (final (init_s3 B args (truthy_opt (a_s3_bucket args)) st0)), s3m.
    rewrite Hman. subst st0. cbn [manager with_manager m_sftp m_host m_port
                                  m_username m_password].
    repeat split; try reflexivity; assumption.
Qed.

Lemma main_shape args st :
  let o := main B args st in
  let u := truthy_opt (a_s3_bucket args) in
  (result o = Ok 1 /\ Forall (no is_sftp_call) (events o))
  \/ exists before st0 st1 g s3m fs,
      Forall (no is_sftp_call) before
      /\ m_sftp (manager st1) = false
      /\ m_host (manager st1) = a_sftp_host args
      /\ m_port (manager st1) = a_sftp_port args
      /\ m_username (manager st1) = a_sftp_user args
      /\ m_password (manager st1) = a_sftp_password args
      /\ result (init_s3 B args u st0) = Ok (inr s3m)
      /\ events o
         = (before ++ events (try_finally (run B args u g s3m fs)
                                          (disconnect B) st1))%list
      /\ result o
         = result (try_finally (run B args u g s3m fs) (disconnect B) st1).
Proof.
  cbv zeta. unfold main. cbv zeta.
  destruct (total_read_csv_filenames B (a_csv_file args)
              (a_filename_column args) st) as [fns Hf].
  pose proof (out_eta (read_csv_filenames B (a_csv_file args)
                (a_filename_column args) st)) as Ef.
  rewrite Hf in Ef.
  pose proof (calm_read_csv_filenames (a_csv_file args)
                (a_filename_column args) st) as Ff.
  rewrite (bind_Ok _ Ef). unfold prefix. cbn [events result].
  assert (Htail : forall g fs,
    let tail :=
      (SFTPManager_new (a_sftp_host args) (a_sftp_user args)
                       (a_sftp_password args) (a_sftp_port args) ;;
       init <- init_s3 B args (truthy_opt (a_s3_bucket args)) ;;
       match init with
       | inl code => ret code
       | inr s3_manager =>
           try_finally
             (run B args (truthy_opt (a_s3_bucket args)) g s3_manager fs)
             (disconnect B)
       end) in
    let stf := final (read_csv_filenames B (a_csv_file args)
                        (a_filename_column args) st) in
    let evf := events (read_csv_filenames B (a_csv_file args)
                         (a_filename_column args) st) in
    (result (tail stf) = Ok 1
     /\ Forall (no is_sftp_call) (evf ++ events (tail stf)))
    \/ exists before st0 st1 g' s3m fs',
        Forall (no is_sftp_call) before
        /\ m_sftp (manager st1) = false
        /\ m_host (manager st1) = a_sftp_host args
        /\ m_port (manager st1) = a_sftp_port args
        /\ m_username (manager st1) = a_sftp_user args
        /\ m_password (manager st1) = a_sftp_password args
        /\ result (init_s3 B args (truthy_opt (a_s3_bucket args)) st0)
           = Ok (inr s3m)
        /\ (evf ++ events (tail stf))%list
           = (before
              ++ events (try_finally
                           (run B args (truthy_opt (a_s3_bucket args))
                                g' s3m fs')
                           (disconnect B) st1))%list
        /\ result (tail stf)
           = result (try_finally
                       (run B args (truthy_opt (a_s3_bucket args)) g' s3m fs')
                       (disconnect B) st1)).
  { intros g fs. cbv zeta.
    destruct (main_tail_shape args g fs
                (final (read_csv_filenames B (a_csv_file args)
                          (a_filename_column args) st)))
      as [[H1 H2]|(before & st0 & st1 & s3m & Hb & H1 & H2 & H3 & H4 & H5
                   & H6 & H7 & H8)].
    - left. split; [exact H1|]. apply Forall_app. split; assumption.
    - right. cbv zeta in H7, H8.
      exists (events (read_csv_filenames B (a_csv_file args)
                        (a_filename_column args) st) ++ before)%list,
        st0, st1, g, s3m, fs.
      repeat split; try assumption.
      + apply Forall_app. split; assumption.
      + rewrite H7, app_assoc. reflexivity. }
  destruct fns as [[|f fs]|].
  - left. cbn [ret events result]. split; [reflexivity|].
    rewrite app_nil_r. exact Ff.
  - apply (Htail (negb (is_some (Some (f :: fs)))) (f :: fs)).
  - apply (Htail (negb (is_some (@None (list string)))) []).
Qed.
End MainShape.

(* ------------------------------------------------------------------ *)
(** ** Properties of [main] *)

Section MainProperties.
Context {W : Type} (B : Backend W).

Lemma bind_result_Ok A C (m : M W A) (k : A -> M W C) st c :
  result (bind m k st) = Ok c ->
  exists a, result (m st) = Ok a /\ result (k a (final (m st))) = Ok c.
Proof.
  unfold bind. destruct (result (m st)) as [a|e]; simpl; intros H.
  - exists a. auto.
  - discriminate.
Qed.

Lemma calm_is_op (l : list Event) :
  Forall (no is_sftp_call) l -> Forall (no is_sftp_op) l.
Proof.
  apply Forall_impl. intros e. unfold no.
  destruct e; simpl; congruence.
Qed.

Lemma exit_status_code u r : exit_status u r = 0 \/ exit_status u r = 1.
Proof. unfold exit_status. destruct (_ >? 0); auto. Qed.

Lemma resolve_filenames_code args g fs st code :
  result (resolve_filenames B args g fs st) = Ok (inl code) ->
  code = 0 \/ code = 1.
Proof.
  unfold resolve_filenames. destruct g; [|discriminate].
  intros H. apply bind_result_Ok in H. destruct H as (sel & _ & H).
  destruct sel; cbn [negb] in H.
  - apply bind_result_Ok in H. destruct H as (l & _ & H).
    destruct (negb (nonempty l)); inversion H; auto.
  - inversion H; auto.
Qed.

(** The value of the [try] body of [main] is 0 or 1. *)
Lemma run_code args u g s3m fs st c :
  result (run B args u g s3m fs st) = Ok c -> c = 0 \/ c = 1.
Proof.
  unfold run. intros H.
  apply bind_result_Ok in H. destruct H as (con & _ & H).
  destruct con; cbn [negb] in H; [|inversion H; auto].
  apply bind_result_Ok in H. destruct H as (rs & Hrs & H).
  destruct rs as [code|fs'].
  - inversion H; subst. eapply resolve_filenames_code; eassumption.
  - apply bind_result_Ok in H. destruct H as (r & _ & H).
    apply bind_result_Ok in H. destruct H as (x & _ & H).
    inversion H. apply exit_status_code.
Qed.

(** The S3 manager exists only if the bucket could be reached. *)
Lemma init_s3_reached args st s3m :
  result (init_s3 B args true st) = Ok (inr s3m) ->
  exists w,
    is_ok (snd (s3_head_bucket B
                  match a_s3_bucket args with
                  | Some b => b
                  | None => EmptyString
                  end w)) = true.
Proof.
  unfold init_s3, try_except, except_Exception.
  set (b := match a_s3_bucket args with Some b => b | None => EmptyString end).
  destruct (result ((s3 <- S3Manager_new B b (a_aws_region args);;
                     ret (inr (Some s3))) st)) as [r|e] eqn:E;
    [|discriminate].
  intros _. apply bind_result_Ok in E. destruct E as (s & E & _).
  unfold S3Manager_new in E.
  apply bind_result_Ok in E. destruct E as ([] & _ & E).
  apply bind_result_Ok in E. destruct E as ([] & E & _).
  rewrite call_run in E. cbn [result] in E.
  eexists. rewrite E. reflexivity.
Qed.

(** X16.  Whatever happens in between, [main] leaves no connection open:
    either it made no call to the SFTP server at all, or its last call is
    the [close] of the SSH connection; and if anything was asked of the
    SFTP channel, its last two calls are the [close] of the channel and
    the [close] of the connection.  This holds also when an exception
    leaves [main]. *)
Theorem main_closes_connection args st :
  let o := main B args st in
  Forall (no is_sftp_call) (events o)
  \/ ((exists body, events o = (body ++ [EvSshClose])%list)
      /\ (Forall (no is_sftp_op) (events o)
          \/ exists body,
              events o = (body ++ [EvSftpClose; EvSshClose])%list)).
Proof.
  cbv zeta.
  destruct (main_shape B args st)
    as [[_ H]|(before & st0 & st1 & g & s3m & fs & Hb & Hm & _ & _ & _ & _
               & _ & Hev & _)]; [left; exact H|].
  right. cbv zeta in Hev. rewrite Hev.
  destruct (guarded_run B args (truthy_opt (a_s3_bucket args)) g s3m fs
              st1 Hm) as [_ H]. cbv zeta in H.
  destruct (result (connect B st1)) as [[|]|e].
  - destruct H as [body H]. rewrite H. split.
    + exists (before ++ body ++ [EvSftpClose])%list.
      rewrite <- !app_assoc. reflexivity.
    + right. exists (before ++ body)%list.
      rewrite <- !app_assoc. reflexivity.
  - destruct H as (_ & Hno & body & H). split.
    + rewrite H. exists (before ++ body)%list.
      rewrite <- !app_assoc. reflexivity.
    + left. apply Forall_app. split; [apply calm_is_op|]; assumption.
  - destruct H as (_ & Hno & body & H). split.
    + rewrite H. exists (before ++ body)%list.
      rewrite <- !app_assoc. reflexivity.
    + left. apply Forall_app. split; [apply calm_is_op|]; assumption.
Qed.

(** X17.  Whenever [main] returns, the value it hands to [sys.exit] is 0
    or 1. *)
Theorem main_exit_code args st c :
  result (main B args st) = Ok c -> c = 0 \/ c = 1.
Proof.
  destruct (main_shape B args st)
    as [[H _]|(before & st0 & st1 & g & s3m & fs & _ & Hm & _ & _ & _ & _
               & _ & _ & Hres)]; cbv zeta in *.
  - rewrite H. intros E. inversion E. auto.
  - rewrite Hres.
    destruct (guarded_run B args (truthy_opt (a_s3_bucket args)) g s3m fs
                st1 Hm) as [H _]. cbv zeta in H. rewrite H.
    apply run_code.
Qed.

(** X19.  With a bucket that cannot be reached ([head_bucket] fails),
    [main] returns 1 without a single call to the SFTP server. *)
Theorem unreachable_bucket_stops_before_sftp args st b :
  a_s3_bucket args = Some b ->
  truthy b = true ->
  (forall w, is_ok (snd (s3_head_bucket B b w)) = false) ->
  result (main B args st) = Ok 1
  /\ Forall (no is_sftp_call) (events (main B args st)).
Proof.
  intros Hb Ht Hfail.
  destruct (main_shape B args st)
    as [H|(before & st0 & st1 & g & s3m & fs & _ & _ & _ & _ & _ & _
           & Hinit & _)]; cbv zeta in *; [exact H|].
  exfalso. rewrite Hb in Hinit. cbn [truthy_opt] in Hinit.
  rewrite Ht in Hinit. apply init_s3_reached in Hinit.
  destruct Hinit as [w Hw]. rewrite Hb, Hfail in Hw. discriminate.
Qed.

(** X20.  When the SSH connection cannot be made, [main] returns 1 and
    nothing is asked of the SFTP channel: no directory change, no [stat],
    no download, no deletion, no listing. *)
Theorem failed_connection_exits_one args st :
  (forall h p u pw w, is_ok (snd (ssh_connect B h p u pw w)) = false) ->
  result (main B args st) = Ok 1
  /\ Forall (no is_sftp_op) (events (main B args st)).
Proof.
  intros Hfail.
  destruct (main_shape B args st)
    as [[H1 H2]|(before & st0 & st1 & g & s3m & fs & Hb & Hm & _ & _ & _
                 & _ & _ & Hev & Hres)]; cbv zeta in *.
  - split; [exact H1|apply calm_is_op; exact H2].
  - rewrite Hev, Hres.
    destruct (guarded_run B args (truthy_opt (a_s3_bucket args)) g s3m fs
                st1 Hm) as [_ H]. cbv zeta in H.
    destruct (connect_run B st1) as (Hc & _). cbv zeta in Hc.
    rewrite Hfail in Hc. cbn [andb] in Hc. rewrite Hc in H.
    destruct H as (H1 & H2 & _). split; [exact H1|].
    apply Forall_app. split; [apply calm_is_op|]; assumption.
Qed.
End MainProperties.

(* ------------------------------------------------------------------ *)
(** ** Keys and names *)

Section KeysAndNames.
Context {W : Type} (B : Backend W).

Lemma string_app_inv_head (s a b : string) : (s ++ a = s ++ b)%string -> a = b.
Proof.
  induction s as [|c s IH]; simpl; intros H; [exact H|].
  inversion H. auto.
Qed.

Lemma list_ascii_of_string_app (a b : string) :
  list_ascii_of_string (a ++ b)
  = (list_ascii_of_string a ++ list_ascii_of_string b)%list.
Proof. induction a as [|c a IH]; simpl; [|rewrite IH]; reflexivity. Qed.

Lemma truthy_app_l (a b : string) :
  truthy a = true -> truthy (a ++ b) = true.
Proof. destruct a; simpl; congruence. Qed.

Lemma rstrip_slash_slash (p : string) :
  rstrip_slash (p ++ "/") = rstrip_slash p.
Proof.
  unfold rstrip_slash, rstrip_by.
  rewrite list_ascii_of_string_app. simpl list_ascii_of_string at 2.
  rewrite rev_app_distr. reflexivity.
Qed.

Section DropChars.
Variable p1 : ascii -> bool.
Variable p2 : ascii -> ascii -> bool.
Variable p3 : ascii -> ascii -> ascii -> bool.

(** One step of [drop_chars]. *)
Lemma drop_chars_step l :
  drop_chars p1 p2 p3 l
  = match l with
    | [] => []
    | c1 :: l1 =>
        if p1 c1 then drop_chars p1 p2 p3 l1
        else
          match l1 with
          | [] => l
          | c2 :: l2 =>
              if p2 c1 c2 then drop_chars p1 p2 p3 l2
              else
                match l2 with
                | [] => l
                | c3 :: l3 =>
                    if p3 c1 c2 c3 then drop_chars p1 p2 p3 l3 else l
                end
          end
    end.
Proof. destruct l; reflexivity. Qed.

(** What [drop_chars] leaves begins with no such character, and is the end
    of what it was given. *)
Lemma drop_chars_spec n : forall l,
  (length l <= n)%nat ->
  starts_with_char p1 p2 p3 (drop_chars p1 p2 p3 l) = false
  /\ exists pre, l = (pre ++ drop_chars p1 p2 p3 l)%list.
Proof.
  induction n as [|n IH]; intros l Hn.
  - destruct l; [|simpl in Hn; lia].
    split; [reflexivity|]. exists []. reflexivity.
  - rewrite drop_chars_step.
    destruct l as [|c1 l1]; [split; [reflexivity|exists []; reflexivity]|].
    simpl in Hn. destruct (p1 c1) eqn:E1.
    { destruct (IH l1 ltac:(lia)) as [H [pre Hpre]].
      split; [exact H|]. exists (c1 :: pre). simpl. congruence. }
    destruct l1 as [|c2 l2].
    { split; [simpl; rewrite E1; reflexivity|exists []; reflexivity]. }
    simpl in Hn. destruct (p2 c1 c2) eqn:E2.
    { destruct (IH l2 ltac:(lia)) as [H [pre Hpre]].
      split; [exact H|]. exists (c1 :: c2 :: pre). simpl. congruence. }
    destruct l2 as [|c3 l3].
    { split; [simpl; rewrite E1, E2; reflexivity|exists []; reflexivity]. }
    simpl in Hn. destruct (p3 c1 c2 c3) eqn:E3.
    { destruct (IH l3 ltac:(lia)) as [H [pre Hpre]].
      split; [exact H|]. exists (c1 :: c2 :: c3 :: pre). simpl. congruence. }
    split; [simpl; rewrite E1, E2, E3; reflexivity|exists []; reflexivity].
Qed.

Lemma drop_chars_head l :
  starts_with_char p1 p2 p3 (drop_chars p1 p2 p3 l) = false.
Proof. apply (drop_chars_spec (n := length l)). apply Nat.le_refl. Qed.

Lemma drop_chars_split l :
  exists pre, l = (pre ++ drop_chars p1 p2 p3 l)%list.
Proof. apply (drop_chars_spec (n := length l)). apply Nat.le_refl. Qed.

Lemma drop_chars_fix l :
  starts_with_char p1 p2 p3 l = false -> drop_chars p1 p2 p3 l = l.
Proof.
  intros H. rewrite drop_chars_step.
  destruct l as [|c1 [|c2 [|c3 l]]]; simpl in H; try reflexivity.
  - apply orb_false_elim in H. destruct H as [-> _]. reflexivity.
  - apply orb_false_elim in H. destruct H as [-> H].
    apply orb_false_elim in H. destruct H as [-> _]. reflexivity.
  - apply orb_false_elim in H. destruct H as [-> H].
    apply orb_false_elim in H. destruct H as [-> ->]. reflexivity.
Qed.

Lemma drop_chars_idem l :
  drop_chars p1 p2 p3 (drop_chars p1 p2 p3 l) = drop_chars p1 p2 p3 l.
Proof. apply drop_chars_fix, drop_chars_head. Qed.

(** The beginning of a list that begins with no such character begins with
    none either. *)
Lemma starts_with_char_prefix l q :
  starts_with_char p1 p2 p3 (l ++ q) = false ->
  starts_with_char p1 p2 p3 l = false.
Proof.
  destruct l as [|c1 [|c2 [|c3 l]]]; simpl; try reflexivity.
  - intros H. apply orb_false_elim in H. destruct H as [-> _]. reflexivity.
  - intros H. apply orb_false_elim in H. destruct H as [-> H].
    destruct q; simpl in *.
    + exact H.
    + apply orb_false_elim in H. destruct H as [-> _]. reflexivity.
  - intros H. exact H.
Qed.
End DropChars.

(** Stripping on both sides, on lists of bytes. *)
Lemma strip_list_idem p1 p2 p3 q1 q2 q3 l :
  let s := rev (drop_chars q1 q2 q3 (rev (drop_chars p1 p2 p3 l))) in
  rev (drop_chars q1 q2 q3 (rev (drop_chars p1 p2 p3 s))) = s.
Proof.
  cbv zeta. set (m := drop_chars p1 p2 p3 l).
  assert (Hm : starts_with_char p1 p2 p3 m = false)
    by apply drop_chars_head.
  destruct (drop_chars_split q1 q2 q3 (rev m)) as [pre Hpre].
  assert (Hs : m = (rev (drop_chars q1 q2 q3 (rev m)) ++ rev pre)%list).
  { rewrite <- rev_app_distr, <- Hpre, rev_involutive. reflexivity. }
  assert (Hh : starts_with_char p1 p2 p3
                 (rev (drop_chars q1 q2 q3 (rev m))) = false).
  { apply starts_with_char_prefix with (q := rev pre).
    rewrite <- Hs. exact Hm. }
  rewrite (drop_chars_fix _ _ _ _ Hh), rev_involutive, drop_chars_idem.
  reflexivity.
Qed.

(** [s.strip().strip() == s.strip()] *)
Lemma strip_idem s : strip (strip s) = strip s.
Proof.
  unfold strip, rstrip, lstrip.
  rewrite !list_ascii_of_string_of_list_ascii.
  f_equal. apply strip_list_idem.
Qed.

(** X21.  Under one prefix, two different filenames never get the same S3
    key: two files of one run cannot land on one object. *)
Theorem s3_key_of_injective pre f1 f2 :
  f1 <> f2 -> s3_key_of pre f1 <> s3_key_of pre f2.
Proof.
  intros Hne H. apply Hne. revert H.
  unfold s3_key_of. destruct (truthy pre); [|auto].
  intros H. apply string_app_inv_head in H.
  apply string_app_inv_head in H. exact H.
Qed.

(** X22.  A trailing slash on a non-empty [--s3-prefix] makes no
    difference to the keys.  (On the empty prefix it does: the prefix [/]
    gives keys that start with a slash.) *)
Theorem s3_key_ignores_trailing_slash pre f :
  truthy pre = true ->
  s3_key_of (pre ++ "/") f = s3_key_of pre f.
Proof.
  intros H. unfold s3_key_of.
  rewrite (truthy_app_l pre "/" H), H, rstrip_slash_slash. reflexivity.
Qed.

(** X23.  The names [read_csv_filenames] returns are never empty and carry
    no leading or trailing white space: stripping one again changes
    nothing. *)
Theorem csv_names_are_stripped csv_path col st fs f :
  result (read_csv_filenames B csv_path col st) = Ok (Some fs) ->
  In f fs ->
  truthy f = true /\ strip f = f.
Proof.
  unfold read_csv_filenames, try_except. intros H Hin.
  match type of H with
  | context [result (?m st)] => destruct (result (m st)) as [r|e] eqn:E
  end.
  - rewrite E in H. inversion H; subst r. clear H.
    apply (bind_result_Ok (W:=W)) in E. destruct E as (reader & _ & E).
    destruct (fieldnames reader) as [flt|[names|]]; try discriminate.
    destruct (negb (existsb (String.eqb col) names)).
    + inversion E; subst fs. destruct Hin.
    + apply (bind_result_Ok (W:=W)) in E. destruct E as (l & E & E').
      inversion E'; subst l. clear E'.
      match type of E with
      | result (read_rows ?rs col [] ?s) = _ =>
          destruct (read_rows_run (W:=W) col rs [] s) as (r & Hrun & Hr)
      end.
      rewrite Hrun in E. cbn [result] in E. subst r.
      destruct (column_values (rows reader) col) as [vs|].
      * inversion Hr; subst fs. cbn [app] in Hin.
        apply filter_In in Hin. destruct Hin as [Hin Ht].
        apply in_map_iff in Hin. destruct Hin as (v & <- & _).
        split; [exact Ht|apply strip_idem].
      * destruct Hr as (e & Hr & _). discriminate.
  - destruct e; simpl in H; inversion H; subst fs; destruct Hin.
Qed.
End KeysAndNames.

(* ------------------------------------------------------------------ *)
(** ** Further runs on the scripted backend *)

Module MoreRuns.
Import Script.
Import Cases.

Ltac find_in := vm_compute; repeat (first [left; reflexivity | right]).

(** Of a file, a directory and two entries that cannot be examined,
    [list_files] keeps the file and the entry with a dot in its name. *)
Lemma list_files_keeps_files_witness :
  (forall f w, sftp_stat (backend listing) f w = (w, sc_stat listing f))
  /\ result (list_files (backend listing) start) = Ok ["a.csv"; "odd.bin"].
Proof.
  split; [intros f w; reflexivity|].
  exact (list_files_keeps_files (backend listing) (sc_stat listing) start
           (fun f w => eq_refl)).
Defined.

(** In the mixed scenario [a.csv] is removed at the source, and it is in
    [success]. *)
Lemma removes_only_reported_successes_witness :
  result (process_files (backend mixed) (Some the_bucket) six_files
                        "/out" "./downloads" "in/" true false start)
  = Ok mixed_results
  /\ In (EvRemove "a.csv")
        (events (process_files (backend mixed) (Some the_bucket) six_files
                               "/out" "./downloads" "in/" true false start))
  /\ In "a.csv" (r_success mixed_results).
Proof.
  assert (Hin : In (EvRemove "a.csv")
                   (events (process_files (backend mixed) (Some the_bucket)
                              six_files "/out" "./downloads" "in/" true
                              false start)))
    by find_in.
  split; [reflexivity|]. split; [exact Hin|].
  exact (removes_only_reported_successes
           (backend mixed) (Some the_bucket) six_files
           "/out" "./downloads" "in/" true false start
           (r := mixed_results) "a.csv" eq_refl Hin).
Defined.

(** In the mixed scenario the upload of [up.csv] failed, and [up.csv] is
    not removed at the source. *)
Lemma unsuccessful_files_stay_at_source_witness :
  NoDup six_files
  /\ result (process_files (backend mixed) (Some the_bucket) six_files
                           "/out" "./downloads" "in/" true false start)
     = Ok mixed_results
  /\ In "up.csv" (r_s3_upload_failed mixed_results)
  /\ ~ In (EvRemove "up.csv")
          (events (process_files (backend mixed) (Some the_bucket) six_files
                                 "/out" "./downloads" "in/" true false
                                 start)).
Proof.
  assert (Hnd : NoDup six_files).
  { unfold six_files.
    repeat (constructor; [simpl; intuition discriminate|]). constructor. }
  split; [exact Hnd|]. split; [reflexivity|].
  split; [simpl; auto|].
  apply (@unsuccessful_files_stay_at_source
           _ (backend mixed) (Some the_bucket) six_files
           "/out" "./downloads" "in/" true false start
           mixed_results "up.csv" Hnd eq_refl).
  simpl. auto.
Defined.

(** In the mixed scenario the [success] bucket lists [a.csv] before
    [keep.csv], as the input does. *)
Lemma buckets_keep_input_order_witness :
  result (process_files (backend mixed) (Some the_bucket) six_files
                        "/out" "./downloads" "in/" true false start)
  = Ok mixed_results
  /\ Subseq ["a.csv"; "keep.csv"] six_files.
Proof.
  split; [reflexivity|].
  exact (buckets_keep_input_order
           (backend mixed) (Some the_bucket) six_files
           "/out" "./downloads" "in/" true false start
           (r := mixed_results) success eq_refl).
Defined.

(** In the mixed scenario [keep.csv], whose deletion failed, is in
    [success]. *)
Lemma delete_failures_are_successes_witness :
  result (process_files (backend mixed) (Some the_bucket) six_files
                        "/out" "./downloads" "in/" true false start)
  = Ok mixed_results
  /\ incl ["keep.csv"] ["a.csv"; "keep.csv"].
Proof.
  split; [reflexivity|].
  exact (delete_failures_are_successes
           (backend mixed) (Some the_bucket) six_files
           "/out" "./downloads" "in/" true false start
           (r := mixed_results) eq_refl).
Defined.

(** On a manager that was never connected nothing happens, although every
    file is there. *)
Lemma unconnected_manager_does_nothing_witness :
  m_sftp (manager unconnected) = false
  /\ process_files (backend all_fine) None ["a.csv"; "b.csv"]
                   "/out" "./downloads" EmptyString true false unconnected
     = {| final := unconnected; events := []; result := Ok empty_results |}.
Proof.
  split; [reflexivity|].
  exact (unconnected_manager_does_nothing
           (backend all_fine) None ["a.csv"; "b.csv"]
           "/out" "./downloads" EmptyString true false unconnected eq_refl).
Defined.


(** The destination answers 403 to the existence check of [a.csv]: the
    file is downloaded all the same. *)
Lemma client_error_counts_as_absent_witness :
  SFTP_file_exists (backend forbidden) "a.csv" start
  = {| final := start; events := [EvStat "a.csv"]; result := Ok true |}
  /\ snd (s3_head_object (backend forbidden) "bucket" "in/a.csv" tt)
     = Raise (ClientError "403")
  /\ (let o := process_one (backend forbidden) (Some the_bucket)
                           "/tmp/ftp_download_x" "in/" true false "a.csv"
                           start in
      result o = Ok tt
      /\ In (EvGet "a.csv" "/tmp/ftp_download_x/a.csv") (events o)
      /\ r_s3_already_exists (results (final o)) = []).
Proof.
  split; [reflexivity|]. split; [reflexivity|].
  exact (client_error_counts_as_absent
           (backend forbidden) the_bucket "/tmp/ftp_download_x" "in/" true
           "a.csv" start (st1 := start) (ev1 := [EvStat "a.csv"])
           (code := "403") eq_refl eq_refl).
Defined.

(** A staged download that succeeds returns a path that passes the truth
    test. *)
Lemma staged_path_is_truthy_witness :
  truthy "/tmp/ftp_download_x" = true
  /\ fetch (backend all_fine) (Some the_bucket) "a.csv"
           "/tmp/ftp_download_x" start
     = {| final := start;
          events := [EvStat "a.csv";
                     EvGet "a.csv" "/tmp/ftp_download_x/a.csv"];
          result := Ok (Some "/tmp/ftp_download_x/a.csv") |}
  /\ truthy_opt (Some "/tmp/ftp_download_x/a.csv") = true.
Proof.
  split; [reflexivity|]. split; [reflexivity|].
  exact (staged_path_is_truthy
           (backend all_fine) the_bucket "a.csv" "/tmp/ftp_download_x" start
           (st1 := start)
           (ev := [EvStat "a.csv";
                   EvGet "a.csv" "/tmp/ftp_download_x/a.csv"])
           (file_path := Some "/tmp/ftp_download_x/a.csv")
           eq_refl eq_refl).
Defined.

(** The mixed scenario ends with exit status 1. *)
Lemma main_exit_code_witness :
  result (main (backend mixed) args_s3 start) = Ok 1
  /\ (1 = 0 \/ 1 = 1).
Proof.
  split; [reflexivity|].
  exact (main_exit_code (backend mixed) args_s3 start (c := 1) eq_refl).
Defined.

(** With a bucket that does not exist, [main] reads the CSV file, asks for
    the bucket and stops. *)
Lemma unreachable_bucket_stops_before_sftp_witness :
  a_s3_bucket args_s3 = Some "bucket"
  /\ truthy "bucket" = true
  /\ (forall w, is_ok (snd (s3_head_bucket (backend no_bucket) "bucket" w))
                = false)
  /\ result (main (backend no_bucket) args_s3 start) = Ok 1
  /\ Forall (no is_sftp_call)
            (events (main (backend no_bucket) args_s3 start)).
Proof.
  split; [reflexivity|]. split; [reflexivity|].
  split; [intros w; reflexivity|].
  exact (unreachable_bucket_stops_before_sftp
           (backend no_bucket) args_s3 start (b := "bucket")
           eq_refl eq_refl (fun w => eq_refl)).
Defined.

(** With a server that does not answer, [main] returns 1 after the
    connection attempt and the [close] that follows it. *)
Lemma failed_connection_exits_one_witness :
  (forall h p u pw w,
      is_ok (snd (ssh_connect (backend offline) h p u pw w)) = false)
  /\ result (main (backend offline) args_local start) = Ok 1
  /\ Forall (no is_sftp_op)
            (events (main (backend offline) args_local start)).
Proof.
  split; [intros h p u pw w; reflexivity|].
  exact (failed_connection_exits_one
           (backend offline) args_local start
           (fun h p u pw w => eq_refl)).
Defined.

(** [a.csv] and [b.csv] under the prefix [in/]. *)
Lemma s3_key_of_injective_witness :
  "a.csv" <> "b.csv"
  /\ s3_key_of "in/" "a.csv" <> s3_key_of "in/" "b.csv".
Proof.
  assert (H : "a.csv" <> "b.csv") by (apply String.eqb_neq; reflexivity).
  split; [exact H|].
  exact (s3_key_of_injective "in/" H).
Defined.

(** The prefixes [in] and [in/]. *)
Lemma s3_key_ignores_trailing_slash_witness :
  truthy "in" = true
  /\ s3_key_of ("in" ++ "/") "a.csv" = s3_key_of "in" "a.csv".
Proof.
  split; [reflexivity|].
  exact (s3_key_ignores_trailing_slash "in" "a.csv" eq_refl).
Defined.

(** Of the three rows of the padded CSV file, two give a name, without
    its padding. *)
Lemma csv_names_are_stripped_witness :
  result (read_csv_filenames (backend padded) "files.csv" "filename" start)
  = Ok (Some ["a.csv"; "b.csv"])
  /\ In "a.csv" ["a.csv"; "b.csv"]
  /\ truthy "a.csv" = true /\ strip "a.csv" = "a.csv".
Proof.
  split; [reflexivity|]. split; [left; reflexivity|].
  exact (csv_names_are_stripped
           (backend padded) "files.csv" "filename" start
           (fs := ["a.csv"; "b.csv"]) "a.csv"
           eq_refl (or_introl eq_refl)).
Defined.
End MoreRuns.
